(** * Video_Analyzer: frame sampling, sample budget and analysis orchestration

    A shallow embedding of [app/utils/video.py], [app/config.py],
    [app/schemas/video.py], [app/services/video_analyzer.py],
    [app/api/v1/endpoints/video.py] and the health check of [app/main.py],
    with the properties of the frame index selector, the sample budget
    planner, the frame extractor, the orchestrator and the route proved
    over it.

    Python values are modelled as follows.
    - [int] is [Z] (unbounded).
    - [float] is IEEE-754 binary64, taken from the Standard Library's
      [SpecFloat] with [prec = 53] and [emax = 1024]; every arithmetic
      operation is the correctly rounded one (round to nearest, ties to even).
    - [str] is a list of Unicode code points.
    - [Optional[T]] is [option T]; an exception is the left injection of a sum.
    - OpenCV and the inference client are collaborators outside the repository:
      they are the variables of a section. *)

From Stdlib Require Import ZArith List Bool String Ascii Lia QArith Qpower Lqa.
From Stdlib Require Import Sorting.Sorted Floats.SpecFloat.
Import ListNotations.

Open Scope Z_scope.

(** ** Python values *)

Module Py.

(** [str]: a sequence of code points. *)
Definition str := list N.

Definition lit (s : string) : str :=
  map N_of_ascii (list_ascii_of_string s).

(** The exceptions that reach this code.  [ExternalError] stands for any
    exception class that is raised by a collaborator and is none of the
    three built-in classes below. *)
Inductive exn : Type :=
| ValueError (msg : str)
| OverflowError (msg : str)
| ZeroDivisionError (msg : str)
| ExternalError (msg : str).

Definition result (A : Type) : Type := (exn + A)%type.

Definition ret {A : Type} (a : A) : result A := inr a.
Definition raise {A : Type} (e : exn) : result A := inl e.

Definition bind {A B : Type} (r : result A) (k : A -> result B) : result B :=
  match r with
  | inl e => inl e
  | inr a => k a
  end.

Notation "x <- c ;; k" := (bind c (fun x => k))
  (at level 61, c at next level, right associativity).
Notation "' pat <- c ;; k" := (bind c (fun x => match x with pat => k end))
  (at level 61, pat pattern, c at next level, right associativity).

(** Evaluation of [[f(x) for x in l]] when [f] may raise: the first exception,
    in iteration order, is the outcome. *)
Fixpoint mapM {A B : Type} (f : A -> result B) (l : list A) : result (list B) :=
  match l with
  | [] => ret []
  | x :: l' => y <- f x ;; ys <- mapM f l' ;; ret (y :: ys)
  end.

(** *** float: binary64 *)

Definition prec : Z := 53.
Definition emax : Z := 1024.

Definition float := spec_float.

Definition fzero : float := S754_zero false.

Definition is_zero (x : float) : bool :=
  match x with
  | S754_zero _ => true
  | _ => false
  end.

(** [bool(x)] for a float: every float but the two zeros is true (NaN too). *)
Definition float_bool (x : float) : bool := negb (is_zero x).

(** [x / y] on floats. *)
Definition float_truediv (x y : float) : result float :=
  if is_zero y then raise (ZeroDivisionError (lit "float division by zero"))
  else ret (SFdiv prec emax x y).

(** A result that rounds past the largest float raises [OverflowError] where
    Python checks for it. *)
Definition checked (msg : str) (f : float) : result float :=
  match f with
  | S754_infinity _ => raise (OverflowError msg)
  | _ => ret f
  end.

(** The conversion of an int operand of a float operation: the nearest float,
    [OverflowError] past the largest one. *)
Definition float_of_int (n : Z) : result float :=
  checked (lit "int too large to convert to float")
    (binary_normalize prec emax n 0 false).

(** [a / b] on ints: the exact quotient, rounded once. *)
Definition int_truediv (a b : Z) : result float :=
  match a, b with
  | _, Z0 => raise (ZeroDivisionError (lit "division by zero"))
  | Z0, _ => ret (S754_zero (b <? 0))
  | _, _ =>
      let '(mz, ez, lz) := SFdiv_core_binary prec emax (Z.abs a) 0 (Z.abs b) 0 in
      checked (lit "integer division result too large for a float")
        (binary_round_aux prec emax (xorb (a <? 0) (b <? 0)) mz ez lz)
  end.

(** [i * x] with [i] an int and [x] a float. *)
Definition int_mul_float (i : Z) (x : float) : result float :=
  f <- float_of_int i ;; ret (SFmul prec emax f x).

(** [i / x] with [i] an int and [x] a float. *)
Definition int_div_float (i : Z) (x : float) : result float :=
  f <- float_of_int i ;; float_truediv f x.

(** [int(x)]: truncation toward zero. *)
Definition int_of_float (x : float) : result Z :=
  match x with
  | S754_zero _ => ret 0
  | S754_finite s m e =>
      let a := Z.shiftl (Zpos m) e in
      ret (if s then - a else a)
  | S754_infinity _ =>
      raise (OverflowError (lit "cannot convert float infinity to integer"))
  | S754_nan => raise (ValueError (lit "cannot convert float NaN to integer"))
  end.

(** [math.floor(x)]: the largest int not above [x]. *)
Definition floor_of_float (x : float) : result Z :=
  match x with
  | S754_zero _ => ret 0
  | S754_finite s m e => ret (Z.shiftl (if s then Zneg m else Zpos m) e)
  | S754_infinity _ =>
      raise (OverflowError (lit "cannot convert float infinity to integer"))
  | S754_nan => raise (ValueError (lit "cannot convert float NaN to integer"))
  end.

(** [x > 0] and [x <= 0] for a float [x]; both are false on NaN. *)
Definition float_gt0 (x : float) : bool := SFltb fzero x.
Definition float_le0 (x : float) : bool := SFleb x fzero.

(** [x or d]. *)
Definition int_or (x : option Z) (d : Z) : Z :=
  match x with
  | Some v => if v =? 0 then d else v
  | None => d
  end.

Definition float_or (x : option float) (d : float) : float :=
  match x with
  | Some v => if float_bool v then v else d
  | None => d
  end.

(** [list(range(n))]. *)
Definition range (n : Z) : list Z := map Z.of_nat (seq 0 (Z.to_nat n)).

(** [set(l)] keeps one copy of each element; [sorted] puts them in
    increasing order, so the iteration order of the set does not show. *)
Definition set (l : list Z) : list Z := nodup Z.eq_dec l.

Fixpoint insert (x : Z) (l : list Z) : list Z :=
  match l with
  | [] => [x]
  | y :: l' => if x <=? y then x :: l else y :: insert x l'
  end.

Definition sorted (l : list Z) : list Z := fold_right insert [] l.

(** *** str *)

(** [c.isspace()] for a code point. *)
Definition isspace (c : N) : bool :=
  ((9 <=? c) && (c <=? 13) || (28 <=? c) && (c <=? 32)
   || (c =? 133) || (c =? 160) || (c =? 5760)
   || (8192 <=? c) && (c <=? 8202)
   || (c =? 8232) || (c =? 8233) || (c =? 8239) || (c =? 8287)
   || (c =? 12288))%N.

Fixpoint lstrip (s : str) : str :=
  match s with
  | [] => []
  | c :: s' => if isspace c then lstrip s' else s
  end.

Definition rstrip (s : str) : str := rev (lstrip (rev s)).

(** [s.strip()]. *)
Definition strip (s : str) : str := rstrip (lstrip s).

(** [bool(s)] for an optional string: [None] and the empty string are false. *)
Definition str_bool (s : option str) : bool :=
  match s with
  | Some (_ :: _) => true
  | _ => false
  end.

End Py.

Import Py.

(** ** app/utils/video.py *)

Module Video.

(** A sampled frame that can be sent to the vision model. *)
Record FrameSample : Type := {
  index : Z;
  timestamp_sec : option float;
  data_url : str
}.

(** Basic video metadata used to derive sampling density. *)
Record VideoMetadata : Type := {
  frame_count : Z;
  fps : float;
  duration_sec : option float
}.

(** [int(i * step)], the element of the comprehension for one [i]. *)
Definition pick (step : float) (i : Z) : result Z :=
  x <- int_mul_float i step ;; int_of_float x.

Definition _frame_indices (total_frames samples : Z) : result (list Z) :=
  if (total_frames <=? 0) || (samples <=? 0) then ret []
  else if samples >=? total_frames then ret (range total_frames)
  else
    step <- int_truediv total_frames samples ;;
    s <- mapM (pick step) (range samples) ;;
    ret (sorted (set s)).

(** The properties of a capture that the code reads or writes. *)
Inductive CapProp : Type :=
| CAP_PROP_FRAME_COUNT
| CAP_PROP_FPS
| CAP_PROP_POS_FRAMES.

(** OpenCV.  A [Capture] is the state of one [cv2.VideoCapture] handle;
    [cap_set] and [cap_read] return the handle's next state.  [cap_read]
    gives [None] for [(False, None)] and [Some frame] for [(True, frame)];
    [imencode] gives the success flag and the buffer. *)
Section OpenCV.

Context {Path Capture Frame Buffer : Type}.
Variable VideoCapture : Path -> Capture.
Variable isOpened : Capture -> bool.
Variable cap_get : Capture -> CapProp -> float.
Variable cap_set : Capture -> CapProp -> Z -> Capture.
Variable cap_read : Capture -> option Frame * Capture.
Variable imencode : str -> Frame -> bool * Buffer.
(** [base64.b64encode(buffer.tobytes()).decode("utf-8")] *)
Variable b64encode : Buffer -> str.

Definition _encode_frame (frame : Frame) : result str :=
  let '(success, buffer) := imencode (lit ".jpg") frame in
  if negb success then raise (ValueError (lit "Failed to encode frame."))
  else
    let b64_image := b64encode buffer in
    ret (lit "data:image/jpeg;base64," ++ b64_image).

Definition unreadable : exn :=
  ValueError (lit "Unable to read the provided video file.").

(** The handle is local to each call, so its release in the [finally]
    clause leaves the value returned and the exception raised as they are. *)
Definition get_video_metadata (video_path : Path) : result VideoMetadata :=
  let cap := VideoCapture video_path in
  if negb (isOpened cap) then raise unreadable
  else
    total_frames <- int_of_float (cap_get cap CAP_PROP_FRAME_COUNT) ;;
    let fps := float_or (Some (cap_get cap CAP_PROP_FPS)) fzero in
    duration <-
      (if float_gt0 fps
       then d <- int_div_float total_frames fps ;; ret (Some d)
       else ret None) ;;
    ret {| frame_count := total_frames; fps := fps; duration_sec := duration |}.

(** The body of [for idx in indices], with [samples] the list built so far. *)
Fixpoint extract_loop (cap : Capture) (fps : float) (indices : list Z)
    (samples : list FrameSample) : result (list FrameSample) :=
  match indices with
  | [] => ret samples
  | idx :: rest =>
      let cap := cap_set cap CAP_PROP_POS_FRAMES idx in
      let '(got, cap) := cap_read cap in
      match got with
      | None => extract_loop cap fps rest samples
      | Some frame =>
          timestamp <-
            (if float_bool fps
             then t <- int_div_float idx fps ;; ret (Some t)
             else ret None) ;;
          match _encode_frame frame with
          | inl (ValueError _) => extract_loop cap fps rest samples
          | inl e => raise e
          | inr url =>
              extract_loop cap fps rest
                (samples ++ [{| index := idx; timestamp_sec := timestamp;
                                data_url := url |}])
          end
      end
  end.

(** [indices or _frame_indices(total_frames, sample_count)] *)
Definition indices_or (indices : option (list Z)) (total_frames sample_count : Z)
    : result (list Z) :=
  match indices with
  | Some (i :: l) => ret (i :: l)
  | _ => _frame_indices total_frames sample_count
  end.

(** Sample frames uniformly across a video and return data URLs. *)
Definition sample_video_frames (video_path : Path) (sample_count : Z)
    (indices : option (list Z)) : result (list FrameSample) :=
  let cap := VideoCapture video_path in
  if negb (isOpened cap) then raise unreadable
  else
    total_frames <- int_of_float (cap_get cap CAP_PROP_FRAME_COUNT) ;;
    let fps := float_or (Some (cap_get cap CAP_PROP_FPS)) fzero in
    indices <- indices_or indices total_frames sample_count ;;
    extract_loop cap fps indices [].

(** The same call, run on a worker thread. *)
Definition sample_video_frames_async := sample_video_frames.

End OpenCV.

End Video.

(** ** app/config.py *)

Module Config.

Record Settings : Type := {
  openai_api_key : str;
  openai_model : str;
  frame_samples : Z;
  seconds_per_frame : float;
  max_frame_samples : Z;
  max_tokens : Z
}.

End Config.

(** ** app/schemas/video.py *)

Module Schemas.

Record VideoAnalysisResponse : Type := {
  summary : str;
  frames_used : Z;
  model : str;
  frame_timestamps : option (list float);
  prompt : option str;
  total_frames : option Z;
  video_duration_sec : option float;
  sampling_interval_sec : option float;
  requested_frame_samples : option Z
}.

End Schemas.

(** ** The inference client (the [openai] package) *)

Module OpenAI.

(** One part of a user turn. *)
Inductive ContentPart : Type :=
| TextPart (text : str)
| ImageUrlPart (url : str).

(** The content of a message: a string, or a list of parts. *)
Inductive Content : Type :=
| Plain (text : str)
| Parts (parts : list ContentPart).

Record Message : Type := { role : str; content : Content }.

(** The fields of a chat completion that the code reads:
    [choice.message.content] for the choices of [completion.choices]. *)
Record Choice : Type := { message_content : option str }.

Record ChatCompletion : Type := { choices : list Choice }.

End OpenAI.

(** ** app/services/video_analyzer.py *)

Module Service.

Import Video Config Schemas OpenAI.

(** The value of the local [time_based]: [baseline], replaced by
    [int(metadata.duration_sec / interval) + 1] under [if metadata.duration_sec]. *)
Definition time_based (baseline : Z) (interval : float) (metadata : VideoMetadata)
    : result Z :=
  match duration_sec metadata with
  | Some d =>
      if float_bool d
      then q <- float_truediv d interval ;; n <- int_of_float q ;; ret (n + 1)
      else ret baseline
  | None => ret baseline
  end.

(** The value returned for a given [max(baseline, time_based)]: clamped by
    the frame count when that is positive, then by the ceiling, then raised
    to [1]. *)
Definition clamp (settings : Settings) (metadata : VideoMetadata) (target : Z) : Z :=
  let target :=
    if frame_count metadata >? 0 then Z.min target (frame_count metadata) else target in
  let target := Z.min target (max_frame_samples settings) in
  Z.max target 1.

(** Decide how many frames to sample based on video length. *)
Definition _choose_sample_count (settings : Settings) (metadata : VideoMetadata)
    (frame_samples_override : option Z) (interval_override : option float)
    : result (Z * float) :=
  let baseline := Z.max (int_or frame_samples_override (frame_samples settings)) 1 in
  let interval := float_or interval_override (seconds_per_frame settings) in
  time_based <- time_based baseline interval metadata ;;
  let target := Z.max baseline time_based in
  let target :=
    if frame_count metadata >? 0 then Z.min target (frame_count metadata)
    else target in
  let target := Z.min target (max_frame_samples settings) in
  ret (Z.max target 1, interval).

Definition _build_user_content (instruction : str) (frames : list FrameSample)
    : list ContentPart :=
  TextPart instruction :: map (fun frame => ImageUrlPart (data_url frame)) frames.

Definition default_instruction : str :=
  lit "Provide a rich, chronological explanation of the video. Summarize intent and outcome, list scene changes, "
  ++ lit "key actions, subjects/objects, and notable visual cues. Reference timestamps when visible.".

Definition system_prompt : str :=
  lit "You are an expert video analyst. Use the provided frames to reconstruct the story, noting scene "
  ++ lit "transitions, actions, and visual details. Provide detail without inventing elements not visible.".

(** [instruction.strip() if instruction else (...)] *)
Definition resolve_instruction (instruction : option str) : str :=
  match instruction with
  | Some s => if str_bool instruction then strip s else default_instruction
  | None => default_instruction
  end.

Definition no_frames : exn :=
  ValueError (lit "Could not sample frames from the provided video.").

(** [completion.choices[0].message.content if completion.choices else ""] *)
Definition first_content (completion : ChatCompletion) : option str :=
  match choices completion with
  | c :: _ => message_content c
  | [] => Some []
  end.

(** [content or ""] *)
Definition str_or_empty (content : option str) : str :=
  match content with
  | Some s => s
  | None => []
  end.

(** [[f.timestamp_sec for f in frames if f.timestamp_sec is not None]] *)
Fixpoint known_timestamps (frames : list FrameSample) : list float :=
  match frames with
  | [] => []
  | f :: rest =>
      match timestamp_sec f with
      | Some t => t :: known_timestamps rest
      | None => known_timestamps rest
      end
  end.

(** The two messages of the request. *)
Definition build_messages (user_instruction : str) (frames : list FrameSample)
    : list Message :=
  [ {| role := lit "system"; content := Plain system_prompt |};
    {| role := lit "user";
       content := Parts (_build_user_content user_instruction frames) |} ].

(** [x or None] on an int. *)
Definition int_or_none (x : Z) : option Z := if x =? 0 then None else Some x.

Section Analyzer.

Context {Path Capture Frame Buffer : Type}.
Variable VideoCapture : Path -> Capture.
Variable isOpened : Capture -> bool.
Variable cap_get : Capture -> CapProp -> float.
Variable cap_set : Capture -> CapProp -> Z -> Capture.
Variable cap_read : Capture -> option Frame * Capture.
Variable imencode : str -> Frame -> bool * Buffer.
Variable b64encode : Buffer -> str.
(** [client.chat.completions.create(model=..., messages=..., max_tokens=...)] *)
Variable create : str -> list Message -> Z -> result ChatCompletion.

(** What [analyze] does once the frames are there. *)
Definition respond (settings : Settings) (metadata : VideoMetadata)
    (sample_target : Z) (effective_interval : float)
    (frames : list FrameSample) (instruction : option str)
    : result VideoAnalysisResponse :=
  let user_instruction := resolve_instruction instruction in
  let messages := build_messages user_instruction frames in
  completion <- create (openai_model settings) messages (max_tokens settings) ;;
  let content := first_content completion in
  ret {| summary := str_or_empty content;
         frames_used := Z.of_nat (List.length frames);
         model := openai_model settings;
         frame_timestamps := Some (known_timestamps frames);
         prompt := Some user_instruction;
         total_frames := int_or_none (frame_count metadata);
         video_duration_sec := duration_sec metadata;
         sampling_interval_sec := Some effective_interval;
         requested_frame_samples := Some sample_target |}.

Definition analyze (settings : Settings) (video_path : Path)
    (instruction : option str) (frame_samples : option Z)
    (seconds_per_frame : option float) : result VideoAnalysisResponse :=
  metadata <- get_video_metadata VideoCapture isOpened cap_get video_path ;;
  '(sample_target, effective_interval) <-
    _choose_sample_count settings metadata frame_samples seconds_per_frame ;;
  frames <-
    sample_video_frames_async VideoCapture isOpened cap_get cap_set cap_read
      imencode b64encode video_path sample_target None ;;
  match frames with
  | [] => raise no_frames
  | _ :: _ =>
      respond settings metadata sample_target effective_interval frames instruction
  end.

End Analyzer.

End Service.

(** ** app/api/v1/endpoints/video.py *)

Module Endpoint.

Import Video Config Schemas OpenAI Service.

(** What the route hands back to the framework: the response model, an
    [HTTPException], or an exception it does not catch. *)
Inductive Outcome : Type :=
| Response (body : VideoAnalysisResponse)
| HTTPException (status_code : Z) (detail : str)
| Uncaught (e : exn).

Definition HTTP_400_BAD_REQUEST : Z := 400.
Definition HTTP_500_INTERNAL_SERVER_ERROR : Z := 500.

Fixpoint startswith (s p : str) : bool :=
  match p, s with
  | [], _ => true
  | _ :: _, [] => false
  | c :: p', d :: s' => (c =? d)%N && startswith s' p'
  end.

Section Route.

Context {Path Capture Frame Buffer Upload : Type}.
Variable VideoCapture : Path -> Capture.
Variable isOpened : Capture -> bool.
Variable cap_get : Capture -> CapProp -> float.
Variable cap_set : Capture -> CapProp -> Z -> Capture.
Variable cap_read : Capture -> option Frame * Capture.
Variable imencode : str -> Frame -> bool * Buffer.
Variable b64encode : Buffer -> str.
Variable create : str -> list Message -> Z -> result ChatCompletion.
Variable content_type : Upload -> option str.
Variable save_upload_to_temp : Upload -> Path.

Definition analyze_video (file : Upload) (instruction : option str)
    (frame_samples : option Z) (seconds_per_frame : option float)
    (settings : Settings) : Outcome :=
  if negb (str_bool (Some (openai_api_key settings))) then
    HTTPException HTTP_500_INTERNAL_SERVER_ERROR (lit "OPENAI_API_KEY is not configured.")
  else if negb (str_bool (content_type file))
            || negb (startswith (str_or_empty (content_type file)) (lit "video/")) then
    HTTPException HTTP_400_BAD_REQUEST (lit "Please upload a valid video file.")
  else if match frame_samples with Some n => n <=? 0 | None => false end then
    HTTPException HTTP_400_BAD_REQUEST (lit "frame_samples must be positive.")
  else if match seconds_per_frame with Some x => float_le0 x | None => false end then
    HTTPException HTTP_400_BAD_REQUEST (lit "seconds_per_frame must be positive.")
  else
    let temp_path := save_upload_to_temp file in
    match analyze VideoCapture isOpened cap_get cap_set cap_read imencode
            b64encode create settings temp_path instruction frame_samples
            seconds_per_frame with
    | inr body => Response body
    | inl (ValueError msg) => HTTPException HTTP_400_BAD_REQUEST msg
    | inl e => Uncaught e
    end.

End Route.

End Endpoint.

(** ** The wording of the specification *)

Module Spec.

Import Video Config.

(** Step 3 of the planner: [baseline] if the duration is unknown, else
    [floor(duration_sec / interval) + 1]. *)
Definition time_based (baseline : Z) (interval : float) (metadata : VideoMetadata)
    : result Z :=
  match duration_sec metadata with
  | None => ret baseline
  | Some d => q <- float_truediv d interval ;; n <- floor_of_float q ;; ret (n + 1)
  end.

(** The planner, step by step as the specification lists it. *)
Definition plan (config : Settings) (metadata : VideoMetadata)
    (frame_samples_override : option Z) (interval_override : option float)
    : result (Z * float) :=
  let baseline := Z.max (int_or frame_samples_override (frame_samples config)) 1 in
  let interval := float_or interval_override (seconds_per_frame config) in
  time_based <- time_based baseline interval metadata ;;
  let target := Z.max baseline time_based in
  let target :=
    if 0 <? frame_count metadata then Z.min target (frame_count metadata) else target in
  let target := Z.min target (max_frame_samples config) in
  ret (Z.max target 1, interval).

(** The extraction as a fold over the attempts that collects the successes:
    the frames decoded and encoded, in index order. *)
Section Fold.

Context {Capture Frame Buffer : Type}.
Variable cap_set : Capture -> CapProp -> Z -> Capture.
Variable cap_read : Capture -> option Frame * Capture.
Variable imencode : str -> Frame -> bool * Buffer.
Variable b64encode : Buffer -> str.

(** [index / fps] when fps is known, else absent. *)
Definition timestamp_of (idx : Z) (fps : float) : option float :=
  if float_bool fps
  then match binary_normalize prec emax idx 0 false with
       | S754_infinity _ => None
       | f => Some (SFdiv prec emax f fps)
       end
  else None.

Fixpoint successes (cap : Capture) (fps : float) (indices : list Z)
    : list FrameSample :=
  match indices with
  | [] => []
  | idx :: rest =>
      let '(got, cap') := cap_read (cap_set cap CAP_PROP_POS_FRAMES idx) in
      match got with
      | None => successes cap' fps rest
      | Some frame =>
          let '(success, buffer) := imencode (lit ".jpg") frame in
          if success
          then {| index := idx; timestamp_sec := timestamp_of idx fps;
                  data_url := lit "data:image/jpeg;base64," ++ b64encode buffer |}
               :: successes cap' fps rest
          else successes cap' fps rest
      end
  end.

End Fold.

End Spec.

(** ** The value of a float *)

Module Value.

Local Open Scope Q_scope.

(** [m * 2^e] as a rational. *)
Definition F2Q (m e : Z) : Q := inject_Z m * 2 ^ e.

(** The relative error of one rounding is below [2^-52]. *)
Definition eps : Q := 1 # 4503599627370496.

End Value.

(** ** A small world to run the code in *)

Module Demo.

Import Video Config Schemas OpenAI.

(** [float(n)] for a literal. *)
Definition of_Z (n : Z) : float := binary_normalize prec emax n 0 false.

(** A video: whether it opens, its frame rate, and for each frame what
    decoding gives ([None] when the decoder fails there).  A frame is a
    number; frame [0] is one the encoder refuses. *)
Record video : Type := {
  readable : bool;
  rate : float;
  frames : list (option N)
}.

Definition Capture : Type := (video * Z)%type.

Definition VideoCapture (v : video) : Capture := (v, 0).

Definition isOpened (c : Capture) : bool := readable (fst c).

Definition cap_get (c : Capture) (p : CapProp) : float :=
  match p with
  | CAP_PROP_FRAME_COUNT => of_Z (Z.of_nat (List.length (frames (fst c))))
  | CAP_PROP_FPS => rate (fst c)
  | CAP_PROP_POS_FRAMES => of_Z (snd c)
  end.

Definition cap_set (c : Capture) (p : CapProp) (x : Z) : Capture :=
  match p with
  | CAP_PROP_POS_FRAMES => (fst c, x)
  | _ => c
  end.

Definition cap_read (c : Capture) : option N * Capture :=
  (if snd c <? 0 then None else nth (Z.to_nat (snd c)) (frames (fst c)) None,
   (fst c, snd c + 1)).

Definition imencode (ext : str) (frame : N) : bool * N :=
  (negb (frame =? 0)%N, frame).

Definition b64encode (buffer : N) : str := [buffer].

Definition completion : ChatCompletion :=
  {| choices := [ {| message_content := Some (lit "A short clip.") |} ] |}.

Definition create (model : str) (messages : list Message) (max_tokens : Z)
    : result ChatCompletion :=
  ret completion.

Definition settings : Settings := {|
  openai_api_key := lit "key";
  openai_model := lit "gpt-4.1-mini";
  frame_samples := 20;
  seconds_per_frame := of_Z 2;
  max_frame_samples := 120;
  max_tokens := 5000
|}.

(** Six frames at 30 fps: frame 2 does not decode, frame 4 does not encode. *)
Definition clip : video := {|
  readable := true;
  rate := of_Z 30;
  frames := [Some 7; Some 8; None; Some 9; Some 0; Some 5]%N
|}.

(** A file that opens and in which no frame decodes. *)
Definition broken : video := {|
  readable := true;
  rate := of_Z 30;
  frames := [None; None; None]
|}.

Definition analyze :=
  Service.analyze VideoCapture isOpened cap_get cap_set cap_read imencode b64encode create.

Definition sample_video_frames :=
  Video.sample_video_frames VideoCapture isOpened cap_get cap_set cap_read imencode
    b64encode.

(** What the reader and the extractor give on [clip]. *)
Definition clip_metadata : VideoMetadata :=
  {| frame_count := 6; fps := of_Z 30;
     duration_sec := Some (SFdiv prec emax (of_Z 6) (of_Z 30)) |}.

Definition clip_frames : list FrameSample :=
  [ {| index := 0; timestamp_sec := Some (SFdiv prec emax (of_Z 0) (of_Z 30));
       data_url := lit "data:image/jpeg;base64," ++ [7%N] |};
    {| index := 1; timestamp_sec := Some (SFdiv prec emax (of_Z 1) (of_Z 30));
       data_url := lit "data:image/jpeg;base64," ++ [8%N] |};
    {| index := 3; timestamp_sec := Some (SFdiv prec emax (of_Z 3) (of_Z 30));
       data_url := lit "data:image/jpeg;base64," ++ [9%N] |};
    {| index := 5; timestamp_sec := Some (SFdiv prec emax (of_Z 5) (of_Z 30));
       data_url := lit "data:image/jpeg;base64," ++ [5%N] |} ].

(** Metadata with the frame count unknown. *)
Definition unknown_count : VideoMetadata :=
  {| frame_count := 0; fps := of_Z 30; duration_sec := Some fzero |}.

(** The planner example of the specification: 300 seconds, 10000 frames. *)
Definition five_minutes : VideoMetadata :=
  {| frame_count := 10000;
     fps := SFdiv prec emax (of_Z 10000) (of_Z 300);
     duration_sec := Some (of_Z 300) |}.

(** A configuration whose ceiling is [0]. *)
Definition zero_ceiling : Settings := {|
  openai_api_key := lit "key";
  openai_model := lit "gpt-4.1-mini";
  frame_samples := 20;
  seconds_per_frame := of_Z 2;
  max_frame_samples := 0;
  max_tokens := 5000
|}.

(** An upload: its declared content type and the video it holds. *)
Definition Upload : Type := (option str * video)%type.

Definition content_type (file : Upload) : option str := fst file.

Definition save_upload_to_temp (file : Upload) : video := snd file.

Definition analyze_video :=
  Endpoint.analyze_video VideoCapture isOpened cap_get cap_set cap_read imencode
    b64encode create content_type save_upload_to_temp.

End Demo.

(** ** app/main.py *)

Module Main.

Import Config.



End Main.

(** ** Order-preserving selection *)

Module Observe.

(** [subsequence l l']: [l] is [l'] with some elements left out. *)
Inductive subsequence {A : Type} : list A -> list A -> Prop :=
| subsequence_nil : subsequence [] []
| subsequence_skip (x : A) (l l' : list A) :
    subsequence l l' -> subsequence l (x :: l')
| subsequence_keep (x : A) (l l' : list A) :
    subsequence l l' -> subsequence (x :: l) (x :: l').

(** A float whose sign bit is clear (NaN has none). *)
Definition sign_clear (f : float) : bool :=
  match f with
  | S754_zero s | S754_infinity s | S754_finite s _ _ => negb s
  | S754_nan => true
  end.

(** The image URLs of a user turn, in order. *)
Fixpoint image_urls (parts : list OpenAI.ContentPart) : list str :=
  match parts with
  | [] => []
  | OpenAI.TextPart _ :: rest => image_urls rest
  | OpenAI.ImageUrlPart url :: rest => url :: image_urls rest
  end.

End Observe.

(** ** Further inputs *)

Module Cases.

Import Video Config Demo.

(** A file that does not open. *)
Definition closed : video := {|
  readable := false;
  rate := of_Z 30;
  frames := [Some 7%N]
|}.

(** Two frames and no frame rate. *)
Definition unrated : video := {|
  readable := true;
  rate := fzero;
  frames := [Some 7; Some 8]%N
|}.

(** The smallest positive float. *)
Definition tiny : float := S754_finite false 1 (-1074).

(** The prefix of every data URL. *)
Definition jpeg_prefix : str := lit "data:image/jpeg;base64,".

End Cases.

(** ** The checks of the route *)

Module Request.

Import Config Endpoint.

(** The four checks that [analyze_video] makes before it saves the upload:
    the key is set, the content type starts with [video/], and each
    override, when given, is positive. *)
Definition accepted (content_type : option str) (frame_samples : option Z)
    (seconds_per_frame : option float) (settings : Settings) : bool :=
  str_bool (Some (openai_api_key settings))
  && (str_bool content_type
      && startswith (Service.str_or_empty content_type) (lit "video/"))
  && negb (match frame_samples with Some n => n <=? 0 | None => false end)
  && negb (match seconds_per_frame with Some x => float_le0 x | None => false end).

End Request.

(** * Properties *)

(** ** Lists: comprehensions, [range], [sorted] and [set] *)

Module ListFacts.

Lemma mapM_inr {A B : Type} (f : A -> result B) (P : B -> Prop) (l : list A) :
  (forall x, In x l -> exists y, f x = inr y /\ P y) ->
  exists ys, mapM f l = inr ys /\ Forall P ys /\ List.length ys = List.length l.
Proof.
  induction l as [ | x l IH]; intros H.
  - exists []. repeat split. constructor.
  - destruct (H x (or_introl eq_refl)) as (y & Ey & Py).
    destruct IH as (ys & Eys & Pys & Hlen).
    { intros x' Hx'. apply H. right. exact Hx'. }
    exists (y :: ys). cbn [mapM]. rewrite Ey. cbn [bind]. rewrite Eys. cbn [bind ret].
    repeat split; [constructor; assumption | cbn; congruence].
Qed.

Lemma mapM_In {A B : Type} (f : A -> result B) (l : list A) (ys : list B) (x : A) :
  mapM f l = inr ys -> In x l -> exists y, f x = inr y /\ In y ys.
Proof.
  revert ys. induction l as [ | a l IH]; intros ys E Hin; [destruct Hin | ].
  cbn [mapM] in E. destruct (f a) as [e | b] eqn:Ea; cbn [bind] in E; [discriminate | ].
  destruct (mapM f l) as [e | bs] eqn:El; cbn [bind ret] in E; [discriminate | ].
  injection E as <-. destruct Hin as [<- | Hin].
  - exists b. split; [assumption | left; reflexivity].
  - destruct (IH bs eq_refl Hin) as (y & Ey & Hy). exists y. split; [assumption | right; assumption].
Qed.

Lemma In_range (n i : Z) : In i (range n) <-> 0 <= i < n.
Proof.
  unfold range. rewrite in_map_iff. split.
  - intros (k & <- & Hk). apply in_seq in Hk. lia.
  - intros Hi. exists (Z.to_nat i). split; [lia | apply in_seq; lia].
Qed.

Lemma length_range (n : Z) : List.length (range n) = Z.to_nat n.
Proof. unfold range. rewrite length_map, length_seq. reflexivity. Qed.

Lemma seq_sorted (len start : nat) :
  StronglySorted Z.lt (map Z.of_nat (seq start len)).
Proof.
  revert start. induction len as [ | len IH]; intros start; cbn [seq map].
  - constructor.
  - constructor; [apply IH | ].
    apply Forall_forall. intros y Hy. apply in_map_iff in Hy.
    destruct Hy as (k & <- & Hk). apply in_seq in Hk. lia.
Qed.

Lemma range_sorted (n : Z) : StronglySorted Z.lt (range n).
Proof. apply seq_sorted. Qed.

Lemma In_insert (x y : Z) (l : list Z) : In y (insert x l) <-> y = x \/ In y l.
Proof.
  induction l as [ | a l IH]; cbn [insert].
  - cbn. intuition.
  - destruct (x <=? a); cbn [In]; [intuition | ]. rewrite IH. intuition.
Qed.

Lemma length_insert (x : Z) (l : list Z) :
  List.length (insert x l) = S (List.length l).
Proof.
  induction l as [ | a l IH]; cbn [insert]; [reflexivity | ].
  destruct (x <=? a); cbn [List.length]; congruence.
Qed.

Lemma insert_sorted (x : Z) (l : list Z) :
  StronglySorted Z.lt l -> ~ In x l -> StronglySorted Z.lt (insert x l).
Proof.
  induction l as [ | a l IH]; intros Hs Hnin; cbn [insert].
  - repeat constructor.
  - apply StronglySorted_inv in Hs. destruct Hs as [Hs Hall].
    destruct (x <=? a) eqn:Hle.
    + apply Z.leb_le in Hle.
      assert (x < a) as Hlt by (cbn in Hnin; lia).
      constructor; [constructor; assumption | ].
      constructor; [assumption | ].
      apply Forall_impl with (2 := Hall). intros; lia.
    + apply Z.leb_gt in Hle. constructor.
      * apply IH; [assumption | cbn in Hnin; tauto].
      * apply Forall_forall. intros y Hy. apply In_insert in Hy.
        destruct Hy as [-> | Hy]; [assumption | ].
        rewrite Forall_forall in Hall. apply Hall. assumption.
Qed.

Lemma In_sorted (y : Z) (l : list Z) : In y (sorted l) <-> In y l.
Proof.
  induction l as [ | a l IH]; cbn [sorted fold_right]; [reflexivity | ].
  fold (sorted l). rewrite In_insert, IH. cbn. intuition.
Qed.

Lemma length_sorted (l : list Z) : List.length (sorted l) = List.length l.
Proof.
  induction l as [ | a l IH]; cbn [sorted fold_right]; [reflexivity | ].
  fold (sorted l). rewrite length_insert, IH. reflexivity.
Qed.

Lemma sorted_strict (l : list Z) : NoDup l -> StronglySorted Z.lt (sorted l).
Proof.
  induction 1 as [ | a l Hnin Hnd IH]; cbn [sorted fold_right]; [constructor | ].
  fold (sorted l). apply insert_sorted; [assumption | ].
  rewrite In_sorted. assumption.
Qed.

(** [sorted(set(l))]: strictly increasing, the same elements, no longer. *)
Lemma sorted_set_spec (l : list Z) :
  StronglySorted Z.lt (sorted (set l))
  /\ (forall y, In y (sorted (set l)) <-> In y l)
  /\ (List.length (sorted (set l)) <= List.length l)%nat.
Proof.
  split; [ | split].
  - apply sorted_strict, NoDup_nodup.
  - intros y. rewrite In_sorted. apply nodup_In.
  - rewrite length_sorted. apply NoDup_incl_length; [apply NoDup_nodup | ].
    intros y Hy. apply nodup_In in Hy. assumption.
Qed.

(** A strictly increasing list of integers of [[a, b)] has at most [b - a]
    elements. *)
Lemma sorted_length_bound (l : list Z) (a b : Z) :
  StronglySorted Z.lt l -> Forall (fun x => a <= x < b) l ->
  Z.of_nat (List.length l) <= Z.max 0 (b - a).
Proof.
  revert a. induction l as [ | x l IH]; intros a Hs Hall; cbn [List.length]; [lia | ].
  apply StronglySorted_inv in Hs. destruct Hs as [Hs Hgt].
  inversion Hall as [ | ? ? Hx Hall']; subst.
  assert (Z.of_nat (List.length l) <= Z.max 0 (b - (x + 1))) as Hlen.
  { apply IH; [assumption | ].
    rewrite Forall_forall in *. intros y Hy. specialize (Hgt y Hy). specialize (Hall' y Hy).
    lia. }
  lia.
Qed.

End ListFacts.

(** ** Rounding: what one binary64 operation can do to a value *)

Module Rounding.

Import Value.

(** The operations on concrete operands, as Python prints them:
    [5 / 3 = 0x1.aaaaaaaaaaaabp+0], [float(2**53 + 1) = 2.0**53],
    [float(2**54 + 6) = 2.0**54 + 8], [int(11 * (30 / 22)) = 14] (the exact
    quotient would give 15) and [int(-3.5) = -3], [math.floor(-3.5) = -4]. *)
Example int_truediv_5_3 :
  int_truediv 5 3 = inr (S754_finite false 7505999378950827 (-52)).
Proof. reflexivity. Qed.

Example float_of_int_ties_to_even :
  float_of_int (2 ^ 53 + 1) = inr (S754_finite false 4503599627370496 1)
  /\ float_of_int (2 ^ 54 + 6) = inr (S754_finite false 4503599627370498 2).
Proof. split; reflexivity. Qed.

Example pick_rounds_below :
  (step <- int_truediv 30 22 ;; Video.pick step 11) = inr 14 /\ (11 * 30) / 22 = 15.
Proof. split; reflexivity. Qed.

Example truncation_and_floor :
  (x <- int_truediv (-7) 2 ;; int_of_float x) = inr (-3)
  /\ (x <- int_truediv (-7) 2 ;; floor_of_float x) = inr (-4).
Proof. split; reflexivity. Qed.

Lemma digits2_pos_bounds (p : positive) :
  2 ^ (Zpos (digits2_pos p) - 1) <= Zpos p < 2 ^ Zpos (digits2_pos p).
Proof.
  induction p as [p IH | p IH | ]; simpl digits2_pos.
  - rewrite Pos2Z.inj_succ, (Pos2Z.inj_xI p).
    replace (Z.succ (Zpos (digits2_pos p)) - 1) with (Z.succ (Zpos (digits2_pos p) - 1)) by lia.
    rewrite !Z.pow_succ_r by lia.
    set (a := 2 ^ (Z.pos (digits2_pos p) - 1)) in *.
    set (b := 2 ^ (Z.pos (digits2_pos p))) in *. lia.
  - rewrite Pos2Z.inj_succ, (Pos2Z.inj_xO p).
    replace (Z.succ (Zpos (digits2_pos p)) - 1) with (Z.succ (Zpos (digits2_pos p) - 1)) by lia.
    rewrite !Z.pow_succ_r by lia.
    set (a := 2 ^ (Z.pos (digits2_pos p) - 1)) in *.
    set (b := 2 ^ (Z.pos (digits2_pos p))) in *. lia.
  - simpl. lia.
Qed.

Lemma Zdigits2_bounds (m : Z) :
  0 < m -> 2 ^ (Zdigits2 m - 1) <= m < 2 ^ Zdigits2 m.
Proof.
  destruct m as [ | p | p]; try lia. intros _. apply digits2_pos_bounds.
Qed.

Lemma Zdigits2_pos (m : Z) : 0 < m -> 0 < Zdigits2 m.
Proof. destruct m; simpl; lia. Qed.

Lemma Zdigits2_le (m d : Z) : 0 < m -> 0 <= d -> m < 2 ^ d -> Zdigits2 m <= d.
Proof.
  intros Hm Hd Hlt.
  destruct (Z_le_gt_dec (Zdigits2 m) d) as [ | Hgt]; [assumption | exfalso].
  pose proof (Zdigits2_bounds m Hm) as [Hlo _].
  assert (2 ^ d <= 2 ^ (Zdigits2 m - 1)) by (apply Z.pow_le_mono_r; lia).
  lia.
Qed.

Lemma Zdigits2_ge (m d : Z) : 0 < m -> 2 ^ (d - 1) <= m -> d <= Zdigits2 m.
Proof.
  intros Hm Hle.
  destruct (Z_le_gt_dec d (Zdigits2 m)) as [ | Hgt]; [assumption | exfalso].
  pose proof (Zdigits2_bounds m Hm) as [_ Hhi].
  pose proof (Zdigits2_pos m Hm).
  assert (2 ^ Zdigits2 m <= 2 ^ (d - 1)) by (apply Z.pow_le_mono_r; lia).
  lia.
Qed.

(** shifting right *)
Lemma iter_pos_iter {A} (f : A -> A) (p : positive) (x : A) :
  iter_pos f p x = Pos.iter f x p.
Proof.
  revert x. induction p as [p IH | p IH | ]; intros x; simpl.
  - rewrite !IH. rewrite <- !Pos.iter_swap. reflexivity. 
  - rewrite !IH. reflexivity.
  - reflexivity.
Qed.

Lemma shr_1_m (r : shr_record) : 0 <= shr_m r -> shr_m (shr_1 r) = shr_m r / 2.
Proof.
  destruct r as [m r s]. simpl. intros Hm.
  destruct m as [ | [p | p | ] | p]; cbn [shr_1 shr_m]; try lia.
  - reflexivity.
  - apply Z.div_unique with 1; lia.
  - apply Z.div_unique with 0; lia.
  - reflexivity.
Qed.

Lemma shr_iter_m (p : positive) (r : shr_record) :
  0 <= shr_m r -> shr_m (iter_pos shr_1 p r) = shr_m r / 2 ^ Zpos p.
Proof.
  intros Hm. rewrite iter_pos_iter.
  induction p as [ | p IH] using Pos.peano_ind.
  - simpl Pos.iter. rewrite shr_1_m by assumption. reflexivity.
  - rewrite Pos.iter_succ. rewrite shr_1_m.
    + rewrite IH. rewrite Pos2Z.inj_succ, Z.pow_succ_r by lia.
      rewrite Z.div_div by lia. f_equal. lia.
    + rewrite IH. apply Z.div_pos; lia.
Qed.

Lemma loc_of_shr_record_of_loc (m : Z) (l : location) :
  loc_of_shr_record (shr_record_of_loc m l) = l.
Proof. destruct l as [ | [ | | ]]; reflexivity. Qed.

Lemma shr_m_of_loc (m : Z) (l : location) : shr_m (shr_record_of_loc m l) = m.
Proof. destruct l as [ | [ | | ]]; reflexivity. Qed.

Lemma round_nearest_even_bounds (m : Z) (l : location) :
  m <= round_nearest_even m l <= m + 1.
Proof. destruct l as [ | [ | | ]]; simpl; try lia. destruct (Z.even m); lia. Qed.


Lemma Zdigits2_mono (a b : Z) : 0 < a -> a <= b -> Zdigits2 a <= Zdigits2 b.
Proof.
  intros Ha Hab. apply Zdigits2_ge; [lia | ].
  pose proof (Zdigits2_bounds a Ha). lia.
Qed.

Lemma fexp_normal (k : Z) : -1021 <= k -> fexp prec emax k = k - 53.
Proof. intros Hk. unfold fexp, emin, prec, emax. lia. Qed.

Lemma shr_fexp_spec (m e : Z) (l : location) :
  0 < m -> -1021 <= Zdigits2 m + e ->
  exists r, shr_fexp prec emax m e l = (r, e + Z.max 0 (Zdigits2 m - 53))
            /\ shr_m r = m / 2 ^ Z.max 0 (Zdigits2 m - 53)
            /\ (Zdigits2 m <= 53 -> loc_of_shr_record r = l).
Proof.
  intros Hm Hd. unfold shr_fexp. rewrite fexp_normal by assumption.
  replace (Zdigits2 m + e - 53 - e) with (Zdigits2 m - 53) by lia.
  destruct (Zdigits2 m - 53) as [ | p | p] eqn:Hn; cbn [shr].
  - eexists. split; [ rewrite Z.add_0_r; reflexivity | ].
    rewrite shr_m_of_loc, loc_of_shr_record_of_loc. cbn. rewrite Z.div_1_r. auto.
  - eexists. split; [ rewrite Z.max_r by lia; reflexivity | ].
    rewrite Z.max_r by lia.
    rewrite shr_iter_m by (rewrite shr_m_of_loc; lia).
    rewrite shr_m_of_loc. split; [reflexivity | lia].
  - eexists. split; [ rewrite Z.max_l by lia; rewrite Z.add_0_r; reflexivity | ].
    rewrite Z.max_l by lia.
    rewrite shr_m_of_loc, loc_of_shr_record_of_loc. cbn. rewrite Z.div_1_r. auto.
Qed.

(** The mantissa kept by the first shift. *)
Lemma shift_mantissa_bounds (m : Z) (n := Z.max 0 (Zdigits2 m - 53)) :
  0 < m ->
  0 < m / 2 ^ n < 2 ^ 53
  /\ (m / 2 ^ n) * 2 ^ n <= m
  /\ (53 <= Zdigits2 m -> 2 ^ 52 <= m / 2 ^ n)
  /\ Zdigits2 (m / 2 ^ n) = Zdigits2 m - n.
Proof.
  intros Hm. pose proof (Zdigits2_bounds m Hm) as [Hlo Hhi].
  pose proof (Zdigits2_pos m Hm) as Hd.
  assert (0 <= n) as Hn by (unfold n; lia).
  assert (0 < 2 ^ n) as Hp by (apply Z.pow_pos_nonneg; lia).
  assert (2 ^ (Zdigits2 m - 1 - n) <= m / 2 ^ n) as Hge.
  { apply Z.div_le_lower_bound; [assumption | ].
    rewrite <- Z.pow_add_r by (unfold n; lia).
    replace (n + (Zdigits2 m - 1 - n)) with (Zdigits2 m - 1) by lia. assumption. }
  assert (m / 2 ^ n < 2 ^ (Zdigits2 m - n)) as Hlt.
  { apply Z.div_lt_upper_bound; [assumption | ].
    rewrite <- Z.pow_add_r by (unfold n; lia).
    replace (n + (Zdigits2 m - n)) with (Zdigits2 m) by lia. assumption. }
  assert (0 < 2 ^ (Zdigits2 m - 1 - n)) by (apply Z.pow_pos_nonneg; unfold n; lia).
  assert (2 ^ (Zdigits2 m - n) <= 2 ^ 53) by (apply Z.pow_le_mono_r; unfold n; lia).
  repeat split.
  - lia.
  - lia.
  - rewrite Z.mul_comm. apply Z.mul_div_le. assumption.
  - intros H53. replace 52 with (Zdigits2 m - 1 - n) by (unfold n; lia). assumption.
  - apply Z.le_antisymm.
    + apply Zdigits2_le; [lia | unfold n; lia | assumption].
    + apply Zdigits2_ge; [lia | ].
      replace (Zdigits2 m - n - 1) with (Zdigits2 m - 1 - n) by lia. assumption.
Qed.

Lemma round_aux_spec (s : bool) (mx ex : Z) (lx : location) :
  0 < mx -> -1021 <= Zdigits2 mx + ex <= 1023 -> ex <= 971 ->
  lx = loc_Exact \/ 53 <= Zdigits2 mx ->
  exists m e,
    binary_round_aux prec emax s mx ex lx = S754_finite s m e
    /\ ex <= e <= 971
    /\ Zpos m * 2 ^ (e - ex) * 2 ^ 52 <= mx * (2 ^ 52 + 1)
    /\ Zdigits2 mx + ex <= Zdigits2 (Zpos m) + e <= Zdigits2 mx + ex + 1
    /\ (lx = loc_Exact -> Zdigits2 mx <= 53 -> Zpos m = mx /\ e = ex).
Proof.
  intros Hmx HD Hex Hloc.
  pose proof (Zdigits2_pos mx Hmx) as Hd.
  destruct (shr_fexp_spec mx ex lx Hmx) as (r1 & E1 & Hm1 & Hl1); [lia | ].
  pose proof (shift_mantissa_bounds mx Hmx) as (Hb1 & Hmul1 & Hnorm1 & Hdig1).
  set (n1 := Z.max 0 (Zdigits2 mx - 53)) in *.
  assert (0 <= n1) as Hn1 by (unfold n1; lia).
  assert (0 < 2 ^ n1) as Hp1 by (apply Z.pow_pos_nonneg; lia).
  set (m1 := mx / 2 ^ n1) in *.
  pose proof (round_nearest_even_bounds m1 (loc_of_shr_record r1)) as Hr.
  set (m2 := round_nearest_even m1 (loc_of_shr_record r1)) in *.
  assert (m2 = m1 \/ (m2 = m1 + 1 /\ 2 ^ 52 <= m1)) as Hcase.
  { destruct (Z.eq_dec m2 m1) as [ | Hne]; [left; assumption | right].
    split; [lia | ]. apply Hnorm1.
    destruct Hloc as [Hexact | ]; [ | assumption].
    destruct (Z_le_gt_dec (Zdigits2 mx) 53) as [Hle | ]; [ | lia].
    exfalso. apply Hne. unfold m2. rewrite (Hl1 Hle), Hexact. reflexivity. }
  assert (0 < m2) as Hm2pos by lia.
  assert (Zdigits2 m1 <= Zdigits2 m2) as Hmono by (apply Zdigits2_mono; lia).
  assert (Zdigits2 m2 <= 54) as Hd2.
  { apply Zdigits2_le; [lia | lia | ]. change (2 ^ 54) with (2 * 2 ^ 53). lia. }
  destruct (shr_fexp_spec m2 (ex + n1) loc_Exact Hm2pos) as (r2 & E2 & Hm2 & _); [lia | ].
  pose proof (shift_mantissa_bounds m2 Hm2pos) as (Hb2 & Hmul2 & _ & Hdig2).
  set (n2 := Z.max 0 (Zdigits2 m2 - 53)) in *.
  assert (0 <= n2 <= 1) as Hn2 by (unfold n2; lia).
  assert (n2 = 1 -> 53 <= Zdigits2 mx) as Hcarry.
  { intros Hn. assert (Zdigits2 m2 = 54) as H54 by (unfold n2 in Hn; lia).
    destruct Hcase as [Heq | [Heq Hnorm]].
    - rewrite Heq, Hdig1 in H54. unfold n1 in H54. lia.
    - destruct (Z_le_gt_dec 53 (Zdigits2 mx)) as [ | Hlt]; [assumption | exfalso].
      assert (Zdigits2 m1 <= 52) by (rewrite Hdig1; unfold n1; lia).
      assert (53 <= Zdigits2 m1) by (apply Zdigits2_ge; [lia | assumption]). lia. }
  unfold binary_round_aux. rewrite E1. fold m1 in Hm1. rewrite Hm1. fold m2. rewrite E2, Hm2.
  destruct (m2 / 2 ^ n2) as [ | m | m] eqn:Hm; try lia.
  assert (ex + n1 + n2 <= 971) as Hfin by (unfold n1 in *; lia).
  replace (ex + n1 + n2 <=? emax - prec) with true
    by (symmetry; apply Z.leb_le; unfold emax, prec; lia).
  exists m, (ex + n1 + n2). split; [reflexivity | ].
  assert (0 < 2 ^ n2) as Hp2 by (apply Z.pow_pos_nonneg; lia).
  split; [lia | ]. split; [ | split].
  - replace (ex + n1 + n2 - ex) with (n2 + n1) by lia.
    rewrite Z.pow_add_r by lia. rewrite Z.mul_assoc.
    assert (Zpos m * 2 ^ n2 * 2 ^ n1 <= m2 * 2 ^ n1) as Hle
      by (apply Z.mul_le_mono_nonneg_r; lia).
    destruct Hcase as [Heq | [Heq Hnorm]].
    + rewrite Heq in Hle.
      assert (Zpos m * 2 ^ n2 * 2 ^ n1 <= mx) by lia. nia.
    + rewrite Heq in Hle.
      assert (2 ^ 52 * 2 ^ n1 <= m1 * 2 ^ n1) by (apply Z.mul_le_mono_nonneg_r; lia).
      nia.
  - rewrite Hdig2.
    assert (Zdigits2 m2 <= Zdigits2 m1 + 1) as Hup.
    { pose proof (Zdigits2_bounds m1 (proj1 Hb1)) as [_ Hhi].
      apply Zdigits2_le; [lia | pose proof (Zdigits2_pos m1 (proj1 Hb1)); lia | ].
      rewrite Z.pow_add_r by (pose proof (Zdigits2_pos m1 (proj1 Hb1)); lia).
      change (2 ^ 1) with 2. lia. }
    rewrite Hdig1 in Hup, Hmono. fold n1 in Hup, Hmono. lia.
  - intros Hexact Hle.
    assert (n1 = 0) as Hz1 by (unfold n1; lia).
    assert (m2 = m1) as Heq by (unfold m2; rewrite (Hl1 Hle), Hexact; reflexivity).
    assert (m1 = mx) as Heq1 by (unfold m1; rewrite Hz1; apply Z.div_1_r).
    assert (n2 = 0) as Hz2.
    { unfold n2. rewrite Heq, Heq1. lia. }
    rewrite Hz2 in Hm. rewrite Z.div_1_r in Hm. lia.
Qed.

(** *** Values *)

Local Open Scope Q_scope.

Lemma two_pow_pos (e : Z) : 0 < 2 ^ e.
Proof. apply Qpower_0_lt. reflexivity. Qed.

Lemma F2Q_mono (m m' e : Z) : (m <= m')%Z -> F2Q m e <= F2Q m' e.
Proof.
  intros H. unfold F2Q. apply Qmult_le_compat_r.
  - rewrite <- Zle_Qle. assumption.
  - apply Qlt_le_weak, two_pow_pos.
Qed.

Lemma F2Q_nonneg (m e : Z) : (0 <= m)%Z -> 0 <= F2Q m e.
Proof.
  intros H. unfold F2Q. apply Qmult_le_0_compat.
  - change 0 with (inject_Z 0). rewrite <- Zle_Qle. assumption.
  - apply Qlt_le_weak, two_pow_pos.
Qed.

Lemma inject_Z_pow2 (k : Z) : (0 <= k)%Z -> inject_Z (2 ^ k) == 2 ^ k.
Proof. intros H. rewrite Zpower_Qpower by assumption. reflexivity. Qed.

Lemma F2Q_shift (m e k : Z) : (0 <= k)%Z -> F2Q (m * 2 ^ k) e == F2Q m (e + k).
Proof.
  intros H. unfold F2Q. rewrite inject_Z_mult, inject_Z_pow2 by assumption.
  rewrite (Qpower_plus 2 e k) by discriminate. ring.
Qed.

Lemma F2Q_mul (m1 e1 m2 e2 : Z) : F2Q (m1 * m2) (e1 + e2) == F2Q m1 e1 * F2Q m2 e2.
Proof.
  unfold F2Q. rewrite inject_Z_mult, (Qpower_plus 2 e1 e2) by discriminate. ring.
Qed.

Lemma F2Q_0 (m : Z) : F2Q m 0 == inject_Z m.
Proof. unfold F2Q. simpl. ring. Qed.

Lemma round_aux_value (s : bool) (mx ex : Z) (lx : location) :
  (0 < mx)%Z -> (-1021 <= Zdigits2 mx + ex <= 1023)%Z -> (ex <= 971)%Z ->
  lx = loc_Exact \/ (53 <= Zdigits2 mx)%Z ->
  exists m e,
    binary_round_aux prec emax s mx ex lx = S754_finite s m e
    /\ (e <= 971)%Z
    /\ F2Q (Zpos m) e <= F2Q mx ex * (1 + eps)
    /\ (Zdigits2 mx + ex <= Zdigits2 (Zpos m) + e <= Zdigits2 mx + ex + 1)%Z.
Proof.
  intros Hmx HD Hex Hloc.
  destruct (round_aux_spec s mx ex lx Hmx HD Hex Hloc) as (m & e & E & He & Hv & Hd & _).
  exists m, e. repeat split; try assumption; try lia.
  assert (F2Q (Zpos m * 2 ^ (e - ex)) ex * inject_Z (2 ^ 52) <= F2Q mx ex * inject_Z (2 ^ 52 + 1)) as H.
  { unfold F2Q.
    setoid_replace (inject_Z (Z.pos m * 2 ^ (e - ex)) * 2 ^ ex * inject_Z (2 ^ 52))
      with (inject_Z (Z.pos m * 2 ^ (e - ex) * 2 ^ 52) * 2 ^ ex)
      by (rewrite (inject_Z_mult _ (2 ^ 52)); ring).
    setoid_replace (inject_Z mx * 2 ^ ex * inject_Z (2 ^ 52 + 1))
      with (inject_Z (mx * (2 ^ 52 + 1)) * 2 ^ ex)
      by (rewrite (inject_Z_mult mx); ring).
    apply Qmult_le_compat_r; [ | apply Qlt_le_weak, two_pow_pos ].
    rewrite <- Zle_Qle. assumption. }
  rewrite F2Q_shift in H by lia. replace (ex + (e - ex))%Z with e in H by lia.
  pose proof (F2Q_nonneg mx ex ltac:(lia)) as Hnn.
  change (inject_Z (2 ^ 52)) with (4503599627370496 # 1) in H.
  change (inject_Z (2 ^ 52 + 1)) with (4503599627370497 # 1) in H.
  unfold eps. lra.
Qed.

Local Open Scope Z_scope.

Lemma iter_xO_pow2 (p k : positive) : Zpos (Pos.iter xO p k) = Zpos p * 2 ^ Zpos k.
Proof.
  induction k as [ | k IH] using Pos.peano_ind.
  - simpl Pos.iter. rewrite (Pos2Z.inj_xO p). change (2 ^ 1) with 2. lia.
  - rewrite Pos.iter_succ, Pos2Z.inj_xO, IH, Pos2Z.inj_succ, Z.pow_succ_r by lia. lia.
Qed.

Lemma Zdigits2_shift (m k : Z) : 0 < m -> 0 <= k -> Zdigits2 (m * 2 ^ k) = Zdigits2 m + k.
Proof.
  intros Hm Hk. pose proof (Zdigits2_bounds m Hm) as [Hlo Hhi].
  pose proof (Zdigits2_pos m Hm) as Hd.
  assert (0 < 2 ^ k) as Hp by (apply Z.pow_pos_nonneg; lia).
  apply Z.le_antisymm.
  - apply Zdigits2_le; [nia | lia | ]. rewrite Z.pow_add_r by lia. nia.
  - apply Zdigits2_ge; [nia | ].
    replace (Zdigits2 m + k - 1) with (Zdigits2 m - 1 + k) by lia.
    rewrite Z.pow_add_r by lia. nia.
Qed.

Lemma Zdigits2_mul (a b : Z) :
  0 < a -> 0 < b ->
  Zdigits2 a + Zdigits2 b - 1 <= Zdigits2 (a * b) <= Zdigits2 a + Zdigits2 b.
Proof.
  intros Ha Hb.
  pose proof (Zdigits2_bounds a Ha) as [Hloa Hhia].
  pose proof (Zdigits2_bounds b Hb) as [Hlob Hhib].
  pose proof (Zdigits2_pos a Ha). pose proof (Zdigits2_pos b Hb).
  assert (0 < 2 ^ (Zdigits2 a - 1)) by (apply Z.pow_pos_nonneg; lia).
  assert (0 < 2 ^ (Zdigits2 b - 1)) by (apply Z.pow_pos_nonneg; lia).
  split.
  - apply Zdigits2_ge; [nia | ].
    replace (Zdigits2 a + Zdigits2 b - 1 - 1) with ((Zdigits2 a - 1) + (Zdigits2 b - 1)) by lia.
    rewrite Z.pow_add_r by lia. nia.
  - apply Zdigits2_le; [nia | lia | ]. rewrite Z.pow_add_r by lia. nia.
Qed.

Lemma float_of_int_spec (i : Z) :
  i <> 0 -> Zdigits2 i <= 1023 ->
  exists m e,
    float_of_int i = inr (S754_finite (i <? 0) m e)
    /\ e <= 971
    /\ (F2Q (Zpos m) e <= inject_Z (Z.abs i) * (1 + eps))%Q
    /\ Zdigits2 i <= Zdigits2 (Zpos m) + e <= Zdigits2 i + 1.
Proof.
  intros Hi Hd.
  assert (forall s p,
             Zpos (digits2_pos p) <= 1023 ->
             exists m e,
               checked (lit "int too large to convert to float")
                 (binary_round prec emax s p 0) = inr (S754_finite s m e)
               /\ e <= 971
               /\ (F2Q (Zpos m) e <= inject_Z (Zpos p) * (1 + eps))%Q
               /\ Zpos (digits2_pos p) <= Zdigits2 (Zpos m) + e <= Zpos (digits2_pos p) + 1)
    as Hround.
  { intros s p Hdp.
    assert (forall mz ez,
               Zdigits2 (Zpos mz) + ez = Zpos (digits2_pos p) -> ez <= 0 ->
               (F2Q (Zpos mz) ez == inject_Z (Zpos p))%Q ->
               exists m e,
                 checked (lit "int too large to convert to float")
                   (binary_round_aux prec emax s (Zpos mz) ez loc_Exact)
                 = inr (S754_finite s m e)
                 /\ e <= 971
                 /\ (F2Q (Zpos m) e <= inject_Z (Zpos p) * (1 + eps))%Q
                 /\ Zpos (digits2_pos p) <= Zdigits2 (Zpos m) + e
                    <= Zpos (digits2_pos p) + 1)
      as Haux.
    { intros mz ez Hdg Hez Hval.
      destruct (round_aux_value s (Zpos mz) ez loc_Exact) as (m & e & E & He & Hv & Hdg');
        [lia | lia | lia | left; reflexivity | ].
      exists m, e. rewrite E. rewrite Hval in Hv. rewrite Hdg in Hdg'.
      repeat split; try assumption; lia. }
    unfold binary_round. rewrite Z.add_0_r, fexp_normal by lia. unfold shl_align.
    destruct (Zpos (digits2_pos p) - 53 - 0) as [ | k | k] eqn:Hk.
    - apply Haux; [cbn [Zdigits2]; lia | lia | apply F2Q_0].
    - apply Haux; [cbn [Zdigits2]; lia | lia | apply F2Q_0].
    - apply Haux.
      + rewrite iter_xO_pow2, Zdigits2_shift by lia. cbn [Zdigits2]. lia.
      + lia.
      + rewrite iter_xO_pow2, F2Q_shift by lia.
        replace (Zpos (digits2_pos p) - 53 + Zpos k) with 0 by lia. apply F2Q_0. }
  destruct i as [ | p | p]; [contradiction | | ]; cbn [Zdigits2 Z.abs] in *.
  - apply (Hround false p Hd).
  - apply (Hround true p Hd).
Qed.

Lemma int_of_float_nonneg (m : positive) (e : Z) :
  exists v, int_of_float (S754_finite false m e) = inr v
            /\ 0 <= v /\ (inject_Z v <= F2Q (Zpos m) e)%Q.
Proof.
  cbn [int_of_float]. eexists. split; [reflexivity | ].
  split; [apply Z.shiftl_nonneg; lia | ].
  destruct (Z_le_gt_dec 0 e) as [He | He].
  - rewrite Z.shiftl_mul_pow2 by assumption.
    rewrite <- F2Q_0, F2Q_shift by assumption. rewrite Z.add_0_l. apply Qle_refl.
  - rewrite Z.shiftl_div_pow2 by lia.
    assert (0 < 2 ^ (- e)) as Hp by (apply Z.pow_pos_nonneg; lia).
    assert (Zpos m / 2 ^ (- e) * 2 ^ (- e) <= Zpos m) as Hle
      by (rewrite Z.mul_comm; apply Z.mul_div_le; assumption).
    apply (F2Q_mono _ _ e) in Hle. rewrite F2Q_shift in Hle by lia.
    replace (e + - e) with 0 in Hle by lia. rewrite F2Q_0 in Hle. assumption.
Qed.

Lemma div_core_spec (a b : Z) :
  0 < b -> b < a ->
  exists q e l,
    SFdiv_core_binary prec emax a 0 b 0 = (q, e, l)
    /\ e <= 0 /\ 0 < q /\ 53 <= Zdigits2 q
    /\ q * b <= a * 2 ^ (- e)
    /\ 0 <= Zdigits2 q + e <= Zdigits2 a.
Proof.
  intros Hb Hab. assert (0 < a) as Ha by lia.
  pose proof (Zdigits2_bounds a Ha) as [Hloa Hhia].
  pose proof (Zdigits2_bounds b Hb) as [Hlob Hhib].
  pose proof (Zdigits2_pos b Hb) as Hdb.
  assert (Zdigits2 b <= Zdigits2 a) as Hmono by (apply Zdigits2_mono; lia).
  unfold SFdiv_core_binary. rewrite fexp_normal by lia.
  set (e := Z.min (Zdigits2 a + 0 - (Zdigits2 b + 0) - 53) (0 - 0)).
  assert (e <= 0 /\ e <= Zdigits2 a - Zdigits2 b - 53 /\ - 53 <= e) as (He0 & He1 & He2)
    by (unfold e; lia).
  set (m' := match 0 - 0 - e with
             | 0 => a
             | Zpos _ => Z.shiftl a (0 - 0 - e)
             | Zneg _ => 0
             end).
  assert (m' = a * 2 ^ (- e)) as Hm'.
  { unfold m'. replace (0 - 0 - e) with (- e) by lia.
    destruct (- e) as [ | p | p] eqn:Hs; try lia.
    rewrite Z.shiftl_mul_pow2 by lia. reflexivity. }
  assert (0 < 2 ^ (- e)) as Hp by (apply Z.pow_pos_nonneg; lia).
  pose proof (Z_div_mod m' b ltac:(lia)) as Hdiv.
  destruct (Z.div_eucl m' b) as [q r]. destruct Hdiv as [Hq Hr].
  exists q, e, (new_location b r). split; [reflexivity | ].
  assert (2 ^ (Zdigits2 b + 52) <= m') as Hbig.
  { rewrite Hm'.
    apply Z.le_trans with (2 ^ (Zdigits2 a - 1) * 2 ^ (- e)); [ | nia].
    rewrite <- Z.pow_add_r by lia. apply Z.pow_le_mono_r; lia. }
  assert (2 ^ 52 <= q) as Hq52.
  { rewrite Z.pow_add_r in Hbig by lia.
    assert (0 < 2 ^ 52) by (apply Z.pow_pos_nonneg; lia).
    assert (b * 2 ^ 52 < b * (q + 1)) by nia.
    apply Z.mul_lt_mono_pos_l in H0; lia. }
  assert (0 < q) as Hqpos.
  { assert (0 < 2 ^ 52) by (apply Z.pow_pos_nonneg; lia). lia. }
  assert (53 <= Zdigits2 q) as Hd53 by (apply Zdigits2_ge; [lia | assumption]).
  assert (q * b <= a * 2 ^ (- e)) as Hle by (rewrite <- Hm'; nia).
  assert (Zdigits2 q <= Zdigits2 a + - e) as Hdq.
  { apply Zdigits2_le; [lia | lia | ]. rewrite Z.pow_add_r by lia. nia. }
  repeat split; try assumption; lia.
Qed.

Lemma int_truediv_spec (a b : Z) :
  0 < b -> b < a -> Zdigits2 a <= 1023 ->
  exists m e,
    int_truediv a b = inr (S754_finite false m e)
    /\ e <= 971
    /\ (F2Q (Zpos m) e * inject_Z b <= inject_Z a * (1 + eps))%Q
    /\ 0 <= Zdigits2 (Zpos m) + e <= Zdigits2 a + 1.
Proof.
  intros Hb Hab Hd.
  destruct (div_core_spec a b Hb Hab) as (q & e' & l & E & He' & Hq & Hd53 & Hmul & Hdq).
  destruct (round_aux_value false q e' l Hq) as (m & e & Er & He & Hv & Hdg);
    [lia | lia | right; assumption | ].
  exists m, e. split.
  - unfold int_truediv. destruct a as [ | pa | pa]; try lia.
    destruct b as [ | pb | pb]; try lia.
    cbn [Z.abs]. rewrite E.
    replace (xorb (Zpos pa <? 0) (Zpos pb <? 0)) with false by reflexivity.
    rewrite Er. reflexivity.
  - repeat split; try lia.
    assert (F2Q q e' * inject_Z b <= inject_Z a)%Q as Hquot.
    { rewrite <- (F2Q_0 b), <- F2Q_mul, Z.add_0_r.
      apply (F2Q_mono _ _ e') in Hmul. rewrite F2Q_shift in Hmul by lia.
      replace (e' + - e') with 0 in Hmul by lia. rewrite F2Q_0 in Hmul. assumption. }
    assert (0 <= inject_Z b)%Q as Hbq
      by (change 0%Q with (inject_Z 0); rewrite <- Zle_Qle; lia).
    apply Qle_trans with (F2Q q e' * (1 + eps) * inject_Z b)%Q.
    + apply Qmult_le_compat_r; assumption.
    + setoid_replace (F2Q q e' * (1 + eps) * inject_Z b)%Q
        with (F2Q q e' * inject_Z b * (1 + eps))%Q by ring.
      apply Qmult_le_compat_r; [assumption | unfold eps; lra].
Qed.

Lemma mul_spec (m1 : positive) (e1 : Z) (m2 : positive) (e2 : Z) :
  -1020 <= (Zdigits2 (Zpos m1) + e1) + (Zdigits2 (Zpos m2) + e2) <= 1023 ->
  e1 + e2 <= 971 ->
  exists m e,
    SFmul prec emax (S754_finite false m1 e1) (S754_finite false m2 e2)
    = S754_finite false m e
    /\ (F2Q (Zpos m) e <= F2Q (Zpos m1) e1 * F2Q (Zpos m2) e2 * (1 + eps))%Q.
Proof.
  intros HD He.
  pose proof (Zdigits2_mul (Zpos m1) (Zpos m2) ltac:(lia) ltac:(lia)) as Hdm.
  destruct (round_aux_value false (Zpos (m1 * m2)) (e1 + e2) loc_Exact)
    as (m & e & E & _ & Hv & _);
    [lia | rewrite Pos2Z.inj_mul; lia | lia | left; reflexivity | ].
  exists m, e. split; [exact E | ].
  rewrite Pos2Z.inj_mul, F2Q_mul in Hv. assumption.
Qed.

Lemma sample_index_bound (T S i : Z) (step : float) :
  0 < S -> S < T -> S <= 2 ^ 50 -> T < 2 ^ 900 ->
  int_truediv T S = inr step -> 0 <= i < S ->
  exists v, Video.pick step i = inr v /\ 0 <= v < T.
Proof.
  intros HS HST HS50 HT900 Hstep Hi.
  assert (Zdigits2 T <= 900) as HdT by (apply Zdigits2_le; lia).
  destruct (int_truediv_spec T S HS HST) as (mq & eq & Eq & Heq & Hvq & Hdq); [lia | ].
  rewrite Eq in Hstep. injection Hstep as <-.
  destruct (Z.eq_dec i 0) as [-> | Hne].
  - exists 0. split; [reflexivity | lia].
  - assert (0 < i) as Hipos by lia.
    assert (Zdigits2 i <= 50) as Hdi by (apply Zdigits2_le; lia).
    destruct (float_of_int_spec i) as (mi & ei & Ei & Hei & Hvi & Hdgi); [lia | lia | ].
    replace (i <? 0) with false in Ei by (symmetry; apply Z.ltb_ge; lia).
    rewrite Z.abs_eq in Hvi by lia.
    pose proof (Zdigits2_pos (Zpos mi) ltac:(lia)) as Hpi.
    pose proof (Zdigits2_pos (Zpos mq) ltac:(lia)) as Hpq.
    pose proof (Zdigits2_pos i Hipos) as Hpi'.
    destruct (mul_spec mi ei mq eq) as (mp & ep & Ep & Hvp); [lia | lia | ].
    destruct (int_of_float_nonneg mp ep) as (v & Ev & Hv0 & Hvv).
    exists v. split.
    + unfold Video.pick, int_mul_float. rewrite Ei. cbn [bind ret]. rewrite Ep. exact Ev.
    + split; [assumption | ].
      destruct (Z_lt_le_dec v T) as [ | Hge]; [assumption | exfalso].
      pose proof (F2Q_nonneg (Zpos mi) ei ltac:(lia)) as Hnni.
      pose proof (F2Q_nonneg (Zpos mq) eq ltac:(lia)) as Hnnq.
      set (Fi := F2Q (Zpos mi) ei) in *. set (Fq := F2Q (Zpos mq) eq) in *.
      set (Fp := F2Q (Zpos mp) ep) in *.
      assert (inject_Z T <= inject_Z v)%Q as HTv by (rewrite <- Zle_Qle; assumption).
      assert (inject_Z i <= inject_Z S - 1)%Q as HiS.
      { setoid_replace (inject_Z S - 1)%Q with (inject_Z (S - 1))
          by (unfold Z.sub; rewrite inject_Z_plus, inject_Z_opp; reflexivity).
        rewrite <- Zle_Qle. lia. }
      assert (1 <= inject_Z S <= 1125899906842624)%Q as HSq.
      { change 1%Q with (inject_Z 1). change 1125899906842624%Q with (inject_Z (2 ^ 50)).
        rewrite <- !Zle_Qle. lia. }
      assert (0 < inject_Z T)%Q as HTq
        by (change 0%Q with (inject_Z 0); rewrite <- Zlt_Qlt; lia).
      assert (0 <= inject_Z i)%Q as Hiq
        by (change 0%Q with (inject_Z 0); rewrite <- Zle_Qle; lia).
      (* T * S <= Fp * S <= Fi * (Fq * S) * (1+eps) <= i (1+eps) * T (1+eps) * (1+eps) *)
      assert (Fi * (Fq * inject_Z S) <= (inject_Z i * (1 + eps)) * (inject_Z T * (1 + eps)))%Q
        as Hprod.
      { apply Qle_trans with (Fi * (inject_Z T * (1 + eps)))%Q.
        - rewrite !(Qmult_comm Fi). apply Qmult_le_compat_r; assumption.
        - apply Qmult_le_compat_r; [assumption | ]. unfold eps. 
          apply Qmult_le_0_compat; lra. }
      assert (inject_Z T * inject_Z S <= Fi * (Fq * inject_Z S) * (1 + eps))%Q as Hchain.
      { apply Qle_trans with (Fp * inject_Z S)%Q.
        - apply Qmult_le_compat_r; lra.
        - setoid_replace (Fi * (Fq * inject_Z S) * (1 + eps))%Q
            with (Fi * Fq * (1 + eps) * inject_Z S)%Q by ring.
          apply Qmult_le_compat_r; lra. }
      assert (inject_Z T * inject_Z S
              <= inject_Z T * ((inject_Z S - 1) * ((1 + eps) * (1 + eps) * (1 + eps))))%Q
        as Hfinal.
      { apply Qle_trans with (Fi * (Fq * inject_Z S) * (1 + eps))%Q; [assumption | ].
        apply Qle_trans
          with ((inject_Z i * (1 + eps)) * (inject_Z T * (1 + eps)) * (1 + eps))%Q.
        - apply Qmult_le_compat_r; [assumption | unfold eps; lra].
        - setoid_replace (inject_Z i * (1 + eps) * (inject_Z T * (1 + eps)) * (1 + eps))%Q
            with (inject_Z T * (inject_Z i * ((1 + eps) * (1 + eps) * (1 + eps))))%Q by ring.
          rewrite !(Qmult_comm (inject_Z T)). apply Qmult_le_compat_r; [ | lra].
          apply Qmult_le_compat_r; [assumption | unfold eps; lra]. }
      rewrite !(Qmult_comm (inject_Z T)) in Hfinal.
      apply Qmult_lt_0_le_reg_r in Hfinal; [ | assumption].
      unfold eps in Hfinal. lra.
Qed.

(** An int below [2^1023] in magnitude converts to a float. *)
Lemma float_of_int_total (i : Z) :
  Z.abs i < 2 ^ 1023 ->
  exists f, float_of_int i = inr f
            /\ binary_normalize prec emax i 0 false = f
            /\ match f with S754_infinity _ => False | _ => True end.
Proof.
  intros Hi. destruct (Z.eq_dec i 0) as [-> | Hne].
  - exists (S754_zero false). repeat split.
  - assert (Zdigits2 i <= 1023) as Hd.
    { destruct i as [ | p | p]; [contradiction | | ].
      - apply Zdigits2_le; lia.
      - change (Zdigits2 (Zneg p)) with (Zdigits2 (Zpos p)). apply Zdigits2_le; lia. }
    destruct (float_of_int_spec i Hne Hd) as (m & e & E & _).
    unfold float_of_int in *.
    destruct (binary_normalize prec emax i 0 false) as [s | s | | s m' e'];
      cbn [checked] in *; try discriminate.
    exists (S754_finite s m' e'). repeat split.
Qed.

End Rounding.

(** ** The frame index selector *)

Module Selector.

Import Video ListFacts Rounding.

Lemma frame_indices_unfold (total_frames samples : Z) :
  0 < samples -> samples < total_frames ->
  _frame_indices total_frames samples
  = (step <- int_truediv total_frames samples ;;
     s <- mapM (pick step) (range samples) ;;
     ret (sorted (set s))).
Proof.
  intros HS HST. unfold _frame_indices.
  replace (total_frames <=? 0) with false by (symmetry; apply Z.leb_gt; lia).
  replace (samples <=? 0) with false by (symmetry; apply Z.leb_gt; lia).
  replace (samples >=? total_frames) with false
    by (symmetry; rewrite Z.geb_leb; apply Z.leb_gt; lia).
  reflexivity.
Qed.

(** Every element of the comprehension is in the output. *)
Lemma frame_indices_contains (total_frames samples : Z) (step : float) (v : Z) :
  0 < samples -> samples < total_frames ->
  int_truediv total_frames samples = inr step ->
  (forall i, 0 <= i < samples -> exists y, pick step i = inr y) ->
  pick step (samples - 1) = inr v ->
  exists l, _frame_indices total_frames samples = inr l /\ In v l.
Proof.
  intros HS HST Hstep Hall Hlast.
  rewrite frame_indices_unfold by assumption. rewrite Hstep. cbn [bind].
  destruct (mapM_inr (pick step) (fun _ => True) (range samples)) as (ys & Eys & _ & _).
  { intros i Hi. apply In_range in Hi. destruct (Hall i Hi) as (y & Ey). exists y. tauto. }
  rewrite Eys. cbn [bind ret]. eexists. split; [reflexivity | ].
  apply sorted_set_spec.
  destruct (mapM_In (pick step) (range samples) ys (samples - 1) Eys) as (y & Ey & Hy).
  { apply In_range. lia. }
  rewrite Hlast in Ey. injection Ey as <-. assumption.
Qed.

(** Multiplying an int below [2^1000] by the float [1.0] and truncating
    gives a result. *)
Lemma pick_one_total (i : Z) :
  0 <= i < 2 ^ 1000 ->
  exists y, pick (S754_finite false 4503599627370496 (-52)) i = inr y.
Proof.
  intros Hi. unfold pick, int_mul_float.
  destruct (Z.eq_dec i 0) as [-> | Hne]; [exists 0; reflexivity | ].
  assert (Zdigits2 i <= 1000) as Hd by (apply Zdigits2_le; lia).
  destruct (float_of_int_spec i) as (mi & ei & Ei & Hei & _ & Hdgi); [lia | lia | ].
  replace (i <? 0) with false in Ei by (symmetry; apply Z.ltb_ge; lia).
  pose proof (Zdigits2_pos i ltac:(lia)) as Hpos.
  pose proof (Zdigits2_pos (Zpos mi) ltac:(lia)) as Hposm.
  destruct (mul_spec mi ei 4503599627370496 (-52)) as (mp & ep & Ep & _).
  { change (Zdigits2 (Zpos 4503599627370496)) with 53. lia. }
  { lia. }
  destruct (int_of_float_nonneg mp ep) as (v & Ev & _).
  exists v. rewrite Ei. cbn [bind ret]. rewrite Ep. exact Ev.
Qed.

(** Within the precision of a float the comprehension gives a value for
    every [i], each within range. *)
Lemma downsampled (total_frames samples : Z) :
  0 < samples -> samples < total_frames ->
  samples <= 2 ^ 50 -> total_frames < 2 ^ 900 ->
  exists ys,
    _frame_indices total_frames samples = inr (sorted (set ys))
    /\ Forall (fun v => 0 <= v < total_frames) ys
    /\ List.length ys = Z.to_nat samples.
Proof.
  intros HS HST HS50 HT900.
  rewrite frame_indices_unfold by lia.
  destruct (int_truediv_spec total_frames samples) as (mq & eq & Eq & _);
    [lia | lia | apply Zdigits2_le; lia | ].
  rewrite Eq. cbn [bind].
  destruct (mapM_inr (pick (S754_finite false mq eq))
              (fun v => 0 <= v < total_frames) (range samples))
    as (ys & Eys & Hys & Hlen).
  { intros i Hi. apply In_range in Hi.
    apply (sample_index_bound total_frames samples i); try lia. assumption. }
  rewrite Eys. cbn [bind ret]. exists ys.
  rewrite length_range in Hlen. repeat split; assumption.
Qed.


(** Thirty frames, twenty-two samples: truncating the rounded product gives
    14 at [i = 11], where the exact product is 15. *)
Example frame_indices_30_22 :
  _frame_indices 30 22
  = inr [0; 1; 2; 4; 5; 6; 8; 9; 10; 12; 13; 14; 16; 17; 19; 20; 21; 23; 24; 25; 27; 28].
Proof. vm_compute. reflexivity. Qed.

(** Ten frames and seven samples; five frames and four samples. *)
Example frame_indices_small :
  _frame_indices 10 7 = inr [0; 1; 2; 4; 5; 7; 8]
  /\ _frame_indices 5 4 = inr [0; 1; 2; 3].
Proof. split; vm_compute; reflexivity. Qed.

End Selector.

Import Video.

(** C1, as the code has it: for every [total_frames] in [[0, 2^900)] and every
    [samples] in [[0, 2^50]], the selector returns a strictly increasing list
    whose every element lies in [[0, total_frames)], of length at most
    [samples] and at most [total_frames]. *)
Theorem frame_indices_increasing_in_range (total_frames samples : Z) :
  0 <= total_frames < 2 ^ 900 -> 0 <= samples <= 2 ^ 50 ->
  exists l,
    _frame_indices total_frames samples = inr l
    /\ StronglySorted Z.lt l
    /\ Forall (fun x => 0 <= x < total_frames) l
    /\ Z.of_nat (List.length l) <= samples
    /\ Z.of_nat (List.length l) <= total_frames.
Proof.
  intros HT HS.
  destruct (Z_le_gt_dec total_frames 0) as [HT0 | HT0].
  { exists []. unfold _frame_indices.
    replace (total_frames <=? 0) with true by (symmetry; apply Z.leb_le; lia).
    repeat split; try constructor; cbn; lia. }
  destruct (Z_le_gt_dec samples 0) as [HS0 | HS0].
  { exists []. unfold _frame_indices.
    replace (samples <=? 0) with true by (symmetry; apply Z.leb_le; lia).
    rewrite orb_true_r. repeat split; try constructor; cbn; lia. }
  destruct (Z_le_gt_dec total_frames samples) as [Hle | Hgt].
  { exists (range total_frames). unfold _frame_indices.
    replace (total_frames <=? 0) with false by (symmetry; apply Z.leb_gt; lia).
    replace (samples <=? 0) with false by (symmetry; apply Z.leb_gt; lia).
    replace (samples >=? total_frames) with true
      by (symmetry; rewrite Z.geb_leb; apply Z.leb_le; lia).
    split; [reflexivity | ]. split; [apply ListFacts.range_sorted | ].
    split; [apply Forall_forall; intros x Hx; apply ListFacts.In_range in Hx; lia | ].
    rewrite ListFacts.length_range. lia. }
  destruct (Selector.downsampled total_frames samples) as (ys & E & Hys & Hlen); try lia.
  destruct (ListFacts.sorted_set_spec ys) as (Hsorted & Hin & Hshort).
  exists (sorted (set ys)). split; [assumption | ]. split; [assumption | ].
  assert (Forall (fun x => 0 <= x < total_frames) (sorted (set ys))) as Hrange.
  { rewrite Forall_forall in *. intros x Hx. apply Hys, Hin, Hx. }
  split; [assumption | ]. split.
  - lia.
  - pose proof (ListFacts.sorted_length_bound _ 0 total_frames Hsorted Hrange). lia.
Qed.

(** The selector on a 300-frame video with 20 samples requested. *)
Lemma frame_indices_increasing_in_range_witness :
  exists l,
    _frame_indices 300 20 = inr l
    /\ StronglySorted Z.lt l
    /\ Forall (fun x => 0 <= x < 300) l
    /\ Z.of_nat (List.length l) <= 20
    /\ Z.of_nat (List.length l) <= 300.
Proof.
  apply (frame_indices_increasing_in_range 300 20).
  - split; [lia | reflexivity].
  - split; [lia | vm_compute; discriminate].
Defined.

(** C1 as stated fails past the precision of a float: with
    [total_frames = 2^54 + 8] and [samples = 2^54 + 7] the step is [1.0], the
    last [i] is [2^54 + 6], which rounds to [2^54 + 8] on conversion, so the
    output contains [total_frames] itself. *)
Lemma frame_indices_out_of_range :
  exists l,
    _frame_indices (2 ^ 54 + 8) (2 ^ 54 + 7) = inr l /\ In (2 ^ 54 + 8) l.
Proof.
  apply (Selector.frame_indices_contains (2 ^ 54 + 8) (2 ^ 54 + 7)
           (S754_finite false 4503599627370496 (-52))).
  - reflexivity.
  - reflexivity.
  - vm_compute. reflexivity.
  - intros i Hi. apply Selector.pick_one_total.
    split; [lia | ]. apply Z.lt_trans with (2 ^ 54 + 7); [lia | reflexivity].
  - vm_compute. reflexivity.
Qed.

(** C6: the selector returns the empty list when [total_frames <= 0] or
    [samples <= 0]; it returns every index [0 .. total_frames - 1], in order,
    when [samples >= total_frames]; and [select(100, 5) = [0, 20, 40, 60, 80]]. *)
Theorem frame_indices_cases :
  (forall total_frames samples,
      total_frames <= 0 \/ samples <= 0 ->
      _frame_indices total_frames samples = inr [])
  /\ (forall total_frames samples,
         samples >= total_frames ->
         _frame_indices total_frames samples
         = inr (map Z.of_nat (seq 0 (Z.to_nat total_frames))))
  /\ _frame_indices 100 5 = inr [0; 20; 40; 60; 80].
Proof.
  split; [ | split].
  - intros T S H. unfold _frame_indices.
    replace ((T <=? 0) || (S <=? 0)) with true; [reflexivity | ].
    symmetry. apply orb_true_iff. rewrite !Z.leb_le. assumption.
  - intros T S H. unfold _frame_indices.
    destruct ((T <=? 0) || (S <=? 0)) eqn:E.
    + apply orb_true_iff in E. rewrite !Z.leb_le in E.
      replace (Z.to_nat T) with 0%nat by lia. reflexivity.
    + replace (S >=? T) with true by (symmetry; rewrite Z.geb_leb; apply Z.leb_le; lia).
      reflexivity.
  - vm_compute. reflexivity.
Qed.

(** Ten frames and twenty samples requested: full coverage. *)
Lemma frame_indices_cases_witness :
  _frame_indices 10 20 = inr [0; 1; 2; 3; 4; 5; 6; 7; 8; 9].
Proof.
  apply (proj1 (proj2 frame_indices_cases) 10 20). lia.
Defined.

(** ** The video metadata reader *)

Module Metadata.

Lemma float_gt0_not_zero (x : float) : float_gt0 x = true -> is_zero x = false.
Proof. destruct x; cbn; congruence. Qed.

Lemma float_or_zero (x : float) : is_zero x = true -> float_or (Some x) fzero = fzero.
Proof. unfold float_or, float_bool. intros ->. reflexivity. Qed.

Lemma int_of_float_not_zero_division (x : float) (msg : str) :
  int_of_float x <> inl (ZeroDivisionError msg).
Proof. destruct x; cbn; discriminate. Qed.

Lemma float_of_int_not_zero_division (i : Z) (msg : str) :
  float_of_int i <> inl (ZeroDivisionError msg).
Proof.
  unfold float_of_int, checked.
  destruct (binary_normalize prec emax i 0 false); discriminate.
Qed.

End Metadata.

(** C7: the reader never raises a division by zero; on a readable video whose
    frame count is [total_frames], the duration is absent unless [fps > 0]
    (so also when fps is unknown, that is [0]), and when [fps > 0] it is the
    float quotient [total_frames / fps], the divisor being non-zero; that
    quotient exists whenever [total_frames] is below [2^1023]. *)
Theorem metadata_duration {Path Capture : Type}
    (VideoCapture : Path -> Capture) (isOpened : Capture -> bool)
    (cap_get : Capture -> CapProp -> float) (video_path : Path) :
  let cap := VideoCapture video_path in
  let fps := float_or (Some (cap_get cap CAP_PROP_FPS)) fzero in
  let read := get_video_metadata VideoCapture isOpened cap_get video_path in
  (forall msg, read <> inl (ZeroDivisionError msg))
  /\ (forall total_frames,
         isOpened cap = true ->
         int_of_float (cap_get cap CAP_PROP_FRAME_COUNT) = inr total_frames ->
         (float_gt0 fps = false ->
          read = inr {| frame_count := total_frames; fps := fps; duration_sec := None |})
         /\ (is_zero (cap_get cap CAP_PROP_FPS) = true -> float_gt0 fps = false)
         /\ (float_gt0 fps = true ->
             is_zero fps = false
             /\ read = (f <- float_of_int total_frames ;;
                        ret {| frame_count := total_frames; fps := fps;
                               duration_sec := Some (SFdiv prec emax f fps) |})
             /\ (Z.abs total_frames < 2 ^ 1023 ->
                 exists f, float_of_int total_frames = inr f
                           /\ read = inr {| frame_count := total_frames; fps := fps;
                                            duration_sec := Some (SFdiv prec emax f fps) |}))).
Proof.
  intros cap fps read.
  assert (forall total_frames,
             isOpened cap = true ->
             int_of_float (cap_get cap CAP_PROP_FRAME_COUNT) = inr total_frames ->
             float_gt0 fps = true ->
             read = (f <- float_of_int total_frames ;;
                     ret {| frame_count := total_frames; fps := fps;
                            duration_sec := Some (SFdiv prec emax f fps) |})) as Hpos.
  { intros T Hopen HT Hgt. unfold read, get_video_metadata. fold cap. rewrite Hopen.
    cbn [negb]. rewrite HT. cbn [bind]. fold fps. rewrite Hgt.
    unfold int_div_float, float_truediv.
    rewrite (Metadata.float_gt0_not_zero fps Hgt).
    destruct (float_of_int T); reflexivity. }
  split.
  - intros msg. unfold read, get_video_metadata. fold cap.
    destruct (isOpened cap) eqn:Hopen; cbn [negb]; [ | discriminate].
    destruct (int_of_float (cap_get cap CAP_PROP_FRAME_COUNT)) as [e | T] eqn:HT.
    + cbn [bind]. intros Heq. injection Heq as ->.
      exact (Metadata.int_of_float_not_zero_division _ _ HT).
    + cbn [bind]. fold fps. destruct (float_gt0 fps) eqn:Hgt; [ | discriminate].
      unfold int_div_float, float_truediv.
      rewrite (Metadata.float_gt0_not_zero fps Hgt).
      destruct (float_of_int T) as [e | f] eqn:Ef; cbn [bind ret]; [ | discriminate].
      intros Heq. injection Heq as ->.
      exact (Metadata.float_of_int_not_zero_division _ _ Ef).
  - intros T Hopen HT. split; [ | split].
    + intros Hgt. unfold read, get_video_metadata. fold cap. rewrite Hopen.
      cbn [negb]. rewrite HT. cbn [bind]. fold fps. rewrite Hgt. reflexivity.
    + intros Hz. unfold fps. rewrite (Metadata.float_or_zero _ Hz). reflexivity.
    + intros Hgt. split; [apply Metadata.float_gt0_not_zero; assumption | ].
      split; [apply Hpos; assumption | ].
      intros Hsmall. destruct (Rounding.float_of_int_total T Hsmall) as (f & Ef & _).
      exists f. split; [assumption | ]. rewrite (Hpos T Hopen HT Hgt), Ef. reflexivity.
Qed.

(** Six frames at 30 fps last a fifth of a second. *)
Lemma metadata_duration_witness :
  exists f,
    float_of_int 6 = inr f
    /\ get_video_metadata Demo.VideoCapture Demo.isOpened Demo.cap_get Demo.clip
       = inr {| frame_count := 6; fps := Demo.of_Z 30;
                duration_sec := Some (SFdiv prec emax f (Demo.of_Z 30)) |}.
Proof.
  apply (proj2 (metadata_duration Demo.VideoCapture Demo.isOpened Demo.cap_get Demo.clip) 6);
    reflexivity.
Defined.

(** ** The orchestrator *)

Module Orchestrator.

Import Config Schemas OpenAI Service.

Section Steps.

Context {Path Capture Frame Buffer : Type}.
Variable VideoCapture : Path -> Capture.
Variable isOpened : Capture -> bool.
Variable cap_get : Capture -> CapProp -> float.
Variable cap_set : Capture -> CapProp -> Z -> Capture.
Variable cap_read : Capture -> option Frame * Capture.
Variable imencode : str -> Frame -> bool * Buffer.
Variable b64encode : Buffer -> str.
Variable create : str -> list Message -> Z -> result ChatCompletion.

Local Abbreviation analyze :=
  (Service.analyze VideoCapture isOpened cap_get cap_set cap_read imencode
     b64encode create).
Local Abbreviation sample :=
  (sample_video_frames_async VideoCapture isOpened cap_get cap_set cap_read
     imencode b64encode).

(** [analyze] once its first three steps have given their values. *)
Lemma analyze_steps (settings : Settings) (video_path : Path)
    (instruction : option str) (frame_samples : option Z)
    (seconds_per_frame : option float)
    (metadata : VideoMetadata) (target : Z) (interval : float)
    (frames : list FrameSample) :
  get_video_metadata VideoCapture isOpened cap_get video_path = inr metadata ->
  _choose_sample_count settings metadata frame_samples seconds_per_frame
  = inr (target, interval) ->
  sample video_path target None = inr frames ->
  analyze settings video_path instruction frame_samples seconds_per_frame
  = match frames with
    | [] => inl no_frames
    | _ :: _ => respond create settings metadata target interval frames instruction
    end.
Proof.
  intros Hmd Hplan Hframes. unfold Service.analyze.
  rewrite Hmd. cbn [bind]. rewrite Hplan. cbn [bind].
  rewrite Hframes. cbn [bind]. destruct frames; reflexivity.
Qed.

(** A response comes out of [respond] only. *)
Lemma analyze_inr (settings : Settings) (video_path : Path)
    (instruction : option str) (frame_samples : option Z)
    (seconds_per_frame : option float) (r : VideoAnalysisResponse) :
  analyze settings video_path instruction frame_samples seconds_per_frame = inr r ->
  exists metadata target interval frames,
    get_video_metadata VideoCapture isOpened cap_get video_path = inr metadata
    /\ _choose_sample_count settings metadata frame_samples seconds_per_frame
       = inr (target, interval)
    /\ sample video_path target None = inr frames
    /\ frames <> []
    /\ respond create settings metadata target interval frames instruction = inr r.
Proof.
  intros H. unfold Service.analyze in H.
  destruct (get_video_metadata VideoCapture isOpened cap_get video_path)
    as [e | metadata] eqn:Hmd; cbn [bind] in H; [discriminate | ].
  destruct (_choose_sample_count settings metadata frame_samples seconds_per_frame)
    as [e | [target interval]] eqn:Hplan; cbn [bind] in H; [discriminate | ].
  destruct (sample video_path target None) as [e | frames] eqn:Hframes;
    cbn [bind] in H; [discriminate | ].
  destruct frames as [ | f frames]; [discriminate | ].
  exists metadata, target, interval, (f :: frames).
  repeat split; try assumption. discriminate.
Qed.

(** The response that [respond] assembles from a completion. *)
Lemma respond_inr (settings : Settings) (metadata : VideoMetadata)
    (target : Z) (interval : float) (frames : list FrameSample)
    (instruction : option str) (completion : ChatCompletion) :
  create (openai_model settings)
    (build_messages (resolve_instruction instruction) frames) (max_tokens settings)
  = inr completion ->
  respond create settings metadata target interval frames instruction
  = inr {| summary := str_or_empty (first_content completion);
           frames_used := Z.of_nat (List.length frames);
           model := openai_model settings;
           frame_timestamps := Some (known_timestamps frames);
           prompt := Some (resolve_instruction instruction);
           total_frames := int_or_none (frame_count metadata);
           video_duration_sec := duration_sec metadata;
           sampling_interval_sec := Some interval;
           requested_frame_samples := Some target |}.
Proof. intros H. unfold respond. rewrite H. reflexivity. Qed.

Lemma respond_inv (settings : Settings) (metadata : VideoMetadata)
    (target : Z) (interval : float) (frames : list FrameSample)
    (instruction : option str) (r : VideoAnalysisResponse) :
  respond create settings metadata target interval frames instruction = inr r ->
  exists completion,
    create (openai_model settings)
      (build_messages (resolve_instruction instruction) frames) (max_tokens settings)
    = inr completion.
Proof.
  unfold respond. intros H.
  destruct (create (openai_model settings)
              (build_messages (resolve_instruction instruction) frames)
              (max_tokens settings)) as [e | completion]; [discriminate | ].
  exists completion. reflexivity.
Qed.

End Steps.

(** [analyze] gives a response only for a video whose frame count is
    positive: with none to select from, no frame is extracted. *)
Lemma response_needs_frames {Path Capture Frame Buffer : Type}
    (VideoCapture : Path -> Capture) (isOpened : Capture -> bool)
    (cap_get : Capture -> CapProp -> float)
    (cap_set : Capture -> CapProp -> Z -> Capture)
    (cap_read : Capture -> option Frame * Capture)
    (imencode : str -> Frame -> bool * Buffer) (b64encode : Buffer -> str)
    (create : str -> list Message -> Z -> result ChatCompletion)
    (settings : Settings) (video_path : Path) (instruction : option str)
    (frame_samples : option Z) (seconds_per_frame : option float)
    (metadata : VideoMetadata) (r : VideoAnalysisResponse) :
  get_video_metadata VideoCapture isOpened cap_get video_path = inr metadata ->
  Service.analyze VideoCapture isOpened cap_get cap_set cap_read imencode b64encode
    create settings video_path instruction frame_samples seconds_per_frame = inr r ->
  0 < frame_count metadata.
Proof.
  intros Hmd H.
  destruct (analyze_inr _ _ _ _ _ _ _ _ _ _ _ _ _ _ H)
    as (md & target & interval & frames & Hmd' & _ & Hframes & Hne & _).
  rewrite Hmd in Hmd'. injection Hmd' as <-.
  unfold get_video_metadata in Hmd.
  unfold sample_video_frames_async, sample_video_frames in Hframes.
  destruct (isOpened (VideoCapture video_path)); cbn [negb] in *; [ | discriminate].
  destruct (int_of_float (cap_get (VideoCapture video_path) CAP_PROP_FRAME_COUNT))
    as [e | T]; cbn [bind] in *; [discriminate | ].
  assert (frame_count metadata = T) as HT.
  { destruct (float_gt0 (float_or (Some (cap_get (VideoCapture video_path) CAP_PROP_FPS))
                           fzero)).
    - destruct (int_div_float T _); cbn [bind ret] in Hmd; [discriminate | ].
      injection Hmd as <-. reflexivity.
    - cbn [bind ret] in Hmd. injection Hmd as <-. reflexivity. }
  rewrite HT. destruct (Z_lt_le_dec 0 T) as [ | Hle]; [assumption | exfalso].
  unfold indices_or, _frame_indices in Hframes.
  replace (T <=? 0) with true in Hframes by (symmetry; apply Z.leb_le; assumption).
  cbn in Hframes. injection Hframes as <-. apply Hne. reflexivity.
Qed.

(** The timestamps kept are those of the frames that have one, in order. *)
Lemma known_timestamps_spec (frames : list FrameSample) :
  map Some (known_timestamps frames)
  = filter (fun t => match t with Some _ => true | None => false end)
      (map timestamp_sec frames).
Proof.
  induction frames as [ | f frames IH]; cbn [known_timestamps map filter]; [reflexivity | ].
  destruct (timestamp_sec f); cbn [map]; rewrite IH; reflexivity.
Qed.

End Orchestrator.

Import Config Schemas OpenAI Service.

(** C8: once frames are extracted and the inference call has returned, the
    result carries as summary the text of the first choice, or the empty
    string when there is no choice or the choice has no content (no error is
    raised for it); as [frames_used] the number of frames extracted; the
    configured model identifier; and as [frame_timestamps] the timestamps of
    the extracted frames that have one, in order. *)
Theorem result_assembly {Path Capture Frame Buffer : Type}
    (VideoCapture : Path -> Capture) (isOpened : Capture -> bool)
    (cap_get : Capture -> CapProp -> float)
    (cap_set : Capture -> CapProp -> Z -> Capture)
    (cap_read : Capture -> option Frame * Capture)
    (imencode : str -> Frame -> bool * Buffer) (b64encode : Buffer -> str)
    (create : str -> list Message -> Z -> result ChatCompletion)
    (settings : Settings) (video_path : Path) (instruction : option str)
    (frame_samples : option Z) (seconds_per_frame : option float)
    (metadata : VideoMetadata) (target : Z) (interval : float)
    (frames : list FrameSample) (completion : ChatCompletion) :
  get_video_metadata VideoCapture isOpened cap_get video_path = inr metadata ->
  _choose_sample_count settings metadata frame_samples seconds_per_frame
  = inr (target, interval) ->
  sample_video_frames_async VideoCapture isOpened cap_get cap_set cap_read imencode
    b64encode video_path target None = inr frames ->
  frames <> [] ->
  create (openai_model settings)
    (build_messages (resolve_instruction instruction) frames) (max_tokens settings)
  = inr completion ->
  exists r,
    analyze VideoCapture isOpened cap_get cap_set cap_read imencode b64encode create
      settings video_path instruction frame_samples seconds_per_frame = inr r
    /\ summary r = match choices completion with
                   | [] => []
                   | c :: _ => match message_content c with
                               | Some text => text
                               | None => []
                               end
                   end
    /\ frames_used r = Z.of_nat (List.length frames)
    /\ model r = openai_model settings
    /\ exists ts,
         frame_timestamps r = Some ts
         /\ map Some ts
            = filter (fun t => match t with Some _ => true | None => false end)
                (map timestamp_sec frames).
Proof.
  intros Hmd Hplan Hframes Hne Hcall.
  rewrite (Orchestrator.analyze_steps _ _ _ _ _ _ _ _ _ _ _ _ _ _ _ _ _ Hmd Hplan Hframes).
  destruct frames as [ | f frames]; [contradiction | ].
  rewrite (Orchestrator.respond_inr _ _ _ _ _ _ _ _ Hcall).
  eexists. split; [reflexivity | ]. cbn [summary frames_used model frame_timestamps].
  split; [ | split; [reflexivity | split; [reflexivity | ] ] ].
  - unfold first_content, str_or_empty.
    destruct (choices completion) as [ | c cs]; [reflexivity | ].
    destruct (message_content c); reflexivity.
  - eexists. split; [reflexivity | ]. apply Orchestrator.known_timestamps_spec.
Qed.

(** The six-frame clip: four frames come through and the summary is the text
    of the completion. *)
Lemma result_assembly_witness :
  exists r,
    Demo.analyze Demo.settings Demo.clip None None None = inr r
    /\ summary r = lit "A short clip."
    /\ frames_used r = 4
    /\ model r = lit "gpt-4.1-mini"
    /\ exists ts,
         frame_timestamps r = Some ts
         /\ map Some ts
            = filter (fun t => match t with Some _ => true | None => false end)
                (map timestamp_sec Demo.clip_frames).
Proof.
  apply (result_assembly Demo.VideoCapture Demo.isOpened Demo.cap_get Demo.cap_set
           Demo.cap_read Demo.imencode Demo.b64encode Demo.create Demo.settings
           Demo.clip None None None Demo.clip_metadata 6 (Demo.of_Z 2)
           Demo.clip_frames Demo.completion);
    try reflexivity.
  discriminate.
Defined.

(** C9: an explicit index list that is empty is treated as no list: the
    extractor gives what it gives with [indices=None], that is, on a readable
    video the frames at the indices the selector derives from
    [(total_frames, sample_count)]. *)
Theorem empty_index_list_falls_back {Path Capture Frame Buffer : Type}
    (VideoCapture : Path -> Capture) (isOpened : Capture -> bool)
    (cap_get : Capture -> CapProp -> float)
    (cap_set : Capture -> CapProp -> Z -> Capture)
    (cap_read : Capture -> option Frame * Capture)
    (imencode : str -> Frame -> bool * Buffer) (b64encode : Buffer -> str)
    (video_path : Path) (sample_count : Z) :
  let sample :=
    sample_video_frames VideoCapture isOpened cap_get cap_set cap_read imencode
      b64encode video_path sample_count in
  let cap := VideoCapture video_path in
  sample (Some []) = sample None
  /\ forall total_frames,
       isOpened cap = true ->
       int_of_float (cap_get cap CAP_PROP_FRAME_COUNT) = inr total_frames ->
       sample (Some [])
       = (indices <- _frame_indices total_frames sample_count ;;
          extract_loop cap_set cap_read imencode b64encode cap
            (float_or (Some (cap_get cap CAP_PROP_FPS)) fzero) indices []).
Proof.
  intros sample cap. split; [reflexivity | ].
  intros T Hopen HT. unfold sample, sample_video_frames. fold cap.
  rewrite Hopen. cbn [negb]. rewrite HT. reflexivity.
Qed.

(** With an empty explicit list the clip still gives its four frames, those at
    the indices [_frame_indices(6, 6)]. *)
Lemma empty_index_list_falls_back_witness :
  Demo.sample_video_frames Demo.clip 6 (Some [])
  = (indices <- _frame_indices 6 6 ;;
     extract_loop Demo.cap_set Demo.cap_read Demo.imencode Demo.b64encode
       (Demo.VideoCapture Demo.clip)
       (float_or (Some (Demo.cap_get (Demo.VideoCapture Demo.clip) CAP_PROP_FPS)) fzero)
       indices [])
  /\ Demo.sample_video_frames Demo.clip 6 (Some []) = inr Demo.clip_frames.
Proof.
  split; [ | reflexivity].
  apply (proj2 (empty_index_list_falls_back Demo.VideoCapture Demo.isOpened Demo.cap_get
                  Demo.cap_set Demo.cap_read Demo.imencode Demo.b64encode Demo.clip 6) 6);
    reflexivity.
Defined.

(** C10: the result's [total_frames] is absent when the metadata's
    [frame_count] is [0], and is [frame_count] itself when that is positive:
    for the response [respond] assembles from any metadata, and so for every
    response of [analyze]. *)
Theorem total_frames_absent_when_unknown {Path Capture Frame Buffer : Type}
    (VideoCapture : Path -> Capture) (isOpened : Capture -> bool)
    (cap_get : Capture -> CapProp -> float)
    (cap_set : Capture -> CapProp -> Z -> Capture)
    (cap_read : Capture -> option Frame * Capture)
    (imencode : str -> Frame -> bool * Buffer) (b64encode : Buffer -> str)
    (create : str -> list Message -> Z -> result ChatCompletion)
    (settings : Settings) (instruction : option str) :
  (forall metadata target interval frames r,
      respond create settings metadata target interval frames instruction = inr r ->
      (frame_count metadata = 0 -> total_frames r = None)
      /\ (0 < frame_count metadata -> total_frames r = Some (frame_count metadata)))
  /\ (forall video_path frame_samples seconds_per_frame metadata r,
         get_video_metadata VideoCapture isOpened cap_get video_path = inr metadata ->
         analyze VideoCapture isOpened cap_get cap_set cap_read imencode b64encode
           create settings video_path instruction frame_samples seconds_per_frame
         = inr r ->
         (frame_count metadata = 0 -> total_frames r = None)
         /\ (0 < frame_count metadata -> total_frames r = Some (frame_count metadata))).
Proof.
  assert (forall metadata target interval frames r,
             respond create settings metadata target interval frames instruction = inr r ->
             (frame_count metadata = 0 -> total_frames r = None)
             /\ (0 < frame_count metadata -> total_frames r = Some (frame_count metadata)))
    as Hrespond.
  { intros md target interval frames r H.
    destruct (Orchestrator.respond_inv _ _ _ _ _ _ _ _ H) as (completion & Hcall).
    rewrite (Orchestrator.respond_inr _ _ _ _ _ _ _ _ Hcall) in H. injection H as <-.
    cbn [total_frames]. unfold int_or_none. split.
    - intros ->. reflexivity.
    - intros Hpos. replace (frame_count md =? 0) with false; [reflexivity | ].
      symmetry. apply Z.eqb_neq. lia. }
  split; [exact Hrespond | ].
  intros path fs spf md r Hmd H.
  destruct (Orchestrator.analyze_inr _ _ _ _ _ _ _ _ _ _ _ _ _ _ H)
    as (md' & target & interval & frames & Hmd' & _ & _ & _ & Hr).
  rewrite Hmd in Hmd'. injection Hmd' as <-. exact (Hrespond _ _ _ _ _ Hr).
Qed.

(** A response assembled from metadata whose frame count is [0] has no
    [total_frames]; the response for the clip has [total_frames = 6]. *)
Lemma total_frames_absent_when_unknown_witness :
  (exists r,
      respond Demo.create Demo.settings Demo.unknown_count 20 (Demo.of_Z 2)
        Demo.clip_frames None = inr r
      /\ total_frames r = None)
  /\ (exists r,
         Demo.analyze Demo.settings Demo.clip None None None = inr r
         /\ total_frames r = Some 6).
Proof.
  pose proof (total_frames_absent_when_unknown Demo.VideoCapture Demo.isOpened
                Demo.cap_get Demo.cap_set Demo.cap_read Demo.imencode Demo.b64encode
                Demo.create Demo.settings None) as [Hrespond Hanalyze].
  split.
  - eexists. split; [reflexivity | ].
    apply (proj1 (Hrespond Demo.unknown_count 20 (Demo.of_Z 2) Demo.clip_frames _ eq_refl)).
    reflexivity.
  - eexists. split; [reflexivity | ].
    apply (proj2 (Hanalyze Demo.clip None None Demo.clip_metadata _ eq_refl eq_refl)).
    reflexivity.
Defined.

(** ** The instruction *)

Module Strings.

Lemma forallb_rev {A : Type} (f : A -> bool) (l : list A) :
  forallb f (rev l) = forallb f l.
Proof.
  destruct (forallb f l) eqn:E.
  - apply forallb_forall. intros x Hx. apply in_rev in Hx.
    rewrite forallb_forall in E. apply E. assumption.
  - destruct (forallb f (rev l)) eqn:E'; [ | reflexivity].
    rewrite <- E. symmetry. apply forallb_forall. intros x Hx.
    rewrite forallb_forall in E'. apply E'. apply in_rev. rewrite rev_involutive. assumption.
Qed.

(** What is left after [lstrip] starts with no whitespace, and what was
    removed is whitespace. *)
Lemma lstrip_spec (s : str) :
  exists pre,
    s = pre ++ lstrip s
    /\ forallb isspace pre = true
    /\ match lstrip s with [] => True | c :: _ => isspace c = false end.
Proof.
  induction s as [ | c s (pre & E & Hpre & Hhead)]; cbn [lstrip].
  - exists []. repeat split.
  - destruct (isspace c) eqn:Hc.
    + exists (c :: pre). cbn [app forallb]. rewrite Hc, Hpre, <- E. repeat split. assumption.
    + exists []. repeat split. assumption.
Qed.

Lemma rstrip_spec (s : str) :
  exists post,
    s = rstrip s ++ post
    /\ forallb isspace post = true
    /\ match rev (rstrip s) with [] => True | c :: _ => isspace c = false end.
Proof.
  destruct (lstrip_spec (rev s)) as (pre & E & Hpre & Hhead).
  exists (rev pre). unfold rstrip. rewrite rev_involutive. repeat split.
  - rewrite <- rev_app_distr, <- E, rev_involutive. reflexivity.
  - rewrite forallb_rev. assumption.
  - assumption.
Qed.

(** [strip]: the string is whitespace, then the result, then whitespace, and
    the result neither starts nor ends with whitespace. *)
Lemma strip_spec (s : str) :
  exists pre post,
    s = pre ++ strip s ++ post
    /\ forallb isspace pre = true
    /\ forallb isspace post = true
    /\ match strip s with [] => True | c :: _ => isspace c = false end
    /\ match rev (strip s) with [] => True | c :: _ => isspace c = false end.
Proof.
  destruct (lstrip_spec s) as (pre & E & Hpre & Hhead).
  destruct (rstrip_spec (lstrip s)) as (post & E' & Hpost & Hlast).
  exists pre, post. unfold strip. repeat split; try assumption.
  - rewrite <- E'. assumption.
  - rewrite E' in Hhead. destruct (rstrip (lstrip s)); [exact I | assumption].
Qed.

End Strings.

(** C5, as the code has it: the instruction resolves to the caller-supplied
    instruction with the surrounding whitespace trimmed when it is supplied
    and is not the empty string, and to the fixed default instruction when it
    is absent or empty.  Trimmed means: the supplied string is whitespace,
    then the result, then whitespace, and the result neither starts nor ends
    with whitespace. *)
Theorem instruction_resolution (instruction : option str) :
  resolve_instruction instruction
  = match instruction with
    | Some (c :: s) => strip (c :: s)
    | _ => default_instruction
    end
  /\ forall s,
       instruction = Some s -> s <> [] ->
       exists pre post,
         s = pre ++ resolve_instruction instruction ++ post
         /\ forallb isspace pre = true
         /\ forallb isspace post = true
         /\ match resolve_instruction instruction with
            | [] => True
            | c :: _ => isspace c = false
            end
         /\ match rev (resolve_instruction instruction) with
            | [] => True
            | c :: _ => isspace c = false
            end.
Proof.
  split.
  - destruct instruction as [[ | c s] | ]; reflexivity.
  - intros s -> Hne. destruct s as [ | c s]; [contradiction | ].
    cbn [resolve_instruction str_bool]. apply Strings.strip_spec.
Qed.

(** An instruction with spaces around it. *)
Lemma instruction_resolution_witness :
  exists pre post,
    lit "  List key scenes " = pre ++ lit "List key scenes" ++ post
    /\ forallb isspace pre = true
    /\ forallb isspace post = true
    /\ isspace 76 = false
    /\ isspace 115 = false.
Proof.
  apply (proj2 (instruction_resolution (Some (lit "  List key scenes ")))
           (lit "  List key scenes ") eq_refl).
  discriminate.
Defined.

(** C5 as stated fails on an instruction of three spaces: it is not empty, so
    it is trimmed, and the result is the empty string, not the default
    instruction. *)
Lemma whitespace_instruction_resolves_to_empty :
  resolve_instruction (Some (lit "   ")) = lit ""
  /\ resolve_instruction (Some (lit "   ")) <> default_instruction.
Proof. split; [reflexivity | discriminate]. Qed.

(** ** The sample budget planner *)

Module Planner.

Import Config Service.

Lemma choose_unfold (settings : Settings) (metadata : VideoMetadata)
    (frame_samples_override : option Z) (interval_override : option float) :
  let baseline := Z.max (int_or frame_samples_override (frame_samples settings)) 1 in
  let interval := float_or interval_override (seconds_per_frame settings) in
  _choose_sample_count settings metadata frame_samples_override interval_override
  = (t <- time_based baseline interval metadata ;;
     ret (clamp settings metadata (Z.max baseline t), interval)).
Proof. reflexivity. Qed.

Lemma plan_unfold (settings : Settings) (metadata : VideoMetadata)
    (frame_samples_override : option Z) (interval_override : option float) :
  let baseline := Z.max (int_or frame_samples_override (frame_samples settings)) 1 in
  let interval := float_or interval_override (seconds_per_frame settings) in
  Spec.plan settings metadata frame_samples_override interval_override
  = (t <- Spec.time_based baseline interval metadata ;;
     ret (clamp settings metadata (Z.max baseline t), interval)).
Proof.
  cbv zeta. unfold Spec.plan, clamp. rewrite Z.gtb_ltb. reflexivity.
Qed.

Lemma clamp_bounds (settings : Settings) (metadata : VideoMetadata) (target : Z) :
  1 <= clamp settings metadata target
  /\ (1 <= max_frame_samples settings ->
      clamp settings metadata target <= max_frame_samples settings)
  /\ (max_frame_samples settings < 1 -> clamp settings metadata target = 1)
  /\ (0 < frame_count metadata -> clamp settings metadata target <= frame_count metadata).
Proof.
  unfold clamp. destruct (frame_count metadata >? 0) eqn:E.
  - apply Z.gtb_lt in E. lia.
  - rewrite Z.gtb_ltb in E. apply Z.ltb_ge in E. lia.
Qed.

(** A quotient by a positive interval of a zero duration is a zero. *)
Lemma zero_div_positive (d interval : float) :
  is_zero d = true -> float_gt0 interval = true ->
  exists s, float_truediv d interval = inr (S754_zero s).
Proof.
  intros Hd Hi. unfold float_truediv.
  rewrite (Metadata.float_gt0_not_zero interval Hi).
  destruct d as [sd | | | ]; try discriminate.
  destruct interval as [si | si | | si mi ei]; try discriminate; cbn; eexists; reflexivity.
Qed.

Lemma shiftl_neg_nonpos (m : positive) (e : Z) : Z.shiftl (Zneg m) e <= 0.
Proof.
  destruct (Z_le_gt_dec 0 e) as [He | He].
  - rewrite Z.shiftl_mul_pow2 by assumption.
    assert (0 < 2 ^ e) by (apply Z.pow_pos_nonneg; lia). nia.
  - rewrite Z.shiftl_div_pow2 by lia.
    assert (0 < 2 ^ (- e)) by (apply Z.pow_pos_nonneg; lia).
    apply Z.div_le_upper_bound; lia.
Qed.

(** Truncation and floor of a float differ only below zero, where both are
    at most [0]. *)
Lemma int_and_floor (q : float) :
  match int_of_float q, floor_of_float q with
  | inr n1, inr n2 => n1 = n2 \/ (n1 <= 0 /\ n2 <= 0)
  | inl e1, inl e2 => e1 = e2
  | _, _ => False
  end.
Proof.
  destruct q as [s | s | | s m e]; cbn [int_of_float floor_of_float ret raise];
    try reflexivity; try (left; reflexivity).
  destruct s; [right | left; reflexivity].
  split; [ | apply shiftl_neg_nonpos].
  assert (0 <= Z.shiftl (Zpos m) e) by (apply Z.shiftl_nonneg; lia). lia.
Qed.

(** The code's [time_based] and the specification's lead to the same
    [max(baseline, time_based)], or raise the same exception. *)
Lemma time_based_agree (baseline : Z) (interval : float) (metadata : VideoMetadata) :
  1 <= baseline -> float_gt0 interval = true ->
  match time_based baseline interval metadata,
        Spec.time_based baseline interval metadata with
  | inr t1, inr t2 => Z.max baseline t1 = Z.max baseline t2
  | inl e1, inl e2 => e1 = e2
  | _, _ => False
  end.
Proof.
  intros Hb Hi. unfold time_based, Spec.time_based.
  destruct (duration_sec metadata) as [d | ]; [ | reflexivity].
  unfold float_bool. destruct (is_zero d) eqn:Hd; cbn [negb].
  - destruct (zero_div_positive d interval Hd Hi) as (s & ->). cbn. lia.
  - destruct (float_truediv d interval) as [e | q]; cbn [bind]; [reflexivity | ].
    pose proof (int_and_floor q) as H.
    destruct (int_of_float q) as [e1 | n1], (floor_of_float q) as [e2 | n2];
      cbn [bind ret]; try contradiction; [assumption | ].
    lia.
Qed.

(** Whenever the specification's [time_based] has a value, so has the
    code's, with the same [max(baseline, time_based)]. *)
Lemma time_based_refines (baseline : Z) (interval : float) (metadata : VideoMetadata)
    (t2 : Z) :
  1 <= baseline ->
  Spec.time_based baseline interval metadata = inr t2 ->
  exists t1,
    time_based baseline interval metadata = inr t1
    /\ Z.max baseline t1 = Z.max baseline t2.
Proof.
  intros Hb. unfold time_based, Spec.time_based.
  destruct (duration_sec metadata) as [d | ].
  - unfold float_bool, float_truediv.
    destruct (is_zero interval) eqn:Hi; cbn [bind raise]; [discriminate | ].
    destruct (is_zero d) eqn:Hd; cbn [negb bind ret].
    + destruct d as [sd | | | ]; try discriminate.
      destruct interval as [si | si | | si mi ei]; try discriminate;
        cbn; intros H; injection H as <-; exists baseline; split; try reflexivity; lia.
    + pose proof (int_and_floor (SFdiv prec emax d interval)) as H.
      destruct (int_of_float (SFdiv prec emax d interval)) as [e1 | n1],
               (floor_of_float (SFdiv prec emax d interval)) as [e2 | n2];
        cbn [bind ret]; try contradiction; try discriminate.
      intros E. injection E as <-. exists (n1 + 1). split; [reflexivity | lia].
  - intros E. injection E as <-. exists baseline. split; reflexivity.
Qed.

End Planner.

(** C3, as the code has it: whenever the planner returns, [target_count] is
    at least [1], at most [frame_count] when that is positive, and at most
    the configured ceiling when the ceiling is at least [1] (a ceiling below
    [1] gives [1]); and it returns unless [int(duration_sec / interval)]
    raises, which is the exception it then raises. *)
Theorem sample_count_bounds (settings : Settings) (metadata : VideoMetadata)
    (frame_samples_override : option Z) (interval_override : option float) :
  let interval := float_or interval_override (seconds_per_frame settings) in
  match _choose_sample_count settings metadata frame_samples_override
          interval_override with
  | inr (target_count, effective_interval) =>
      1 <= target_count
      /\ (1 <= max_frame_samples settings -> target_count <= max_frame_samples settings)
      /\ (max_frame_samples settings < 1 -> target_count = 1)
      /\ (0 < frame_count metadata -> target_count <= frame_count metadata)
      /\ effective_interval = interval
  | inl e =>
      exists d,
        duration_sec metadata = Some d
        /\ float_bool d = true
        /\ (q <- float_truediv d interval ;; int_of_float q) = inl e
  end.
Proof.
  intros interval. rewrite Planner.choose_unfold. fold interval.
  set (baseline := Z.max (int_or frame_samples_override (frame_samples settings)) 1).
  unfold time_based.
  destruct (duration_sec metadata) as [d | ].
  - destruct (float_bool d) eqn:Hd.
    + destruct (float_truediv d interval) as [e | q] eqn:Hq; cbn [bind].
      * exists d. rewrite Hq. repeat split. assumption.
      * destruct (int_of_float q) as [e | n] eqn:Hn; cbn [bind ret].
        -- exists d. rewrite Hq. cbn [bind]. rewrite Hn. repeat split. assumption.
        -- pose proof (Planner.clamp_bounds settings metadata (Z.max baseline (n + 1))).
           intuition.
    + cbn [bind ret].
      pose proof (Planner.clamp_bounds settings metadata (Z.max baseline baseline)).
      intuition.
  - cbn [bind ret].
    pose proof (Planner.clamp_bounds settings metadata (Z.max baseline baseline)).
    intuition.
Qed.

(** The five-minute example under the default configuration: the planner
    returns 120, within every bound. *)
Lemma sample_count_bounds_witness :
  1 <= 120
  /\ (1 <= max_frame_samples Demo.settings -> 120 <= max_frame_samples Demo.settings)
  /\ (max_frame_samples Demo.settings < 1 -> 120 = 1)
  /\ (0 < frame_count Demo.five_minutes -> 120 <= frame_count Demo.five_minutes)
  /\ Demo.of_Z 2 = float_or None (seconds_per_frame Demo.settings).
Proof.
  exact (sample_count_bounds Demo.settings Demo.five_minutes None None).
Defined.

(** C3 as stated fails for a configuration whose ceiling is [0]: the final
    [max(target, 1)] gives [1], which is above the ceiling. *)
Lemma sample_count_above_zero_ceiling :
  _choose_sample_count Demo.zero_ceiling Demo.five_minutes None None
  = inr (1, Demo.of_Z 2)
  /\ max_frame_samples Demo.zero_ceiling < 1.
Proof. split; reflexivity. Qed.

(** C2: whenever the steps of the specification give a target count and an
    interval, the planner returns exactly those; for a positive interval the
    two agree on every input (the same count and interval, or the same
    exception); and for 300 seconds, interval 2.0, baseline 20, ceiling 120
    and 10000 frames, [time_based] is 151 and [target_count] is 120. *)
Theorem planner_follows_steps :
  (forall settings metadata frame_samples_override interval_override budget,
      Spec.plan settings metadata frame_samples_override interval_override
      = inr budget ->
      _choose_sample_count settings metadata frame_samples_override interval_override
      = inr budget)
  /\ (forall settings metadata frame_samples_override interval_override,
         float_gt0 (float_or interval_override (seconds_per_frame settings)) = true ->
         _choose_sample_count settings metadata frame_samples_override interval_override
         = Spec.plan settings metadata frame_samples_override interval_override)
  /\ time_based 20 (Demo.of_Z 2) Demo.five_minutes = inr 151
  /\ _choose_sample_count Demo.settings Demo.five_minutes None None
     = inr (120, Demo.of_Z 2).
Proof.
  split; [ | split; [ | split; reflexivity] ].
  { intros settings metadata fo io budget.
    rewrite Planner.choose_unfold, Planner.plan_unfold.
    set (baseline := Z.max (int_or fo (frame_samples settings)) 1).
    set (interval := float_or io (seconds_per_frame settings)).
    destruct (Spec.time_based baseline interval metadata) as [e2 | t2] eqn:E2;
      cbn [bind ret]; [discriminate | ].
    destruct (Planner.time_based_refines baseline interval metadata t2 ltac:(lia) E2)
      as (t1 & E1 & Hmax).
    rewrite E1. cbn [bind ret]. rewrite Hmax. trivial. }
  intros settings metadata fo io Hi.
  rewrite Planner.choose_unfold, Planner.plan_unfold.
  set (baseline := Z.max (int_or fo (frame_samples settings)) 1).
  set (interval := float_or io (seconds_per_frame settings)) in *.
  pose proof (Planner.time_based_agree baseline interval metadata ltac:(lia) Hi) as H.
  destruct (time_based baseline interval metadata) as [e1 | t1],
           (Spec.time_based baseline interval metadata) as [e2 | t2];
    cbn [bind ret]; try contradiction; congruence.
Qed.

(** The steps of the specification on the five-minute example. *)
Lemma planner_follows_steps_witness :
  _choose_sample_count Demo.settings Demo.five_minutes None None
  = Spec.plan Demo.settings Demo.five_minutes None None.
Proof.
  apply (proj1 (proj2 planner_follows_steps) Demo.settings Demo.five_minutes None None).
  reflexivity.
Defined.

(** ** The frame extractor *)

Module Extractor.

Section Loop.

Context {Capture Frame Buffer : Type}.
Variable cap_set : Capture -> CapProp -> Z -> Capture.
Variable cap_read : Capture -> option Frame * Capture.
Variable imencode : str -> Frame -> bool * Buffer.
Variable b64encode : Buffer -> str.



(** Every success is at a selected index, and there are no more successes
    than indices. *)
Lemma successes_indices (cap : Capture) (fps : float) (indices : list Z) :
  (forall f,
      In f (Spec.successes cap_set cap_read imencode b64encode cap fps indices) ->
      In (index f) indices)
  /\ (List.length (Spec.successes cap_set cap_read imencode b64encode cap fps indices)
      <= List.length indices)%nat.
Proof.
  revert cap. induction indices as [ | idx rest IH]; intros cap.
  - split; [intros f [] | cbn; lia].
  - cbn [Spec.successes].
    destruct (cap_read (cap_set cap CAP_PROP_POS_FRAMES idx)) as [[frame | ] cap'].
    + destruct (imencode (lit ".jpg") frame) as [[ | ] buffer].
      * destruct (IH cap') as [Hin Hlen]. split.
        -- intros f [<- | Hf]; [left; reflexivity | right; apply Hin; assumption].
        -- cbn [List.length]. lia.
      * destruct (IH cap') as [Hin Hlen]. split.
        -- intros f Hf. right. apply Hin. assumption.
        -- cbn [List.length]. lia.
    + destruct (IH cap') as [Hin Hlen]. split.
      * intros f Hf. right. apply Hin. assumption.
      * cbn [List.length]. lia.
Qed.

End Loop.

End Extractor.

Import Endpoint.



(** * Further properties *)

(** ** Rounding from below, and the spacing of the picked indices *)

Module Spacing.

Import Value Rounding.

(** The result of a rounding is not far below the value rounded. *)
Lemma round_aux_below (s : bool) (mx ex : Z) (lx : location) :
  0 < mx -> -1021 <= Zdigits2 mx + ex <= 1023 -> ex <= 971 ->
  lx = loc_Exact \/ 53 <= Zdigits2 mx ->
  exists m e,
    binary_round_aux prec emax s mx ex lx = S754_finite s m e
    /\ ex <= e
    /\ mx * 2 ^ 52 <= Zpos m * 2 ^ (e - ex) * (2 ^ 52 + 1)
    /\ (53 <= Zdigits2 mx ->
        (mx + 1) * 2 ^ 52 <= Zpos m * 2 ^ (e - ex) * (2 ^ 52 + 1)).
Proof.
  intros Hmx HD Hex Hloc.
  pose proof (Zdigits2_pos mx Hmx) as Hd.
  destruct (shr_fexp_spec mx ex lx Hmx) as (r1 & E1 & Hm1 & Hl1); [lia | ].
  pose proof (shift_mantissa_bounds mx Hmx) as (Hb1 & Hmul1 & Hnorm1 & Hdig1).
  set (n1 := Z.max 0 (Zdigits2 mx - 53)) in *.
  assert (0 <= n1) as Hn1 by (unfold n1; lia).
  assert (0 < 2 ^ n1) as Hp1 by (apply Z.pow_pos_nonneg; lia).
  set (m1 := mx / 2 ^ n1) in *.
  pose proof (round_nearest_even_bounds m1 (loc_of_shr_record r1)) as Hr.
  set (m2 := round_nearest_even m1 (loc_of_shr_record r1)) in *.
  assert (0 < m2) as Hm2pos by lia.
  assert (Zdigits2 m1 <= Zdigits2 m2) as Hmono by (apply Zdigits2_mono; lia).
  assert (Zdigits2 m2 <= 54) as Hd2.
  { apply Zdigits2_le; [lia | lia | ]. change (2 ^ 54) with (2 * 2 ^ 53). lia. }
  destruct (shr_fexp_spec m2 (ex + n1) loc_Exact Hm2pos) as (r2 & E2 & Hm2 & _); [lia | ].
  set (n2 := Z.max 0 (Zdigits2 m2 - 53)) in *.
  assert (0 <= n2 <= 1) as Hn2 by (unfold n2; lia).
  assert (0 < 2 ^ n2) as Hp2 by (apply Z.pow_pos_nonneg; lia).
  assert (m1 <= m2 / 2 ^ n2 * 2 ^ n2) as Hkeep.
  { destruct (Z.eq_dec n2 0) as [Hz | Hnz].
    - rewrite Hz. change (2 ^ 0) with 1. rewrite Z.div_1_r. lia.
    - assert (n2 = 1) as H1 by lia. rewrite H1. change (2 ^ 1) with 2.
      assert (Zdigits2 m2 = 54) as H54 by (unfold n2 in H1; lia).
      pose proof (Zdigits2_bounds m2 Hm2pos) as [Hlo _]. rewrite H54 in Hlo.
      change (2 ^ (54 - 1)) with (2 ^ 53) in Hlo.
      assert (m2 = 2 ^ 53) as -> by lia. 
      change (2 ^ 53 / 2 * 2) with (2 ^ 53). lia. }
  assert (mx < (m1 + 1) * 2 ^ n1) as Hnext.
  { unfold m1. pose proof (Z.mod_pos_bound mx (2 ^ n1) Hp1).
    pose proof (Z.div_mod mx (2 ^ n1) ltac:(lia)). nia. }
  assert (n1 = 0 \/ 2 ^ 52 <= m1) as Hcase.
  { destruct (Z_le_gt_dec 53 (Zdigits2 mx)) as [H53 | H53]; [right; auto | left].
    unfold n1. lia. }
  destruct (round_aux_spec s mx ex lx Hmx HD Hex Hloc) as (m & e & E & He & _ & _ & Hexact).
  exists m, e. split; [exact E | ]. split; [lia | ].
  unfold binary_round_aux in E. rewrite E1 in E. fold m1 in Hm1. rewrite Hm1 in E.
  fold m2 in E. rewrite E2, Hm2 in E.
  destruct (m2 / 2 ^ n2) as [ | m' | m'] eqn:Hm'; try discriminate.
  destruct (ex + n1 + n2 <=? emax - prec); [ | discriminate].
  injection E as <- <-.
  replace (ex + n1 + n2 - ex) with (n2 + n1) by lia.
  rewrite Z.pow_add_r by lia. rewrite Z.mul_assoc.
  assert (m1 * 2 ^ n1 <= Zpos m' * 2 ^ n2 * 2 ^ n1) as Hle
    by (apply Z.mul_le_mono_nonneg_r; lia).
  set (V := Zpos m' * 2 ^ n2 * 2 ^ n1) in *.
  assert (53 <= Zdigits2 mx -> (mx + 1) * 2 ^ 52 <= V * (2 ^ 52 + 1)) as HB.
  { intros H53. specialize (Hnorm1 H53).
    assert (2 ^ 52 * 2 ^ n1 <= m1 * 2 ^ n1) by (apply Z.mul_le_mono_nonneg_r; lia).
    nia. }
  split; [ | exact HB].
  destruct (Z_le_gt_dec 53 (Zdigits2 mx)) as [H53 | H53].
  - specialize (HB H53). lia.
  - assert (n1 = 0) as Hz by (unfold n1; lia).
    assert (m1 = mx) as -> by (unfold m1; rewrite Hz; apply Z.div_1_r).
    rewrite Hz in Hle. change (2 ^ 0) with 1 in Hle.
    assert (0 < 2 ^ 52) by (apply Z.pow_pos_nonneg; lia). nia.
Qed.

Local Open Scope Q_scope.

Lemma round_aux_value_below (s : bool) (mx ex : Z) (lx : location) :
  (0 < mx)%Z -> (-1021 <= Zdigits2 mx + ex <= 1023)%Z -> (ex <= 971)%Z ->
  lx = loc_Exact \/ (53 <= Zdigits2 mx)%Z ->
  exists m e,
    binary_round_aux prec emax s mx ex lx = S754_finite s m e
    /\ F2Q mx ex <= F2Q (Zpos m) e * (1 + eps)
    /\ ((53 <= Zdigits2 mx)%Z -> F2Q (mx + 1) ex <= F2Q (Zpos m) e * (1 + eps)).
Proof.
  intros Hmx HD Hex Hloc.
  destruct (round_aux_below s mx ex lx Hmx HD Hex Hloc) as (m & e & E & He & HA & HB).
  exists m, e. split; [exact E | ].
  assert (forall k : Z,
             (k * 2 ^ 52 <= Zpos m * 2 ^ (e - ex) * (2 ^ 52 + 1))%Z ->
             F2Q k ex <= F2Q (Zpos m) e * (1 + eps)) as Hconv.
  { intros k Hk.
    assert (F2Q k ex * inject_Z (2 ^ 52)
            <= F2Q (Zpos m * 2 ^ (e - ex)) ex * inject_Z (2 ^ 52 + 1)) as H.
    { unfold F2Q.
      setoid_replace (inject_Z k * 2 ^ ex * inject_Z (2 ^ 52))
        with (inject_Z (k * 2 ^ 52) * 2 ^ ex)
        by (rewrite (inject_Z_mult k); ring).
      setoid_replace (inject_Z (Z.pos m * 2 ^ (e - ex)) * 2 ^ ex * inject_Z (2 ^ 52 + 1))
        with (inject_Z (Z.pos m * 2 ^ (e - ex) * (2 ^ 52 + 1)) * 2 ^ ex)
        by (rewrite (inject_Z_mult _ (2 ^ 52 + 1)); ring).
      apply Qmult_le_compat_r; [ | apply Qlt_le_weak, two_pow_pos ].
      rewrite <- Zle_Qle. assumption. }
    rewrite F2Q_shift in H by lia. replace (ex + (e - ex))%Z with e in H by lia.
    change (inject_Z (2 ^ 52)) with (4503599627370496 # 1) in H.
    change (inject_Z (2 ^ 52 + 1)) with (4503599627370497 # 1) in H.
    unfold eps. lra. }
  split; [apply Hconv; assumption | ].
  intros H53. apply Hconv, HB, H53.
Qed.

Local Open Scope Z_scope.

Lemma float_of_int_below (i : Z) (m : positive) (e : Z) :
  0 < i -> Zdigits2 i <= 1023 ->
  float_of_int i = inr (S754_finite false m e) ->
  (inject_Z i <= F2Q (Zpos m) e * (1 + eps))%Q.
Proof.
  intros Hi Hd E. destruct i as [ | p | p]; try lia.
  pose proof (Zdigits2_pos (Zpos p) Hi) as Hdp. cbn [Zdigits2] in Hd, Hdp.
  assert (forall mz ez,
             Zdigits2 (Zpos mz) + ez = Zpos (digits2_pos p) -> ez <= 0 ->
             (F2Q (Zpos mz) ez == inject_Z (Zpos p))%Q ->
             checked (lit "int too large to convert to float")
               (binary_round_aux prec emax false (Zpos mz) ez loc_Exact)
             = inr (S754_finite false m e) ->
             (inject_Z (Zpos p) <= F2Q (Zpos m) e * (1 + eps))%Q) as Haux.
  { intros mz ez Hdg Hez Hval Er.
    destruct (round_aux_value_below false (Zpos mz) ez loc_Exact)
      as (m' & e' & E' & Hv & _); [lia | lia | lia | left; reflexivity | ].
    rewrite E' in Er. cbn [checked ret] in Er. injection Er as <- <-.
    rewrite Hval in Hv. assumption. }
  unfold float_of_int, binary_normalize, binary_round in E.
  rewrite Z.add_0_r, fexp_normal in E by lia. unfold shl_align in E.
  destruct (Zpos (digits2_pos p) - 53 - 0) as [ | k | k] eqn:Hk.
  - apply (Haux p 0); [cbn [Zdigits2]; lia | lia | apply F2Q_0 | exact E].
  - apply (Haux p 0); [cbn [Zdigits2]; lia | lia | apply F2Q_0 | exact E].
  - apply (Haux (Pos.iter xO p k) (Zpos (digits2_pos p) - 53)).
    + rewrite iter_xO_pow2, Zdigits2_shift by lia. cbn [Zdigits2]. lia.
    + lia.
    + rewrite iter_xO_pow2, F2Q_shift by lia.
      replace (Zpos (digits2_pos p) - 53 + Zpos k) with 0 by lia. apply F2Q_0.
    + exact E.
Qed.

Lemma div_core_below (a b q e : Z) (l : location) :
  0 < b -> b < a ->
  SFdiv_core_binary prec emax a 0 b 0 = (q, e, l) ->
  e <= 0 /\ a * 2 ^ (- e) < (q + 1) * b.
Proof.
  intros Hb Hab E. assert (0 < a) as Ha by lia.
  pose proof (Zdigits2_pos b Hb) as Hdb.
  assert (Zdigits2 b <= Zdigits2 a) as Hmono by (apply Zdigits2_mono; lia).
  unfold SFdiv_core_binary in E. rewrite fexp_normal in E by lia.
  set (e0 := Z.min (Zdigits2 a + 0 - (Zdigits2 b + 0) - 53) (0 - 0)) in *.
  assert (e0 <= 0) as He0 by (unfold e0; lia).
  set (m' := match 0 - 0 - e0 with
             | 0 => a
             | Zpos _ => Z.shiftl a (0 - 0 - e0)
             | Zneg _ => 0
             end) in *.
  assert (m' = a * 2 ^ (- e0)) as Hm'.
  { unfold m'. replace (0 - 0 - e0) with (- e0) by lia.
    destruct (- e0) as [ | p | p] eqn:Hs; try lia.
    rewrite Z.shiftl_mul_pow2 by lia. reflexivity. }
  pose proof (Z_div_mod m' b ltac:(lia)) as Hdiv.
  destruct (Z.div_eucl m' b) as [q0 r]. destruct Hdiv as [Hq Hr].
  injection E as <- <- <-. split; [assumption | ]. rewrite <- Hm'. nia.
Qed.

Lemma int_truediv_below (a b : Z) (m : positive) (e : Z) :
  0 < b -> b < a -> Zdigits2 a <= 1023 ->
  int_truediv a b = inr (S754_finite false m e) ->
  (inject_Z a <= F2Q (Zpos m) e * inject_Z b * (1 + eps))%Q.
Proof.
  intros Hb Hab Hd E.
  destruct (div_core_spec a b Hb Hab) as (q & e' & l & Ec & He' & Hq & Hd53 & Hmul & Hdq).
  destruct (div_core_below a b q e' l Hb Hab Ec) as (_ & Hnext).
  destruct (round_aux_value_below false q e' l Hq) as (m' & e2 & Er & _ & Hv);
    [lia | lia | right; assumption | ].
  specialize (Hv Hd53).
  unfold int_truediv in E. destruct a as [ | pa | pa]; try lia.
  destruct b as [ | pb | pb]; try lia.
  cbn [Z.abs] in E. rewrite Ec in E.
  replace (xorb (Zpos pa <? 0) (Zpos pb <? 0)) with false in E by reflexivity.
  rewrite Er in E. cbn [checked ret] in E. injection E as <- <-.
  assert (inject_Z (Zpos pa) <= F2Q (q + 1) e' * inject_Z (Zpos pb))%Q as Hquot.
  { rewrite <- (F2Q_0 (Zpos pb)), <- F2Q_mul, Z.add_0_r.
    apply Z.lt_le_incl in Hnext. apply (F2Q_mono _ _ e') in Hnext.
    rewrite F2Q_shift in Hnext by lia.
    replace (e' + - e') with 0 in Hnext by lia. rewrite F2Q_0 in Hnext. assumption. }
  assert (0 <= inject_Z (Zpos pb))%Q as Hbq
    by (change 0%Q with (inject_Z 0); rewrite <- Zle_Qle; lia).
  apply Qle_trans with (F2Q (q + 1) e' * inject_Z (Zpos pb))%Q; [assumption | ].
  setoid_replace (F2Q (Zpos m') e2 * inject_Z (Zpos pb) * (1 + eps))%Q
    with (F2Q (Zpos m') e2 * (1 + eps) * inject_Z (Zpos pb))%Q by ring.
  apply Qmult_le_compat_r; assumption.
Qed.

Lemma mul_below (m1 : positive) (e1 : Z) (m2 : positive) (e2 : Z) (m : positive) (e : Z) :
  -1020 <= (Zdigits2 (Zpos m1) + e1) + (Zdigits2 (Zpos m2) + e2) <= 1023 ->
  e1 + e2 <= 971 ->
  SFmul prec emax (S754_finite false m1 e1) (S754_finite false m2 e2)
  = S754_finite false m e ->
  (F2Q (Zpos m1) e1 * F2Q (Zpos m2) e2 <= F2Q (Zpos m) e * (1 + eps))%Q.
Proof.
  intros HD He E.
  pose proof (Zdigits2_mul (Zpos m1) (Zpos m2) ltac:(lia) ltac:(lia)) as Hdm.
  destruct (round_aux_value_below false (Zpos (m1 * m2)) (e1 + e2) loc_Exact)
    as (m' & e' & E' & Hv & _);
    [lia | rewrite Pos2Z.inj_mul; lia | lia | left; reflexivity | ].
  cbn [SFmul xorb] in E. rewrite E' in E. injection E as <- <-.
  rewrite Pos2Z.inj_mul, F2Q_mul in Hv. assumption.
Qed.

Lemma int_of_float_above (m : positive) (e v : Z) :
  int_of_float (S754_finite false m e) = inr v ->
  (F2Q (Zpos m) e < inject_Z v + 1)%Q.
Proof.
  cbn [int_of_float ret]. intros E. injection E as <-.
  setoid_replace (inject_Z (Z.shiftl (Zpos m) e) + 1)%Q
    with (inject_Z (Z.shiftl (Zpos m) e + 1))
    by (rewrite inject_Z_plus; reflexivity).
  destruct (Z_le_gt_dec 0 e) as [He | He].
  - rewrite Z.shiftl_mul_pow2 by assumption.
    rewrite <- (F2Q_0 (_ + 1)).
    setoid_replace (F2Q (Zpos m) e) with (F2Q (Zpos m * 2 ^ e) 0)
      by (rewrite F2Q_shift by assumption; rewrite Z.add_0_l; reflexivity).
    unfold F2Q. apply Qmult_lt_r; [apply two_pow_pos | ]. rewrite <- Zlt_Qlt. lia.
  - rewrite Z.shiftl_div_pow2 by lia.
    assert (0 < 2 ^ (- e)) as Hp by (apply Z.pow_pos_nonneg; lia).
    assert (Zpos m < (Zpos m / 2 ^ (- e) + 1) * 2 ^ (- e)) as Hlt.
    { pose proof (Z.mod_pos_bound (Zpos m) (2 ^ (- e)) Hp).
      pose proof (Z.div_mod (Zpos m) (2 ^ (- e)) ltac:(lia)). nia. }
    assert (F2Q (Zpos m) e < F2Q ((Zpos m / 2 ^ (- e) + 1) * 2 ^ (- e)) e)%Q as H.
    { unfold F2Q. apply Qmult_lt_r; [apply two_pow_pos | ]. rewrite <- Zlt_Qlt. assumption. }
    rewrite F2Q_shift in H by lia. replace (e + - e) with 0 in H by lia.
    rewrite F2Q_0 in H. assumption.
Qed.

Lemma inject_Z_nonneg (n : Z) : 0 <= n -> (0 <= inject_Z n)%Q.
Proof. intros H. change 0%Q with (inject_Z 0). rewrite <- Zle_Qle. assumption. Qed.

(** The index picked for [i] against the exact product [i * step]. *)
Lemma pick_two_sided (T S i : Z) (mq : positive) (eq v : Z) :
  0 < S -> S < T -> S <= 2 ^ 50 -> T < 2 ^ 900 ->
  int_truediv T S = inr (S754_finite false mq eq) -> 0 <= i < S ->
  pick (S754_finite false mq eq) i = inr v ->
  (inject_Z v <= inject_Z i * F2Q (Zpos mq) eq * ((1 + eps) * (1 + eps))
   /\ inject_Z i * F2Q (Zpos mq) eq <= (inject_Z v + 1) * ((1 + eps) * (1 + eps)))%Q.
Proof.
  intros HS HST HS50 HT900 Hstep Hi Hv.
  assert (Zdigits2 T <= 900) as HdT by (apply Zdigits2_le; lia).
  destruct (int_truediv_spec T S HS HST) as (mq' & eq' & Eq & Heq & Hvq & Hdq); [lia | ].
  rewrite Hstep in Eq. injection Eq as <- <-.
  pose proof (F2Q_nonneg (Zpos mq) eq ltac:(lia)) as Hnnq.
  set (Fq := F2Q (Zpos mq) eq) in *.
  destruct (Z.eq_dec i 0) as [-> | Hne].
  - cbn in Hv. injection Hv as <-. change (inject_Z 0) with 0%Q. unfold eps. split; lra.
  - assert (0 < i) as Hipos by lia.
    assert (Zdigits2 i <= 50) as Hdi by (apply Zdigits2_le; lia).
    destruct (float_of_int_spec i) as (mi & ei & Ei & Hei & Hvi & Hdgi); [lia | lia | ].
    replace (i <? 0) with false in Ei by (symmetry; apply Z.ltb_ge; lia).
    rewrite Z.abs_eq in Hvi by lia.
    pose proof (float_of_int_below i mi ei Hipos ltac:(lia) Ei) as Hli.
    pose proof (Zdigits2_pos (Zpos mi) ltac:(lia)) as Hpi.
    pose proof (Zdigits2_pos (Zpos mq) ltac:(lia)) as Hpq.
    pose proof (Zdigits2_pos i Hipos) as Hpi'.
    destruct (mul_spec mi ei mq eq) as (mp & ep & Ep & Hvp); [lia | lia | ].
    pose proof (mul_below mi ei mq eq mp ep ltac:(lia) ltac:(lia) Ep) as Hlp.
    unfold pick, int_mul_float in Hv. rewrite Ei in Hv. cbn [bind ret] in Hv.
    rewrite Ep in Hv.
    destruct (int_of_float_nonneg mp ep) as (v' & Ev & Hv0 & Hvv).
    pose proof (int_of_float_above mp ep v Hv) as Hva.
    rewrite Hv in Ev. injection Ev as <-.
    pose proof (F2Q_nonneg (Zpos mi) ei ltac:(lia)) as Hnni.
    pose proof (F2Q_nonneg (Zpos mp) ep ltac:(lia)) as Hnnp.
    fold Fq in Hvp, Hlp.
    set (Fi := F2Q (Zpos mi) ei) in *. set (Fp := F2Q (Zpos mp) ep) in *.
    pose proof (inject_Z_nonneg i ltac:(lia)) as Hiq.
    assert (Fi * Fq <= inject_Z i * (1 + eps) * Fq)%Q as H1
      by (apply Qmult_le_compat_r; assumption).
    assert (inject_Z i * Fq <= Fi * (1 + eps) * Fq)%Q as H2
      by (apply Qmult_le_compat_r; assumption).
    assert (Fi * Fq * (1 + eps) <= Fp * (1 + eps) * (1 + eps))%Q as H3
      by (apply Qmult_le_compat_r; [assumption | unfold eps; lra]).
    assert (Fp * ((1 + eps) * (1 + eps)) <= (inject_Z v + 1) * ((1 + eps) * (1 + eps)))%Q as H4
      by (apply Qmult_le_compat_r; [lra | unfold eps; lra]).
    assert (Fi * Fq * (1 + eps) <= inject_Z i * (1 + eps) * Fq * (1 + eps))%Q as H5
      by (apply Qmult_le_compat_r; [assumption | unfold eps; lra]).
    split.
    + apply Qle_trans with Fp; [assumption | ].
      apply Qle_trans with (Fi * Fq * (1 + eps))%Q; [assumption | ].
      apply Qle_trans with (inject_Z i * (1 + eps) * Fq * (1 + eps))%Q; [assumption | ].
      apply Qle_lteq. right. ring.
    + apply Qle_trans with (Fi * (1 + eps) * Fq)%Q; [assumption | ].
      setoid_replace (Fi * (1 + eps) * Fq)%Q with (Fi * Fq * (1 + eps))%Q by ring.
      apply Qle_trans with (Fp * (1 + eps) * (1 + eps))%Q; [assumption | ].
      setoid_replace (Fp * (1 + eps) * (1 + eps))%Q
        with (Fp * ((1 + eps) * (1 + eps)))%Q by ring.
      assumption.
Qed.

(** For at most [2^24] samples the picked index grows with [i]. *)
Lemma pick_increasing (T S a b : Z) (step : float) (va vb : Z) :
  0 < S -> S < T -> S <= 2 ^ 24 -> T < 2 ^ 900 ->
  int_truediv T S = inr step -> 0 <= a -> a < b -> b < S ->
  pick step a = inr va -> pick step b = inr vb -> va < vb.
Proof.
  intros HS HST HS24 HT900 Hstep Ha Hab Hb Hva Hvb.
  assert (2 ^ 24 < 2 ^ 50) as Hpow by reflexivity.
  assert (Zdigits2 T <= 900) as HdT by (apply Zdigits2_le; lia).
  destruct (int_truediv_spec T S HS HST) as (mq & eq & Eq & _); [lia | ].
  rewrite Eq in Hstep. injection Hstep as <-.
  pose proof (int_truediv_below T S mq eq HS HST ltac:(lia) Eq) as Hq.
  destruct (pick_two_sided T S a mq eq va HS HST ltac:(lia) HT900 Eq ltac:(lia) Hva)
    as [HA _].
  destruct (pick_two_sided T S b mq eq vb HS HST ltac:(lia) HT900 Eq ltac:(lia) Hvb)
    as [_ HB].
  pose proof (F2Q_nonneg (Zpos mq) eq ltac:(lia)) as Hnnq.
  set (Fq := F2Q (Zpos mq) eq) in *.
  destruct (Z_lt_le_dec va vb) as [ | Hle]; [assumption | exfalso].
  assert (inject_Z vb <= inject_Z va)%Q as Hvle by (rewrite <- Zle_Qle; assumption).
  assert (inject_Z a + 1 <= inject_Z b)%Q as Hab'.
  { setoid_replace (inject_Z a + 1)%Q with (inject_Z (a + 1))
      by (rewrite inject_Z_plus; reflexivity).
    rewrite <- Zle_Qle. lia. }
  assert (inject_Z S + 1 <= inject_Z T)%Q as HST'.
  { setoid_replace (inject_Z S + 1)%Q with (inject_Z (S + 1))
      by (rewrite inject_Z_plus; reflexivity).
    rewrite <- Zle_Qle. lia. }
  assert (1 <= inject_Z S <= 16777216)%Q as HSq.
  { change 1%Q with (inject_Z 1). change 16777216%Q with (inject_Z (2 ^ 24)).
    rewrite <- !Zle_Qle. lia. }
  pose proof (inject_Z_nonneg a Ha) as Haq.
  assert (inject_Z a <= inject_Z S)%Q as HaS by (rewrite <- Zle_Qle; lia).
  set (X := (inject_Z a * Fq)%Q) in *.
  set (Y := (Fq * inject_Z S)%Q) in *.
  assert (0 <= X)%Q as HX by (apply Qmult_le_0_compat; assumption).
  assert (0 <= Y)%Q as HY by (apply Qmult_le_0_compat; [assumption | lra]).
  assert (X + Fq <= inject_Z b * Fq)%Q as Hstepb.
  { setoid_replace (X + Fq)%Q with ((inject_Z a + 1) * Fq)%Q by (unfold X; ring).
    apply Qmult_le_compat_r; assumption. }
  (* Fq <= X * (u^4 - 1) + u^2 *)
  assert (Fq <= X * ((1 + eps) * (1 + eps) * ((1 + eps) * (1 + eps)) - 1)
                + (1 + eps) * (1 + eps))%Q as HFq.
  { assert ((inject_Z vb + 1) * ((1 + eps) * (1 + eps))
            <= (X * ((1 + eps) * (1 + eps)) + 1) * ((1 + eps) * (1 + eps)))%Q as Hm.
    { apply Qmult_le_compat_r; [lra | unfold eps; lra]. }
    assert ((X * ((1 + eps) * (1 + eps)) + 1) * ((1 + eps) * (1 + eps))
            == X * ((1 + eps) * (1 + eps) * ((1 + eps) * (1 + eps)))
               + (1 + eps) * (1 + eps))%Q as Hring by ring.
    rewrite Hring in Hm. lra. }
  (* times S *)
  assert (X * inject_Z S <= 16777216 * Y)%Q as HXS.
  { setoid_replace (X * inject_Z S)%Q with (inject_Z a * Y)%Q by (unfold X, Y; ring).
    apply Qmult_le_compat_r; [lra | assumption]. }
  assert (Y <= (X * ((1 + eps) * (1 + eps) * ((1 + eps) * (1 + eps)) - 1)
                + (1 + eps) * (1 + eps)) * inject_Z S)%Q as HYS.
  { unfold Y at 1. apply Qmult_le_compat_r; [assumption | lra]. }
  assert ((X * ((1 + eps) * (1 + eps) * ((1 + eps) * (1 + eps)) - 1)
           + (1 + eps) * (1 + eps)) * inject_Z S
          == (X * inject_Z S) * ((1 + eps) * (1 + eps) * ((1 + eps) * (1 + eps)) - 1)
             + (1 + eps) * (1 + eps) * inject_Z S)%Q as Hring by ring.
  rewrite Hring in HYS. clear Hring.
  assert ((X * inject_Z S) * ((1 + eps) * (1 + eps) * ((1 + eps) * (1 + eps)) - 1)
          <= (16777216 * Y) * ((1 + eps) * (1 + eps) * ((1 + eps) * (1 + eps)) - 1))%Q
    as Hscale.
  { apply Qmult_le_compat_r; [assumption | unfold eps; lra]. }
  assert (inject_Z T <= Y * (1 + eps))%Q as HTY by (unfold Y; assumption).
  unfold eps in *. lra.
Qed.

End Spacing.

(** ** The shape of the selector's output, whatever the sizes *)

Module Shape.

Import ListFacts Observe.

Lemma round_aux_sign (s : bool) (m e : Z) (l : location) :
  match binary_round_aux prec emax s m e l with
  | S754_zero s' | S754_infinity s' | S754_finite s' _ _ => s' = s
  | S754_nan => True
  end.
Proof.
  unfold binary_round_aux.
  destruct (shr_fexp prec emax m e l) as [r1 e1].
  destruct (shr_fexp prec emax _ e1 loc_Exact) as [r2 e2].
  destruct (shr_m r2); try exact I; try reflexivity.
  destruct (e2 <=? emax - prec); reflexivity.
Qed.

Lemma float_of_int_sign_clear (i : Z) (f : float) :
  0 <= i -> float_of_int i = inr f -> sign_clear f = true.
Proof.
  intros Hi. unfold float_of_int, binary_normalize.
  destruct i as [ | p | p]; try lia.
  - intros E. injection E as <-. reflexivity.
  - unfold binary_round.
    destruct (shl_align p 0 _) as [mz ez].
    pose proof (round_aux_sign false (Zpos mz) ez loc_Exact) as H.
    destruct (binary_round_aux prec emax false (Zpos mz) ez loc_Exact);
      cbn [checked ret raise]; intros E; try discriminate; injection E as <-;
      cbn [sign_clear]; try rewrite H; reflexivity.
Qed.

Lemma int_truediv_sign_clear (a b : Z) (f : float) :
  0 < a -> 0 < b -> int_truediv a b = inr f -> sign_clear f = true.
Proof.
  intros Ha Hb. unfold int_truediv.
  destruct a as [ | pa | pa]; try lia. destruct b as [ | pb | pb]; try lia.
  destruct (SFdiv_core_binary prec emax (Z.abs (Zpos pa)) 0 (Z.abs (Zpos pb)) 0)
    as [[mz ez] lz].
  replace (xorb (Zpos pa <? 0) (Zpos pb <? 0)) with false by reflexivity.
  pose proof (round_aux_sign false mz ez lz) as H.
  destruct (binary_round_aux prec emax false mz ez lz);
    cbn [checked ret raise]; intros E; try discriminate; injection E as <-;
    cbn [sign_clear]; try rewrite H; reflexivity.
Qed.

Lemma mul_sign_clear (x y : float) :
  sign_clear x = true -> sign_clear y = true -> sign_clear (SFmul prec emax x y) = true.
Proof.
  destruct x as [sx | sx | | sx mx ex], y as [sy | sy | | sy my ey];
    cbn [sign_clear SFmul]; intros Hx Hy; try reflexivity;
    apply negb_true_iff in Hx; apply negb_true_iff in Hy; subst; try reflexivity.
  pose proof (round_aux_sign (xorb false false) (Zpos (mx * my)) (ex + ey) loc_Exact) as H.
  destruct (binary_round_aux prec emax (xorb false false) (Zpos (mx * my)) (ex + ey)
              loc_Exact); cbn [sign_clear]; try rewrite H; reflexivity.
Qed.

Lemma int_of_float_sign_clear (x : float) (v : Z) :
  sign_clear x = true -> int_of_float x = inr v -> 0 <= v.
Proof.
  destruct x as [s | s | | s m e]; cbn [sign_clear int_of_float ret raise];
    intros Hs E; try discriminate; injection E as <-; [lia | ].
  apply negb_true_iff in Hs. subst. apply Z.shiftl_nonneg. lia.
Qed.

(** What is picked is never negative, and for [i = 0] it is [0]. *)
Lemma pick_nonneg (step : float) (i v : Z) :
  sign_clear step = true -> 0 <= i -> pick step i = inr v -> 0 <= v.
Proof.
  intros Hstep Hi. unfold pick, int_mul_float.
  destruct (float_of_int i) as [e | f] eqn:Ef; cbn [bind ret]; [discriminate | ].
  apply int_of_float_sign_clear, mul_sign_clear; [ | assumption].
  apply (float_of_int_sign_clear i); assumption.
Qed.

Lemma pick_zero (step : float) (v : Z) : pick step 0 = inr v -> v = 0.
Proof.
  unfold pick, int_mul_float. cbn [float_of_int binary_normalize checked bind ret].
  destruct step as [s | s | | s m e]; cbn; intros E; try discriminate;
    injection E as <-; reflexivity.
Qed.

(** A comprehension over an increasing list by an increasing function is
    increasing. *)
Lemma mapM_sorted (f : Z -> result Z) (l ys : list Z) :
  (forall a b va vb,
      In a l -> In b l -> a < b -> f a = inr va -> f b = inr vb -> va < vb) ->
  StronglySorted Z.lt l -> mapM f l = inr ys -> StronglySorted Z.lt ys.
Proof.
  revert ys. induction l as [ | a l IH]; intros ys Hmono Hs E.
  - cbn in E. injection E as <-. constructor.
  - cbn [mapM] in E. destruct (f a) as [e | va] eqn:Ea; cbn [bind] in E; [discriminate | ].
    destruct (mapM f l) as [e | vs] eqn:El; cbn [bind ret] in E; [discriminate | ].
    injection E as <-. apply StronglySorted_inv in Hs. destruct Hs as [Hs Hall].
    constructor.
    + apply IH; [ | assumption | reflexivity].
      intros x y vx vy Hx Hy. apply Hmono; right; assumption.
    + apply Forall_forall. intros vb Hvb.
      assert (exists b, In b l /\ f b = inr vb) as (b & Hb & Eb).
      { clear - El Hvb. revert vs El Hvb. induction l as [ | c l IH]; intros vs El Hvb.
        - cbn in El. injection El as <-. destruct Hvb.
        - cbn [mapM] in El. destruct (f c) as [e | vc] eqn:Ec; cbn [bind] in El;
            [discriminate | ].
          destruct (mapM f l) as [e | ws]; cbn [bind ret] in El; [discriminate | ].
          injection El as <-. destruct Hvb as [<- | Hvb].
          + exists c. split; [left; reflexivity | assumption].
          + destruct (IH ws eq_refl Hvb) as (b & Hb & Eb).
            exists b. split; [right; assumption | assumption]. }
      rewrite Forall_forall in Hall.
      apply (Hmono a b va vb); [left; reflexivity | right; assumption | | | ]; auto.
Qed.

(** [sorted(set(l))] of a strictly increasing list is the list. *)
Lemma sorted_set_fixed (l : list Z) : StronglySorted Z.lt l -> sorted (set l) = l.
Proof.
  intros Hs.
  assert (NoDup l) as Hnd.
  { induction Hs as [ | a l Hs IH Hall]; constructor; [ | assumption].
    intros Hin. rewrite Forall_forall in Hall. specialize (Hall a Hin). lia. }
  unfold set. rewrite (nodup_fixed_point Z.eq_dec Hnd).
  clear Hnd. induction Hs as [ | a l Hs IH Hall]; [reflexivity | ].
  cbn [sorted fold_right]. fold (sorted l). rewrite IH.
  destruct l as [ | b l]; [reflexivity | ].
  cbn [insert]. inversion Hall as [ | ? ? Hab _]; subst.
  replace (a <=? b) with true by (symmetry; apply Z.leb_le; lia). reflexivity.
Qed.

(** The head of a strictly increasing list of non-negative integers that
    contains [0] is [0]. *)
Lemma sorted_head_zero (l : list Z) :
  StronglySorted Z.lt l -> Forall (fun x => 0 <= x) l -> In 0 l -> hd_error l = Some 0.
Proof.
  intros Hs Hall Hin. destruct l as [ | a l]; [destruct Hin | ].
  cbn [hd_error]. f_equal. inversion Hall as [ | ? ? Ha _]; subst.
  destruct Hin as [-> | Hin]; [reflexivity | ].
  apply StronglySorted_inv in Hs. destruct Hs as [_ Hgt].
  rewrite Forall_forall in Hgt. specialize (Hgt 0 Hin). lia.
Qed.

End Shape.

Module SelectorShape.

Import ListFacts Rounding Selector Shape Observe.

Lemma mapM_Forall {A B : Type} (f : A -> result B) (P : B -> Prop) (l : list A)
  (ys : list B) :
  (forall x y, In x l -> f x = inr y -> P y) -> mapM f l = inr ys -> Forall P ys.
Proof.
  revert ys. induction l as [ | a l IH]; intros ys HP E.
  - cbn in E. injection E as <-. constructor.
  - cbn [mapM] in E. destruct (f a) as [e | b] eqn:Ea; cbn [bind] in E; [discriminate | ].
    destruct (mapM f l) as [e | bs] eqn:El; cbn [bind ret] in E; [discriminate | ].
    injection E as <-. constructor.
    + apply (HP a); [left; reflexivity | assumption].
    + apply IH; [ | reflexivity]. intros x y Hx. apply HP. right. assumption.
Qed.

Lemma mapM_length {A B : Type} (f : A -> result B) (l : list A) (ys : list B) :
  mapM f l = inr ys -> List.length ys = List.length l.
Proof.
  revert ys. induction l as [ | a l IH]; intros ys E.
  - cbn in E. injection E as <-. reflexivity.
  - cbn [mapM] in E. destruct (f a) as [e | b]; cbn [bind] in E; [discriminate | ].
    destruct (mapM f l) as [e | bs]; cbn [bind ret] in E; [discriminate | ].
    injection E as <-. cbn [List.length]. f_equal. apply IH. reflexivity.
Qed.

(** Whenever the selector returns: order, sign, count, and frame [0]. *)
Lemma selected (total_frames samples : Z) (l : list Z) :
  _frame_indices total_frames samples = inr l ->
  StronglySorted Z.lt l
  /\ Forall (fun x => 0 <= x) l
  /\ Z.of_nat (List.length l) <= Z.max 0 (Z.min total_frames samples)
  /\ (0 < total_frames -> 0 < samples -> In 0 l).
Proof.
  intros E.
  unfold _frame_indices in E.
  destruct (total_frames <=? 0) eqn:HT; [ | destruct (samples <=? 0) eqn:HS];
    cbn [orb ret] in E.
  - injection E as <-. apply Z.leb_le in HT.
    repeat split; [constructor | constructor | cbn; lia | lia].
  - injection E as <-. apply Z.leb_le in HS.
    repeat split; [constructor | constructor | cbn; lia | lia].
  - apply Z.leb_gt in HT, HS. destruct (samples >=? total_frames) eqn:Hge.
    + injection E as <-. rewrite Z.geb_leb in Hge. apply Z.leb_le in Hge.
      repeat split.
      * apply ListFacts.range_sorted.
      * apply Forall_forall. intros x Hx. apply ListFacts.In_range in Hx. lia.
      * rewrite ListFacts.length_range. lia.
      * intros _ _. apply ListFacts.In_range. lia.
    + rewrite Z.geb_leb in Hge. apply Z.leb_gt in Hge.
      destruct (int_truediv total_frames samples) as [e | step] eqn:Estep;
        cbn [bind] in E; [discriminate | ].
      destruct (mapM (pick step) (range samples)) as [e | s] eqn:Es;
        cbn [bind ret] in E; [discriminate | ].
      injection E as <-.
      pose proof (Shape.int_truediv_sign_clear _ _ _ HT HS Estep) as Hsign.
      destruct (ListFacts.sorted_set_spec s) as (Hsorted & Hin & Hlen).
      pose proof (SelectorShape.mapM_length _ _ _ Es) as Hls.
      rewrite ListFacts.length_range in Hls.
      repeat split.
      * assumption.
      * apply Forall_forall. intros x Hx. apply Hin in Hx.
        pose proof (SelectorShape.mapM_Forall (pick step) (fun v => 0 <= v)
                      (range samples) s) as HF.
        rewrite Forall_forall in HF. apply HF; [ | assumption | assumption].
        intros i v Hi Ev. apply ListFacts.In_range in Hi.
        apply (Shape.pick_nonneg step i v); [assumption | lia | assumption].
      * lia.
      * intros _ _. apply Hin.
        destruct (ListFacts.mapM_In (pick step) (range samples) s 0 Es)
          as (y & Ey & Hy); [apply ListFacts.In_range; lia | ].
        apply Shape.pick_zero in Ey. subst. assumption.
Qed.

(** Below [2^24] samples the comprehension needs neither [set] nor
    [sorted]: it is the output as it stands. *)
Lemma comprehension_kept (total_frames samples : Z) (step : float) (ys : list Z) :
  0 < samples -> samples < total_frames -> samples <= 2 ^ 24 ->
  total_frames < 2 ^ 900 ->
  int_truediv total_frames samples = inr step ->
  mapM (pick step) (range samples) = inr ys ->
  _frame_indices total_frames samples = inr ys.
Proof.
  intros HS HST H24 HT Estep Eys.
  rewrite Selector.frame_indices_unfold by lia. rewrite Estep. cbn [bind].
  rewrite Eys. cbn [bind]. unfold ret. f_equal.
  apply Shape.sorted_set_fixed.
  apply (Shape.mapM_sorted (pick step) (range samples));
    [ | apply ListFacts.range_sorted | assumption].
  intros a b va vb Ha Hb Hab Ea Eb.
  apply ListFacts.In_range in Ha, Hb.
  apply (Spacing.pick_increasing total_frames samples a b step);
    try assumption; lia.
Qed.

(** The element of a comprehension at a position. *)
Lemma mapM_nth {A B : Type} (f : A -> result B) (l : list A) (ys : list B)
    (k : nat) (x : A) :
  mapM f l = inr ys -> nth_error l k = Some x ->
  exists y, f x = inr y /\ nth_error ys k = Some y.
Proof.
  revert ys k. induction l as [ | a l IH]; intros ys k E Hk.
  - destruct k; discriminate.
  - cbn [mapM] in E. destruct (f a) as [e | b] eqn:Ea; cbn [bind] in E; [discriminate | ].
    destruct (mapM f l) as [e | bs] eqn:El; cbn [bind ret] in E; [discriminate | ].
    injection E as <-. destruct k as [ | k]; cbn [nth_error] in *.
    + injection Hk as <-. exists b. split; [assumption | reflexivity].
    + apply (IH bs k eq_refl Hk).
Qed.

Lemma nth_range (n i : Z) : 0 <= i < n -> nth_error (range n) (Z.to_nat i) = Some i.
Proof.
  intros Hi. unfold range.
  rewrite (map_nth_error Z.of_nat (Z.to_nat i) (seq 0 (Z.to_nat n)) (d := Z.to_nat i)).
  - f_equal. lia.
  - rewrite (nth_error_nth' _ 0%nat) by (rewrite length_seq; lia).
    rewrite seq_nth by lia. reflexivity.
Qed.

End SelectorShape.

(** X1: whenever the selector returns, whatever the sizes, the list is
    strictly increasing, has no negative element, has at most
    [min(total_frames, samples)] elements, is empty exactly when one of the
    two arguments is not positive, and otherwise starts with frame [0]. *)
Theorem frame_indices_shape (total_frames samples : Z) (l : list Z) :
  _frame_indices total_frames samples = inr l ->
  StronglySorted Z.lt l
  /\ Forall (fun x => 0 <= x) l
  /\ Z.of_nat (List.length l) <= Z.max 0 (Z.min total_frames samples)
  /\ (l = [] <-> total_frames <= 0 \/ samples <= 0)
  /\ (0 < total_frames -> 0 < samples -> hd_error l = Some 0).
Proof.
  intros E.
  destruct (SelectorShape.selected _ _ _ E) as (Hs & Hall & Hlen & Hz).
  repeat split; try assumption.
  - intros ->. destruct (Z_le_gt_dec total_frames 0) as [ | HT]; [left; assumption | ].
    destruct (Z_le_gt_dec samples 0) as [ | HS]; [right; assumption | ].
    destruct Hz; lia.
  - intros Hor. destruct l as [ | x l]; [reflexivity | ].
    cbn [List.length] in Hlen. lia.
  - intros HT HS. apply Shape.sorted_head_zero; auto.
Qed.

(** The shape at thirty frames and twenty-two samples. *)
Lemma frame_indices_shape_witness :
  exists l,
    _frame_indices 30 22 = inr l
    /\ StronglySorted Z.lt l
    /\ Z.of_nat (List.length l) <= 22
    /\ hd_error l = Some 0.
Proof.
  eexists. split; [vm_compute; reflexivity | ].
  pose proof (frame_indices_shape 30 22 _ ltac:(vm_compute; reflexivity))
    as (Hs & _ & Hlen & _ & Hhd).
  split; [exact Hs | split; [exact Hlen | apply Hhd; lia]].
Defined.

(** X2: below [2^24] samples and [2^900] frames, a down-sampled selection
    returns, loses nothing to de-duplication and is already in order: the
    output is the comprehension [int(i * step)] itself, one index per
    sample. *)
Theorem frame_indices_full_count (total_frames samples : Z) :
  0 < samples -> samples < total_frames -> samples <= 2 ^ 24 ->
  total_frames < 2 ^ 900 ->
  exists step l,
    int_truediv total_frames samples = inr step
    /\ mapM (pick step) (range samples) = inr l
    /\ _frame_indices total_frames samples = inr l
    /\ Z.of_nat (List.length l) = samples.
Proof.
  intros HS HST H24 HT.
  assert (2 ^ 24 <= 2 ^ 50) as Hpow by (apply Z.pow_le_mono_r; lia).
  destruct (Rounding.int_truediv_spec total_frames samples) as (mq & eq & Eq & _);
    [lia | lia | apply Rounding.Zdigits2_le; lia | ].
  destruct (ListFacts.mapM_inr (pick (S754_finite false mq eq))
              (fun v => 0 <= v < total_frames) (range samples))
    as (ys & Eys & _ & Hlen).
  { intros i Hi. apply ListFacts.In_range in Hi.
    apply (Rounding.sample_index_bound total_frames samples i); try lia. assumption. }
  exists (S754_finite false mq eq), ys.
  rewrite ListFacts.length_range in Hlen.
  split; [assumption | split; [assumption | split; [ | lia]]].
  apply (SelectorShape.comprehension_kept _ _ (S754_finite false mq eq)); assumption.
Qed.

(** Three hundred frames, twenty samples. *)
Lemma frame_indices_full_count_witness :
  exists step l,
    int_truediv 300 20 = inr step
    /\ mapM (pick step) (range 20) = inr l
    /\ _frame_indices 300 20 = inr l
    /\ Z.of_nat (List.length l) = 20.
Proof.
  apply (frame_indices_full_count 300 20); [lia | lia | | ].
  - apply Z.leb_le. vm_compute. reflexivity.
  - apply Z.ltb_lt. vm_compute. reflexivity.
Defined.

(** ** What the extractor returns *)

Module Frames.

Import Video Observe Cases.

Lemma subsequence_refl {A : Type} (l : list A) : subsequence l l.
Proof. induction l; constructor; assumption. Qed.

Lemma subsequence_In {A : Type} (l l' : list A) (x : A) :
  subsequence l l' -> In x l -> In x l'.
Proof.
  induction 1 as [ | y l l' _ IH | y l l' _ IH]; intros Hin.
  - assumption.
  - right. apply IH. assumption.
  - destruct Hin as [<- | Hin]; [left; reflexivity | right; apply IH; assumption].
Qed.

Lemma subsequence_Forall {A : Type} (P : A -> Prop) (l l' : list A) :
  subsequence l l' -> Forall P l' -> Forall P l.
Proof.
  intros Hsub Hall. rewrite Forall_forall in *.
  intros x Hx. apply Hall. apply (subsequence_In l); assumption.
Qed.

Lemma subsequence_length {A : Type} (l l' : list A) :
  subsequence l l' -> (List.length l <= List.length l')%nat.
Proof. induction 1; cbn [List.length]; lia. Qed.

Lemma subsequence_sorted (l l' : list Z) :
  subsequence l l' -> StronglySorted Z.lt l' -> StronglySorted Z.lt l.
Proof.
  induction 1 as [ | y l l' Hsub IH | y l l' Hsub IH]; intros Hs.
  - constructor.
  - apply StronglySorted_inv in Hs. apply IH, Hs.
  - apply StronglySorted_inv in Hs. destruct Hs as [Hs Hall].
    constructor; [apply IH; assumption | ].
    apply (subsequence_Forall _ l l'); assumption.
Qed.

Lemma startswith_app (p s : str) : Endpoint.startswith (p ++ s) p = true.
Proof.
  induction p as [ | c p IH]; [destruct s; reflexivity | ].
  cbn [app Endpoint.startswith]. rewrite N.eqb_refl. exact IH.
Qed.

Lemma float_or_bool (x : float) :
  float_bool (float_or (Some x) fzero) = float_bool x.
Proof. unfold float_or. destruct (float_bool x) eqn:E; [assumption | reflexivity]. Qed.

Section Loop.

Context {Capture Frame Buffer : Type}.
Variable cap_set : Capture -> CapProp -> Z -> Capture.
Variable cap_read : Capture -> option Frame * Capture.
Variable imencode : str -> Frame -> bool * Buffer.
Variable b64encode : Buffer -> str.

(** What holds of a frame sample built at frame rate [fps]. *)
Local Abbreviation built fps :=
  (fun f : FrameSample =>
     Endpoint.startswith (data_url f) jpeg_prefix = true
     /\ (float_bool fps = false -> timestamp_sec f = None)
     /\ (float_bool fps = true ->
         exists t, timestamp_sec f = Some t /\ int_div_float (index f) fps = inr t)).

(** Whenever the loop returns, it has appended to the list it started with
    frame samples at some of the indices, in the order of the indices. *)
Lemma extract_loop_inv (fps : float) (indices : list Z) :
  forall (cap : Capture) (samples out : list FrameSample),
    extract_loop cap_set cap_read imencode b64encode cap fps indices samples = inr out ->
    exists new,
      out = samples ++ new
      /\ subsequence (map index new) indices
      /\ Forall (built fps) new.
Proof.
  induction indices as [ | idx rest IH]; intros cap samples out E.
  - cbn in E. injection E as <-. exists []. rewrite app_nil_r.
    repeat split; constructor.
  - cbn [extract_loop] in E.
    destruct (cap_read (cap_set cap CAP_PROP_POS_FRAMES idx)) as [[frame | ] cap'].
    + destruct (if float_bool fps
                then t <- int_div_float idx fps ;; ret (Some t)
                else ret None) as [e | timestamp] eqn:Et; cbn [bind] in E;
        [discriminate | ].
      unfold _encode_frame in E.
      destruct (imencode (lit ".jpg") frame) as [[ | ] buffer]; cbn [negb raise ret] in E.
      * destruct (IH _ _ _ E) as (new & -> & Hsub & Hall).
        eexists (_ :: new). rewrite <- app_assoc. split; [reflexivity | ].
        split; [cbn [map index]; constructor; assumption | ].
        constructor; [ | assumption]. cbn [data_url timestamp_sec index].
        split; [apply startswith_app | ].
        destruct (float_bool fps); split; try discriminate.
        -- intros _. destruct (int_div_float idx fps) as [e | t]; cbn [bind ret] in Et;
             [discriminate | ].
           injection Et as <-. exists t. split; reflexivity.
        -- intros _. cbn [ret] in Et. injection Et as <-. reflexivity.
      * destruct (IH _ _ _ E) as (new & -> & Hsub & Hall).
        exists new. repeat split; [constructor | ]; assumption.
    + destruct (IH _ _ _ E) as (new & -> & Hsub & Hall).
      exists new. repeat split; [constructor | ]; assumption.
Qed.

Context {Path : Type}.
Variable VideoCapture : Path -> Capture.
Variable isOpened : Capture -> bool.
Variable cap_get : Capture -> CapProp -> float.

Lemma sample_video_frames_inv (video_path : Path) (sample_count : Z)
    (indices : option (list Z)) (frames : list FrameSample) :
  sample_video_frames VideoCapture isOpened cap_get cap_set cap_read imencode b64encode
    video_path sample_count indices = inr frames ->
  let cap := VideoCapture video_path in
  isOpened cap = true
  /\ exists total used,
      int_of_float (cap_get cap CAP_PROP_FRAME_COUNT) = inr total
      /\ indices_or indices total sample_count = inr used
      /\ subsequence (map index frames) used
      /\ Forall (built (cap_get cap CAP_PROP_FPS)) frames.
Proof.
  intros E. unfold sample_video_frames in E. cbv zeta in *.
  set (cap := VideoCapture video_path) in *.
  destruct (isOpened cap); cbn [negb] in E; [ | discriminate].
  split; [reflexivity | ].
  destruct (int_of_float (cap_get cap CAP_PROP_FRAME_COUNT)) as [e | total] eqn:Et;
    cbn [bind] in E; [discriminate | ].
  destruct (indices_or indices total sample_count) as [e | used] eqn:Eu; cbn [bind] in E;
    [discriminate | ].
  destruct (extract_loop_inv _ _ _ _ _ E) as (new & -> & Hsub & Hall).
  exists total, used. cbn [app].
  split; [reflexivity | split; [assumption | split; [assumption | ]]].
  apply Forall_forall. intros f Hf. rewrite Forall_forall in Hall.
  destruct (Hall f Hf) as (Hurl & Hnone & Hsome).
  rewrite float_or_bool in Hnone, Hsome.
  split; [assumption | split; [assumption | ]].
  intros Hb. destruct (Hsome Hb) as (t & Ht & Ediv). exists t. split; [assumption | ].
  unfold float_or in Ediv. rewrite Hb in Ediv. assumption.
Qed.

End Loop.

(** With a timestamp on every frame, or on none, the timestamps kept are as
    many as the frames, or none. *)
Lemma known_timestamps_length (frames : list FrameSample) :
  (Forall (fun f => timestamp_sec f <> None) frames ->
   List.length (Service.known_timestamps frames) = List.length frames)
  /\ (Forall (fun f => timestamp_sec f = None) frames ->
      Service.known_timestamps frames = []).
Proof.
  split; induction 1 as [ | f frames Hf _ IH]; cbn [Service.known_timestamps List.length];
    try reflexivity.
  - destruct (timestamp_sec f); [cbn [List.length]; congruence | contradiction].
  - rewrite Hf. assumption.
Qed.

End Frames.

(** ** What the reader returns *)

Module Reader.

Import Video Observe Rounding.

Lemma shr_fexp_nonneg (m e : Z) (l : location) :
  0 <= m -> 0 <= shr_m (fst (shr_fexp prec emax m e l)).
Proof.
  intros Hm. unfold shr_fexp, shr.
  destruct (fexp prec emax (Zdigits2 m + e) - e) as [ | p | p]; cbn [fst];
    try (rewrite shr_m_of_loc; assumption).
  rewrite shr_iter_m by (rewrite shr_m_of_loc; assumption).
  rewrite shr_m_of_loc. apply Z.div_pos; [assumption | ].
  apply Z.pow_pos_nonneg; lia.
Qed.

(** Rounding a mantissa that is not negative never gives NaN. *)
Lemma round_aux_not_nan (s : bool) (m e : Z) (l : location) :
  0 <= m -> binary_round_aux prec emax s m e l <> S754_nan.
Proof.
  intros Hm. unfold binary_round_aux.
  pose proof (shr_fexp_nonneg m e l Hm) as H1.
  destruct (shr_fexp prec emax m e l) as [r1 e1]. cbn [fst] in H1.
  pose proof (round_nearest_even_bounds (shr_m r1) (loc_of_shr_record r1)) as Hr.
  pose proof (shr_fexp_nonneg (round_nearest_even (shr_m r1) (loc_of_shr_record r1))
                e1 loc_Exact ltac:(lia)) as H2.
  destruct (shr_fexp prec emax _ e1 loc_Exact) as [r2 e2]. cbn [fst] in H2.
  destruct (shr_m r2) as [ | p | p]; try discriminate; [ | lia].
  destruct (e2 <=? emax - prec); discriminate.
Qed.

Lemma float_of_int_not_nan (i : Z) (f : float) :
  float_of_int i = inr f -> f <> S754_nan.
Proof.
  unfold float_of_int, binary_normalize.
  destruct i as [ | p | p].
  - intros E. injection E as <-. discriminate.
  - unfold binary_round. destruct (shl_align p 0 _) as [mz ez].
    pose proof (round_aux_not_nan false (Zpos mz) ez loc_Exact ltac:(lia)) as H.
    destruct (binary_round_aux prec emax false (Zpos mz) ez loc_Exact);
      cbn [checked ret raise]; intros E; try discriminate; injection E as <-;
      try discriminate. contradiction.
  - unfold binary_round. destruct (shl_align p 0 _) as [mz ez].
    pose proof (round_aux_not_nan true (Zpos mz) ez loc_Exact ltac:(lia)) as H.
    destruct (binary_round_aux prec emax true (Zpos mz) ez loc_Exact);
      cbn [checked ret raise]; intros E; try discriminate; injection E as <-;
      try discriminate. contradiction.
Qed.

Lemma float_of_int_finite (i : Z) (f : float) :
  float_of_int i = inr f ->
  match f with S754_zero _ | S754_finite _ _ _ => True | _ => False end.
Proof.
  intros E. pose proof (float_of_int_not_nan i f E) as Hn.
  unfold float_of_int, checked in E.
  destruct (binary_normalize prec emax i 0 false); try discriminate;
    injection E as <-; try exact I. contradiction.
Qed.

Lemma div_core_nonneg (m1 : positive) (e1 : Z) (m2 : positive) (e2 : Z) :
  0 <= fst (fst (SFdiv_core_binary prec emax (Zpos m1) e1 (Zpos m2) e2)).
Proof.
  unfold SFdiv_core_binary.
  set (s := e1 - e2 - _).
  set (m' := match s with Z0 => Zpos m1 | Zpos _ => Z.shiftl (Zpos m1) s | Zneg _ => 0 end).
  assert (0 <= m') as Hm'.
  { unfold m'. destruct s; try lia. apply Z.shiftl_nonneg. lia. }
  pose proof (Z.div_eucl_eq m' (Zpos m2) ltac:(lia)) as Heq.
  pose proof (Z.div_pos m' (Zpos m2) Hm' ltac:(lia)) as Hq.
  unfold Z.div in Hq.
  destruct (Z.div_eucl m' (Zpos m2)) as [q r]. cbn [fst] in *. assumption.
Qed.

(** The quotient of a float that came from an int by a float above zero is
    never NaN. *)
Lemma duration_not_nan (f rate : float) :
  match f with S754_zero _ | S754_finite _ _ _ => True | _ => False end ->
  float_gt0 rate = true -> SFdiv prec emax f rate <> S754_nan.
Proof.
  destruct f as [sf | sf | | sf mf ef]; try contradiction; intros _;
    destruct rate as [sr | sr | | sr mr er]; cbn; try discriminate.
  intros _.
  pose proof (div_core_nonneg mf ef mr er) as Hq.
  destruct (SFdiv_core_binary prec emax (Zpos mf) ef (Zpos mr) er) as [[q e] l].
  cbn [fst] in Hq. apply round_aux_not_nan. assumption.
Qed.

Lemma float_gt0_sign_clear (x : float) : float_gt0 x = true -> sign_clear x = true.
Proof. destruct x as [s | [ | ] | | [ | ] m e]; cbn; congruence. Qed.

Lemma div_sign_clear (x y : float) :
  sign_clear x = true -> sign_clear y = true -> sign_clear (SFdiv prec emax x y) = true.
Proof.
  destruct x as [sx | sx | | sx mx ex], y as [sy | sy | | sy my ey];
    cbn [sign_clear SFdiv]; intros Hx Hy; try reflexivity;
    apply negb_true_iff in Hx; apply negb_true_iff in Hy; subst; try reflexivity.
  destruct (SFdiv_core_binary prec emax (Zpos mx) ex (Zpos my) ey) as [[q e] l].
  pose proof (Shape.round_aux_sign (xorb false false) q e l) as H.
  destruct (binary_round_aux prec emax (xorb false false) q e l);
    cbn [sign_clear]; try rewrite H; reflexivity.
Qed.

Section Read.

Context {Path Capture : Type}.
Variable VideoCapture : Path -> Capture.
Variable isOpened : Capture -> bool.
Variable cap_get : Capture -> CapProp -> float.

(** What a returned metadata record was built from. *)
Lemma get_video_metadata_inv (video_path : Path) (metadata : VideoMetadata) :
  get_video_metadata VideoCapture isOpened cap_get video_path = inr metadata ->
  let cap := VideoCapture video_path in
  isOpened cap = true
  /\ int_of_float (cap_get cap CAP_PROP_FRAME_COUNT) = inr (frame_count metadata)
  /\ fps metadata = float_or (Some (cap_get cap CAP_PROP_FPS)) fzero
  /\ (float_gt0 (fps metadata) = false -> duration_sec metadata = None)
  /\ (float_gt0 (fps metadata) = true ->
      exists d, duration_sec metadata = Some d
                /\ int_div_float (frame_count metadata) (fps metadata) = inr d).
Proof.
  intros E. unfold get_video_metadata in E. cbv zeta in *.
  set (cap := VideoCapture video_path) in *.
  destruct (isOpened cap); cbn [negb] in E; [ | discriminate].
  destruct (int_of_float (cap_get cap CAP_PROP_FRAME_COUNT)) as [e | total];
    cbn [bind] in E; [discriminate | ].
  set (rate := float_or (Some (cap_get cap CAP_PROP_FPS)) fzero) in *.
  destruct (float_gt0 rate) eqn:Hgt.
  - destruct (int_div_float total rate) as [e | d] eqn:Ed; cbn [bind ret] in E;
      [discriminate | ].
    injection E as <-. cbn [frame_count fps duration_sec]. rewrite Hgt.
    repeat split; try discriminate.
    intros _. exists d. split; [reflexivity | assumption].
  - cbn [bind ret] in E. injection E as <-. cbn [frame_count fps duration_sec].
    rewrite Hgt. repeat split; discriminate.
Qed.

End Read.

End Reader.

(** X3: whenever the extractor returns, the frames it gives are at some of
    the indices it used, in the order of those indices: the indices passed
    to it when that list is not empty, else those the selector derives from
    the frame count the capture reports.  On derived indices the frames are
    at strictly increasing indices, none negative, and there are no more of
    them than [min(total_frames, sample_count)], or none. *)
Theorem extracted_indices_selected {Path Capture Frame Buffer : Type}
    (VideoCapture : Path -> Capture) (isOpened : Capture -> bool)
    (cap_get : Capture -> CapProp -> float)
    (cap_set : Capture -> CapProp -> Z -> Capture)
    (cap_read : Capture -> option Frame * Capture)
    (imencode : str -> Frame -> bool * Buffer) (b64encode : Buffer -> str)
    (video_path : Path) (sample_count : Z) (indices : option (list Z))
    (frames : list FrameSample) :
  sample_video_frames VideoCapture isOpened cap_get cap_set cap_read imencode b64encode
    video_path sample_count indices = inr frames ->
  exists total used,
    int_of_float (cap_get (VideoCapture video_path) CAP_PROP_FRAME_COUNT) = inr total
    /\ indices_or indices total sample_count = inr used
    /\ Observe.subsequence (map index frames) used
    /\ (List.length frames <= List.length used)%nat
    /\ (forall i l, indices = Some (i :: l) -> used = i :: l)
    /\ (indices = None \/ indices = Some [] ->
        StronglySorted Z.lt (map index frames)
        /\ Forall (fun x => 0 <= x) (map index frames)
        /\ Z.of_nat (List.length frames) <= Z.max 0 (Z.min total sample_count)).
Proof.
  intros E.
  destruct (Frames.sample_video_frames_inv _ _ _ _ _ _ _ _ _ _ _ E)
    as (_ & total & used & Ht & Eu & Hsub & _).
  exists total, used.
  pose proof (Frames.subsequence_length _ _ Hsub) as Hlen.
  rewrite length_map in Hlen.
  split; [assumption | split; [assumption | split; [assumption | split; [assumption | ]]]].
  split.
  - intros i l ->. cbn in Eu. injection Eu as <-. reflexivity.
  - intros Hnone.
    assert (_frame_indices total sample_count = inr used) as Esel
        by (destruct Hnone as [-> | ->]; exact Eu).
    destruct (SelectorShape.selected _ _ _ Esel) as (Hs & Hall & Hn & _).
    split; [apply (Frames.subsequence_sorted _ used); assumption | ].
    split; [apply (Frames.subsequence_Forall _ _ used); assumption | lia].
Qed.

(** On the six-frame clip, where frame 2 does not decode and frame 4 does
    not encode. *)
Lemma extracted_indices_selected_witness :
  exists used,
    Observe.subsequence (map index Demo.clip_frames) used
    /\ StronglySorted Z.lt (map index Demo.clip_frames).
Proof.
  destruct (extracted_indices_selected Demo.VideoCapture Demo.isOpened Demo.cap_get
              Demo.cap_set Demo.cap_read Demo.imencode Demo.b64encode
              Demo.clip 6 None Demo.clip_frames)
    as (total & used & _ & _ & Hsub & _ & _ & Hsorted).
  - vm_compute. reflexivity.
  - exists used. split; [exact Hsub | ].
    destruct Hsorted as (Hs & _); [left; reflexivity | exact Hs].
Defined.

(** X4: every frame sample the extractor returns carries a data URL that
    starts with [data:image/jpeg;base64,]; when the frame rate the capture
    reports is zero no sample has a timestamp, and otherwise (NaN included)
    every sample has one, the quotient of its index by the frame rate; so
    the timestamps the orchestrator keeps are as many as the frames, or
    none. *)
Theorem frame_samples_well_formed {Path Capture Frame Buffer : Type}
    (VideoCapture : Path -> Capture) (isOpened : Capture -> bool)
    (cap_get : Capture -> CapProp -> float)
    (cap_set : Capture -> CapProp -> Z -> Capture)
    (cap_read : Capture -> option Frame * Capture)
    (imencode : str -> Frame -> bool * Buffer) (b64encode : Buffer -> str)
    (video_path : Path) (sample_count : Z) (indices : option (list Z))
    (frames : list FrameSample) :
  sample_video_frames VideoCapture isOpened cap_get cap_set cap_read imencode b64encode
    video_path sample_count indices = inr frames ->
  let rate := cap_get (VideoCapture video_path) CAP_PROP_FPS in
  Forall (fun f => startswith (data_url f) Cases.jpeg_prefix = true) frames
  /\ (float_bool rate = false ->
      Forall (fun f => timestamp_sec f = None) frames
      /\ known_timestamps frames = [])
  /\ (float_bool rate = true ->
      Forall (fun f => exists t, timestamp_sec f = Some t
                                 /\ int_div_float (index f) rate = inr t) frames
      /\ List.length (known_timestamps frames) = List.length frames).
Proof.
  intros E rate.
  destruct (Frames.sample_video_frames_inv _ _ _ _ _ _ _ _ _ _ _ E)
    as (_ & total & used & _ & _ & _ & Hall).
  fold rate in Hall. rewrite Forall_forall in Hall.
  split; [ | split].
  - apply Forall_forall. intros f Hf. apply (Hall f Hf).
  - intros Hb.
    assert (Forall (fun f => timestamp_sec f = None) frames) as Hnone.
    { apply Forall_forall. intros f Hf. apply (Hall f Hf). assumption. }
    split; [assumption | ]. apply Frames.known_timestamps_length. assumption.
  - intros Hb.
    assert (Forall (fun f => exists t, timestamp_sec f = Some t
                                       /\ int_div_float (index f) rate = inr t) frames)
      as Hsome.
    { apply Forall_forall. intros f Hf. apply (Hall f Hf). assumption. }
    split; [assumption | ]. apply Frames.known_timestamps_length.
    apply Forall_forall. intros f Hf. rewrite Forall_forall in Hsome.
    destruct (Hsome f Hf) as (t & -> & _). discriminate.
Qed.

(** On the clip without a frame rate: two frames, no timestamp. *)
Lemma frame_samples_well_formed_witness :
  exists frames,
    Demo.sample_video_frames Cases.unrated 2 None = inr frames
    /\ List.length frames = 2%nat
    /\ Forall (fun f => startswith (data_url f) Cases.jpeg_prefix = true) frames
    /\ known_timestamps frames = [].
Proof.
  eexists. split; [vm_compute; reflexivity | ].
  split; [reflexivity | ].
  destruct (frame_samples_well_formed Demo.VideoCapture Demo.isOpened Demo.cap_get
              Demo.cap_set Demo.cap_read Demo.imencode Demo.b64encode
              Cases.unrated 2 None _ ltac:(vm_compute; reflexivity))
    as (Hurl & Hnone & _).
  split; [exact Hurl | ]. apply Hnone. reflexivity.
Defined.

(** X5: a metadata record the reader returns has as frame count the
    truncation of what the capture reports and as frame rate what it
    reports, [0.0] standing for a zero; its duration is present exactly when
    that frame rate is above zero, is then the quotient of the two, is never
    NaN, and is not negative unless the frame count is. *)
Theorem metadata_well_formed {Path Capture : Type}
    (VideoCapture : Path -> Capture) (isOpened : Capture -> bool)
    (cap_get : Capture -> CapProp -> float) (video_path : Path)
    (metadata : VideoMetadata) :
  get_video_metadata VideoCapture isOpened cap_get video_path = inr metadata ->
  let cap := VideoCapture video_path in
  int_of_float (cap_get cap CAP_PROP_FRAME_COUNT) = inr (frame_count metadata)
  /\ fps metadata = float_or (Some (cap_get cap CAP_PROP_FPS)) fzero
  /\ (duration_sec metadata = None <-> float_gt0 (fps metadata) = false)
  /\ (forall d,
         duration_sec metadata = Some d ->
         int_div_float (frame_count metadata) (fps metadata) = inr d
         /\ d <> S754_nan
         /\ (0 <= frame_count metadata -> Observe.sign_clear d = true)).
Proof.
  intros E cap.
  destruct (Reader.get_video_metadata_inv _ _ _ _ _ E) as (_ & Hcount & Hfps & Hnone & Hsome).
  fold cap in Hcount, Hfps.
  split; [assumption | split; [assumption | split]].
  - split; [ | assumption].
    intros Hd. destruct (float_gt0 (fps metadata)); [ | reflexivity].
    destruct (Hsome eq_refl) as (d & Ed & _). congruence.
  - intros d Hd.
    destruct (float_gt0 (fps metadata)) eqn:Hgt;
      [ | rewrite (Hnone eq_refl) in Hd; discriminate].
    destruct (Hsome eq_refl) as (d' & Ed & Hdiv).
    rewrite Hd in Ed. injection Ed as <-.
    split; [assumption | ].
    unfold int_div_float, float_truediv in Hdiv.
    destruct (float_of_int (frame_count metadata)) as [e | f] eqn:Ef; cbn [bind] in Hdiv;
      [discriminate | ].
    rewrite (Metadata.float_gt0_not_zero _ Hgt) in Hdiv. injection Hdiv as <-.
    split.
    + apply Reader.duration_not_nan; [ | assumption].
      apply (Reader.float_of_int_finite _ _ Ef).
    + intros Hnn. apply Reader.div_sign_clear.
      * apply (Shape.float_of_int_sign_clear _ _ Hnn Ef).
      * apply Reader.float_gt0_sign_clear. assumption.
Qed.

(** On the six-frame clip at 30 frames a second. *)
Lemma metadata_well_formed_witness :
  exists d,
    duration_sec Demo.clip_metadata = Some d
    /\ d <> S754_nan
    /\ Observe.sign_clear d = true.
Proof.
  destruct (metadata_well_formed Demo.VideoCapture Demo.isOpened Demo.cap_get Demo.clip
              Demo.clip_metadata ltac:(vm_compute; reflexivity))
    as (_ & _ & _ & Hd).
  eexists. split; [reflexivity | ].
  destruct (Hd _ eq_refl) as (_ & Hnan & Hsign).
  split; [exact Hnan | apply Hsign; vm_compute; discriminate].
Defined.

(** ** The route *)

Module Route.

Import Request.

Section Checks.

Context {Path Capture Frame Buffer Upload : Type}.
Variable VideoCapture : Path -> Capture.
Variable isOpened : Capture -> bool.
Variable cap_get : Capture -> CapProp -> float.
Variable cap_set : Capture -> CapProp -> Z -> Capture.
Variable cap_read : Capture -> option Frame * Capture.
Variable imencode : str -> Frame -> bool * Buffer.
Variable b64encode : Buffer -> str.
Variable create : str -> list Message -> Z -> result ChatCompletion.
Variable content_type : Upload -> option str.
Variable save_upload_to_temp : Upload -> Path.

Local Abbreviation route :=
  (analyze_video VideoCapture isOpened cap_get cap_set cap_read imencode b64encode
     create content_type save_upload_to_temp).
Local Abbreviation run :=
  (analyze VideoCapture isOpened cap_get cap_set cap_read imencode b64encode create).

(** Past the checks the outcome is that of [analyze] on the saved upload. *)
Lemma route_accepted (file : Upload) (instruction : option str)
    (frame_samples : option Z) (seconds_per_frame : option float)
    (settings : Settings) :
  accepted (content_type file) frame_samples seconds_per_frame settings = true ->
  route file instruction frame_samples seconds_per_frame settings
  = match run settings (save_upload_to_temp file) instruction frame_samples
            seconds_per_frame with
    | inr body => Response body
    | inl (ValueError msg) => HTTPException HTTP_400_BAD_REQUEST msg
    | inl e => Uncaught e
    end.
Proof.
  unfold accepted, analyze_video. intros H.
  apply andb_prop in H. destruct H as [H H4].
  apply andb_prop in H. destruct H as [H H3].
  apply andb_prop in H. destruct H as [H1 H2].
  apply andb_prop in H2. destruct H2 as [H2 H2'].
  apply negb_true_iff in H3, H4.
  rewrite H1, H2, H2', H3, H4. reflexivity.
Qed.

(** A request that fails a check is answered before the upload is saved:
    with 500 when the key is not set, whatever else is wrong, and with 400
    otherwise. *)
Lemma route_rejected (file : Upload) (instruction : option str)
    (frame_samples : option Z) (seconds_per_frame : option float)
    (settings : Settings) :
  accepted (content_type file) frame_samples seconds_per_frame settings = false ->
  exists detail,
    route file instruction frame_samples seconds_per_frame settings
    = HTTPException (if str_bool (Some (openai_api_key settings))
                     then HTTP_400_BAD_REQUEST
                     else HTTP_500_INTERNAL_SERVER_ERROR) detail.
Proof.
  unfold accepted, analyze_video. intros H.
  destruct (str_bool (Some (openai_api_key settings))); cbn [negb andb] in *;
    [ | eexists; reflexivity].
  destruct (str_bool (content_type file)); cbn [negb andb orb] in *;
    [ | eexists; reflexivity].
  destruct (startswith _ _); cbn [negb andb orb] in *; [ | eexists; reflexivity].
  destruct (match frame_samples with Some n => n <=? 0 | None => false end);
    cbn [negb andb] in *; [eexists; reflexivity | ].
  destruct (match seconds_per_frame with Some x => float_le0 x | None => false end);
    cbn [negb] in *; [eexists; reflexivity | discriminate].
Qed.

End Checks.


End Route.



(** X8: a file that the capture does not open.  The reader and the
    extractor raise the unreadable-video error, whatever the sample count
    and the indices; the analyzer raises it before it plans or calls the
    model; and the route answers a request that passed its checks with 400
    and that message. *)
Theorem unreadable_video_rejected {Path Capture Frame Buffer Upload : Type}
    (VideoCapture : Path -> Capture) (isOpened : Capture -> bool)
    (cap_get : Capture -> CapProp -> float)
    (cap_set : Capture -> CapProp -> Z -> Capture)
    (cap_read : Capture -> option Frame * Capture)
    (imencode : str -> Frame -> bool * Buffer) (b64encode : Buffer -> str)
    (create : str -> list Message -> Z -> result ChatCompletion)
    (content_type : Upload -> option str) (save_upload_to_temp : Upload -> Path)
    (file : Upload) (instruction : option str) (frame_samples : option Z)
    (seconds_per_frame : option float) (settings : Settings) :
  let video_path := save_upload_to_temp file in
  isOpened (VideoCapture video_path) = false ->
  get_video_metadata VideoCapture isOpened cap_get video_path
  = inl (ValueError (lit "Unable to read the provided video file."))
  /\ (forall sample_count indices,
         sample_video_frames VideoCapture isOpened cap_get cap_set cap_read imencode
           b64encode video_path sample_count indices
         = inl (ValueError (lit "Unable to read the provided video file.")))
  /\ analyze VideoCapture isOpened cap_get cap_set cap_read imencode b64encode create
       settings video_path instruction frame_samples seconds_per_frame
     = inl (ValueError (lit "Unable to read the provided video file."))
  /\ (Request.accepted (content_type file) frame_samples seconds_per_frame settings
      = true ->
      analyze_video VideoCapture isOpened cap_get cap_set cap_read imencode b64encode
        create content_type save_upload_to_temp file instruction frame_samples
        seconds_per_frame settings
      = HTTPException 400 (lit "Unable to read the provided video file.")).
Proof.
  intros video_path Hclosed.
  assert (get_video_metadata VideoCapture isOpened cap_get video_path
          = inl (ValueError (lit "Unable to read the provided video file."))) as Hmd.
  { unfold get_video_metadata. rewrite Hclosed. reflexivity. }
  assert (analyze VideoCapture isOpened cap_get cap_set cap_read imencode b64encode create
            settings video_path instruction frame_samples seconds_per_frame
          = inl (ValueError (lit "Unable to read the provided video file."))) as Hrun.
  { unfold analyze. rewrite Hmd. reflexivity. }
  split; [assumption | split; [ | split; [assumption | ]]].
  - intros sample_count indices. unfold sample_video_frames.
    rewrite Hclosed. reflexivity.
  - intros Hp.
    rewrite (Route.route_accepted _ _ _ _ _ _ _ _ _ _ _ _ _ _ _ Hp).
    fold video_path. rewrite Hrun. reflexivity.
Qed.

(** On a file that does not open, uploaded as [video/mp4]. *)
Lemma unreadable_video_rejected_witness :
  Demo.analyze_video (Some (lit "video/mp4"), Cases.closed) None None None Demo.settings
  = HTTPException 400 (lit "Unable to read the provided video file.").
Proof.
  apply (unreadable_video_rejected Demo.VideoCapture Demo.isOpened Demo.cap_get
           Demo.cap_set Demo.cap_read Demo.imencode Demo.b64encode Demo.create
           Demo.content_type Demo.save_upload_to_temp
           (Some (lit "video/mp4"), Cases.closed) None None None Demo.settings);
    reflexivity.
Defined.

(** X9: every exception the analyzer raises is the first failure among its
    steps, in order: the reader's, else the planner's, else the
    extractor's, else the no-frames error when the extractor returned an
    empty list, else the exception of the inference call; the call is made
    with the configured model, the two messages built from the resolved
    instruction and the extracted frames, and the configured token limit. *)
Theorem analyzer_failures {Path Capture Frame Buffer : Type}
    (VideoCapture : Path -> Capture) (isOpened : Capture -> bool)
    (cap_get : Capture -> CapProp -> float)
    (cap_set : Capture -> CapProp -> Z -> Capture)
    (cap_read : Capture -> option Frame * Capture)
    (imencode : str -> Frame -> bool * Buffer) (b64encode : Buffer -> str)
    (create : str -> list Message -> Z -> result ChatCompletion)
    (settings : Settings) (video_path : Path) (instruction : option str)
    (frame_samples : option Z) (seconds_per_frame : option float) (e : exn) :
  analyze VideoCapture isOpened cap_get cap_set cap_read imencode b64encode create
    settings video_path instruction frame_samples seconds_per_frame = inl e ->
  get_video_metadata VideoCapture isOpened cap_get video_path = inl e
  \/ exists metadata,
      get_video_metadata VideoCapture isOpened cap_get video_path = inr metadata
      /\ (_choose_sample_count settings metadata frame_samples seconds_per_frame = inl e
          \/ exists target interval,
              _choose_sample_count settings metadata frame_samples seconds_per_frame
              = inr (target, interval)
              /\ (sample_video_frames VideoCapture isOpened cap_get cap_set cap_read
                    imencode b64encode video_path target None = inl e
                  \/ (sample_video_frames VideoCapture isOpened cap_get cap_set cap_read
                        imencode b64encode video_path target None = inr []
                      /\ e = ValueError
                               (lit "Could not sample frames from the provided video."))
                  \/ exists frames,
                      sample_video_frames VideoCapture isOpened cap_get cap_set cap_read
                        imencode b64encode video_path target None = inr frames
                      /\ frames <> []
                      /\ create (openai_model settings)
                           (build_messages (resolve_instruction instruction) frames)
                           (max_tokens settings) = inl e)).
Proof.
  intros H. unfold analyze in H.
  destruct (get_video_metadata VideoCapture isOpened cap_get video_path)
    as [e0 | metadata]; cbn [bind] in H; [left; injection H as <-; reflexivity | right].
  exists metadata. split; [reflexivity | ].
  destruct (_choose_sample_count settings metadata frame_samples seconds_per_frame)
    as [e0 | [target interval]]; cbn [bind] in H; [left; injection H as <-; reflexivity | right].
  exists target, interval. split; [reflexivity | ].
  unfold sample_video_frames_async in H.
  destruct (sample_video_frames VideoCapture isOpened cap_get cap_set cap_read imencode
              b64encode video_path target None) as [e0 | frames]; cbn [bind] in H;
    [left; injection H as <-; reflexivity | right].
  destruct frames as [ | f frames].
  - left. split; [reflexivity | ]. unfold raise, no_frames in H. congruence.
  - right. exists (f :: frames). split; [reflexivity | ]. split; [discriminate | ].
    unfold respond in H.
    destruct (create (openai_model settings)
                (build_messages (resolve_instruction instruction) (f :: frames))
                (max_tokens settings)) as [e0 | completion]; cbn [bind ret] in H;
      [injection H as <-; reflexivity | discriminate].
Qed.

(** On the file in which no frame decodes. *)
Lemma analyzer_failures_witness :
  Video.get_video_metadata Demo.VideoCapture Demo.isOpened Demo.cap_get Demo.broken
  = inl no_frames
  \/ exists metadata,
      Video.get_video_metadata Demo.VideoCapture Demo.isOpened Demo.cap_get Demo.broken
      = inr metadata
      /\ (_choose_sample_count Demo.settings metadata None None = inl no_frames
          \/ exists target interval,
              _choose_sample_count Demo.settings metadata None None
              = inr (target, interval)
              /\ (Demo.sample_video_frames Demo.broken target None = inl no_frames
                  \/ (Demo.sample_video_frames Demo.broken target None = inr []
                      /\ no_frames
                         = ValueError
                             (lit "Could not sample frames from the provided video."))
                  \/ exists frames,
                      Demo.sample_video_frames Demo.broken target None = inr frames
                      /\ frames <> []
                      /\ Demo.create (openai_model Demo.settings)
                           (build_messages (resolve_instruction None) frames)
                           (max_tokens Demo.settings) = inl no_frames)).
Proof.
  exact (analyzer_failures Demo.VideoCapture Demo.isOpened Demo.cap_get
           Demo.cap_set Demo.cap_read Demo.imencode Demo.b64encode Demo.create
           Demo.settings Demo.broken None None None
           (ValueError (lit "Could not sample frames from the provided video."))
           ltac:(vm_compute; reflexivity)).
Defined.

(** ** The planner's values and failures *)

Module Budget.

Import Planner.

Lemma clamp_monotone (settings : Settings) (metadata : VideoMetadata) (a b : Z) :
  a <= b -> clamp settings metadata a <= clamp settings metadata b.
Proof. intros Hab. unfold clamp. destruct (frame_count metadata >? 0); lia. Qed.

(** The interval in effect is zero only when the configured one is. *)
Lemma interval_zero (interval_override : option float) (configured : float) :
  is_zero (float_or interval_override configured) = true -> is_zero configured = true.
Proof.
  unfold float_or, float_bool. destruct interval_override as [x | ]; [ | tauto].
  destruct (is_zero x) eqn:Hx; cbn [negb]; [tauto | congruence].
Qed.

Lemma time_based_inv (baseline : Z) (interval : float) (metadata : VideoMetadata)
    (t : Z) :
  time_based baseline interval metadata = inr t ->
  (t = baseline
   /\ (duration_sec metadata = None
       \/ exists d, duration_sec metadata = Some d /\ is_zero d = true))
  \/ exists d n,
      duration_sec metadata = Some d /\ is_zero d = false
      /\ is_zero interval = false
      /\ int_of_float (SFdiv prec emax d interval) = inr n
      /\ t = n + 1.
Proof.
  unfold time_based. destruct (duration_sec metadata) as [d | ].
  - unfold float_bool. destruct (is_zero d) eqn:Hd; cbn [negb].
    + intros E. injection E as <-. left. split; [reflexivity | ].
      right. exists d. split; [reflexivity | assumption].
    + unfold float_truediv. destruct (is_zero interval) eqn:Hi; cbn [bind raise ret];
        [discriminate | ].
      destruct (int_of_float (SFdiv prec emax d interval)) as [e | n] eqn:En;
        cbn [bind ret]; [discriminate | ].
      intros E. injection E as <-. right. exists d, n. repeat split; assumption.
  - intros E. injection E as <-. left. split; [reflexivity | left; reflexivity].
Qed.

End Budget.

(** X10: every exception the planner raises comes from
    [int(duration_sec / interval)] on a duration that is present and not
    zero, and is one of three: the division by zero of floats, when the
    interval in effect is zero, which needs the configured interval to be
    zero; the overflow error of [int], when the quotient is infinite; the
    value error of [int], when the quotient is NaN. *)
Theorem planner_failures (settings : Settings) (metadata : VideoMetadata)
    (frame_samples_override : option Z) (interval_override : option float) (e : exn) :
  _choose_sample_count settings metadata frame_samples_override interval_override
  = inl e ->
  let interval := float_or interval_override (seconds_per_frame settings) in
  exists d,
    duration_sec metadata = Some d
    /\ is_zero d = false
    /\ ((is_zero interval = true
         /\ is_zero (seconds_per_frame settings) = true
         /\ e = ZeroDivisionError (lit "float division by zero"))
        \/ (is_zero interval = false
            /\ (exists s, SFdiv prec emax d interval = S754_infinity s)
            /\ e = OverflowError (lit "cannot convert float infinity to integer"))
        \/ (is_zero interval = false
            /\ SFdiv prec emax d interval = S754_nan
            /\ e = ValueError (lit "cannot convert float NaN to integer"))).
Proof.
  intros H interval. rewrite Planner.choose_unfold in H. cbv zeta in H. fold interval in H.
  unfold time_based in H.
  destruct (duration_sec metadata) as [d | ]; [ | discriminate].
  unfold float_bool in H. destruct (is_zero d) eqn:Hd; cbn [negb bind ret] in H;
    [discriminate | ].
  exists d. split; [reflexivity | split; [assumption | ]].
  unfold float_truediv in H. destruct (is_zero interval) eqn:Hi; cbn [bind raise ret] in H.
  - left. split; [reflexivity | ]. split; [ | congruence].
    apply (Budget.interval_zero interval_override). assumption.
  - right.
    destruct (SFdiv prec emax d interval) as [s | s | | s m x];
      cbn [int_of_float bind ret raise] in H; try discriminate.
    + left. split; [reflexivity | ]. split; [exists s; reflexivity | congruence].
    + right. split; [reflexivity | ]. split; [reflexivity | congruence].
Qed.

(** The six-frame clip with the smallest positive float as interval: the
    quotient is infinite. *)
Lemma planner_failures_witness :
  exists d,
    duration_sec Demo.clip_metadata = Some d
    /\ _choose_sample_count Demo.settings Demo.clip_metadata None (Some Cases.tiny)
       = inl (OverflowError (lit "cannot convert float infinity to integer"))
    /\ exists s, SFdiv prec emax d Cases.tiny = S754_infinity s.
Proof.
  destruct (planner_failures Demo.settings Demo.clip_metadata None (Some Cases.tiny)
              (OverflowError (lit "cannot convert float infinity to integer"))
              ltac:(vm_compute; reflexivity))
    as (d & Hd & _ & [(_ & _ & He) | [(_ & Hinf & _) | (_ & _ & He)]]);
    try discriminate He.
  exists d. split; [exact Hd | ]. split; [vm_compute; reflexivity | exact Hinf].
Defined.

(** X11: the values of the planner.  Whenever it returns, the interval is
    the override when that is given and not zero, else the configured one,
    and the target is at least the clamped baseline; it is the clamped
    baseline when the duration is absent or zero; and it is the frame count
    when that is positive, at most the baseline and at most the ceiling. *)
Theorem planner_values (settings : Settings) (metadata : VideoMetadata)
    (frame_samples_override : option Z) (interval_override : option float)
    (target : Z) (interval : float) :
  _choose_sample_count settings metadata frame_samples_override interval_override
  = inr (target, interval) ->
  let baseline := Z.max (int_or frame_samples_override (frame_samples settings)) 1 in
  interval = float_or interval_override (seconds_per_frame settings)
  /\ clamp settings metadata baseline <= target
  /\ (duration_sec metadata = None
      \/ (exists d, duration_sec metadata = Some d /\ is_zero d = true) ->
      target = clamp settings metadata baseline)
  /\ (0 < frame_count metadata <= baseline ->
      frame_count metadata <= max_frame_samples settings ->
      target = frame_count metadata).
Proof.
  intros H baseline. rewrite Planner.choose_unfold in H. cbv zeta in H. fold baseline in H.
  destruct (time_based baseline _ metadata) as [e | t] eqn:Et; cbn [bind ret] in H;
    [discriminate | ].
  injection H as <- <-.
  split; [reflexivity | ]. split; [apply Budget.clamp_monotone; lia | ]. split.
  - intros Hd.
    destruct (Budget.time_based_inv _ _ _ _ Et) as [(-> & _) | (d & n & Ed & Hz & _)].
    + rewrite Z.max_id. reflexivity.
    + destruct Hd as [Hd | (d' & Hd & Hz')]; congruence.
  - intros Hc Hmax. unfold clamp.
    replace (frame_count metadata >? 0) with true by (symmetry; apply Z.gtb_lt; lia).
    lia.
Qed.

(** Ten thousand frames over five minutes, with an override of 20000 frames
    and a ceiling of 120. *)
Lemma planner_values_witness :
  exists target interval,
    _choose_sample_count Demo.settings Demo.five_minutes (Some 20000) None
    = inr (target, interval)
    /\ interval = Demo.of_Z 2
    /\ clamp Demo.settings Demo.five_minutes 20000 <= target.
Proof.
  eexists. eexists. split; [vm_compute; reflexivity | ].
  destruct (planner_values Demo.settings Demo.five_minutes (Some 20000) None _ _
              ltac:(vm_compute; reflexivity)) as (Hi & Hlow & _).
  split; [exact Hi | exact Hlow].
Defined.

(** ** The response of the analyzer *)

Module Answer.

Import Orchestrator.

Lemma float_or_gt0 (x : float) : float_gt0 (float_or (Some x) fzero) = float_gt0 x.
Proof. destruct x as [[ | ] | | | ]; reflexivity. Qed.

Lemma length_image_urls (instruction : str) (frames : list FrameSample) :
  Observe.image_urls (_build_user_content instruction frames) = map data_url frames.
Proof.
  unfold _build_user_content. cbn [Observe.image_urls].
  induction frames as [ | f frames IH]; cbn [map Observe.image_urls]; congruence.
Qed.

Section Steps.

Context {Path Capture Frame Buffer : Type}.
Variable VideoCapture : Path -> Capture.
Variable isOpened : Capture -> bool.
Variable cap_get : Capture -> CapProp -> float.
Variable cap_set : Capture -> CapProp -> Z -> Capture.
Variable cap_read : Capture -> option Frame * Capture.
Variable imencode : str -> Frame -> bool * Buffer.
Variable b64encode : Buffer -> str.
Variable create : str -> list Message -> Z -> result ChatCompletion.

(** A response, taken apart: the metadata, the plan, the frames and the
    completion it was assembled from. *)
Lemma analyze_response (settings : Settings) (video_path : Path)
    (instruction : option str) (frame_samples : option Z)
    (seconds_per_frame : option float) (r : VideoAnalysisResponse) :
  analyze VideoCapture isOpened cap_get cap_set cap_read imencode b64encode create
    settings video_path instruction frame_samples seconds_per_frame = inr r ->
  exists metadata target interval frames completion,
    get_video_metadata VideoCapture isOpened cap_get video_path = inr metadata
    /\ _choose_sample_count settings metadata frame_samples seconds_per_frame
       = inr (target, interval)
    /\ sample_video_frames VideoCapture isOpened cap_get cap_set cap_read imencode
         b64encode video_path target None = inr frames
    /\ frames <> []
    /\ 0 < frame_count metadata
    /\ create (openai_model settings)
         (build_messages (resolve_instruction instruction) frames) (max_tokens settings)
       = inr completion
    /\ r = {| summary := str_or_empty (first_content completion);
              frames_used := Z.of_nat (List.length frames);
              model := openai_model settings;
              frame_timestamps := Some (known_timestamps frames);
              prompt := Some (resolve_instruction instruction);
              total_frames := Some (frame_count metadata);
              video_duration_sec := duration_sec metadata;
              sampling_interval_sec := Some interval;
              requested_frame_samples := Some target |}.
Proof.
  intros H.
  destruct (analyze_inr _ _ _ _ _ _ _ _ _ _ _ _ _ _ H)
    as (metadata & target & interval & frames & Hmd & Hplan & Hframes & Hne & Hr).
  pose proof (response_needs_frames _ _ _ _ _ _ _ _ _ _ _ _ _ _ _ Hmd H) as Hpos.
  destruct (respond_inv _ _ _ _ _ _ _ _ Hr) as (completion & Hc).
  rewrite (respond_inr _ _ _ _ _ _ _ _ Hc) in Hr. injection Hr as <-.
  exists metadata, target, interval, frames, completion.
  repeat split; try assumption.
  unfold int_or_none.
  replace (frame_count metadata =? 0) with false by (symmetry; apply Z.eqb_neq; lia).
  reflexivity.
Qed.

End Steps.

End Answer.

(** X12: the numbers of a response agree.  Whenever the analyzer returns
    (the file reporting the same frame count and frame rate each time it is
    opened), the total frame count is present and positive, and
    [1 <= frames_used <= requested_frame_samples <= total_frames]; the
    requested count is within the ceiling when that is at least [1]; the
    timestamps are as many as the frames used when the frame rate reported
    is not zero and none otherwise; the duration is present exactly when the
    frame rate reported is above zero; the model is the configured one, the
    prompt the resolved instruction, and the interval the override when that
    is given and not zero, else the configured one. *)
Theorem response_invariants {Path Capture Frame Buffer : Type}
    (VideoCapture : Path -> Capture) (isOpened : Capture -> bool)
    (cap_get : Capture -> CapProp -> float)
    (cap_set : Capture -> CapProp -> Z -> Capture)
    (cap_read : Capture -> option Frame * Capture)
    (imencode : str -> Frame -> bool * Buffer) (b64encode : Buffer -> str)
    (create : str -> list Message -> Z -> result ChatCompletion)
    (settings : Settings) (video_path : Path) (instruction : option str)
    (frame_samples : option Z) (seconds_per_frame : option float)
    (r : VideoAnalysisResponse) :
  analyze VideoCapture isOpened cap_get cap_set cap_read imencode b64encode create
    settings video_path instruction frame_samples seconds_per_frame = inr r ->
  let rate := cap_get (VideoCapture video_path) CAP_PROP_FPS in
  exists total requested timestamps,
    total_frames r = Some total
    /\ requested_frame_samples r = Some requested
    /\ frame_timestamps r = Some timestamps
    /\ 1 <= frames_used r
    /\ frames_used r <= requested
    /\ requested <= total
    /\ (1 <= max_frame_samples settings -> requested <= max_frame_samples settings)
    /\ Z.of_nat (List.length timestamps) = (if float_bool rate then frames_used r else 0)
    /\ (video_duration_sec r = None <-> float_gt0 rate = false)
    /\ model r = openai_model settings
    /\ prompt r = Some (resolve_instruction instruction)
    /\ sampling_interval_sec r
       = Some (float_or seconds_per_frame (Config.seconds_per_frame settings)).
Proof.
  intros H rate.
  destruct (Answer.analyze_response _ _ _ _ _ _ _ _ _ _ _ _ _ _ H)
    as (metadata & target & interval & frames & completion
        & Hmd & Hplan & Hframes & Hne & Hpos & _ & ->).
  cbn [total_frames requested_frame_samples frame_timestamps frames_used
       video_duration_sec model prompt sampling_interval_sec].
  exists (frame_count metadata), target, (known_timestamps frames).
  destruct (Reader.get_video_metadata_inv _ _ _ _ _ Hmd)
    as (_ & Hcount & Hfps & Hnone & Hsome).
  destruct (Frames.sample_video_frames_inv _ _ _ _ _ _ _ _ _ _ _ Hframes)
    as (_ & total & used & Htotal & Hused & Hsub & Hall).
  rewrite Hcount in Htotal. injection Htotal as <-. cbn [indices_or] in Hused.
  destruct (SelectorShape.selected _ _ _ Hused) as (_ & _ & Hlen & _).
  pose proof (Frames.subsequence_length _ _ Hsub) as Hle. rewrite length_map in Hle.
  rewrite Planner.choose_unfold in Hplan. cbv zeta in Hplan.
  destruct (time_based _ _ metadata) as [e | t]; cbn [bind ret] in Hplan; [discriminate | ].
  injection Hplan as <- <-.
  match goal with
  | |- context [clamp settings metadata ?x] =>
      destruct (Planner.clamp_bounds settings metadata x) as (H1 & Hmax & _ & Hcnt)
  end.
  specialize (Hcnt Hpos).
  split; [reflexivity | split; [reflexivity | split; [reflexivity | ]]].
  split; [destruct frames; [contradiction | cbn [List.length]; lia] | ].
  split; [lia | ]. split; [assumption | ]. split; [assumption | ].
  split; [ | split; [ | repeat split]].
  - fold rate in Hall. rewrite Forall_forall in Hall.
    destruct (float_bool rate) eqn:Hb.
    + f_equal. apply Frames.known_timestamps_length.
      apply Forall_forall. intros f Hf.
      destruct (Hall f Hf) as (_ & _ & Ht). destruct (Ht eq_refl) as (t' & -> & _).
      discriminate.
    + replace (known_timestamps frames) with (@nil float); [reflexivity | ].
      symmetry. apply Frames.known_timestamps_length.
      apply Forall_forall. intros f Hf. apply (Hall f Hf). reflexivity.
  - rewrite Hfps, Answer.float_or_gt0 in Hnone, Hsome. fold rate in Hnone, Hsome.
    split; [ | assumption].
    intros Hd. destruct (float_gt0 rate); [ | reflexivity].
    destruct (Hsome eq_refl) as (d & Ed & _). congruence.
Qed.

(** On the six-frame clip: four frames used of six requested. *)
Lemma response_invariants_witness :
  exists r,
    Demo.analyze Demo.settings Demo.clip None None None = inr r
    /\ 1 <= frames_used r
    /\ exists requested total,
        requested_frame_samples r = Some requested
        /\ total_frames r = Some total
        /\ frames_used r <= requested
        /\ requested <= total.
Proof.
  eexists. split; [vm_compute; reflexivity | ].
  destruct (response_invariants Demo.VideoCapture Demo.isOpened Demo.cap_get
              Demo.cap_set Demo.cap_read Demo.imencode Demo.b64encode Demo.create
              Demo.settings Demo.clip None None None _ ltac:(vm_compute; reflexivity))
    as (total & requested & timestamps & Ht & Hr & _ & H1 & H2 & H3 & _).
  split; [exact H1 | ]. exists requested, total.
  split; [exact Hr | split; [exact Ht | split; [exact H2 | exact H3]]].
Defined.

(** ** Overrides, from the route to the response *)

Module Overrides.

Lemma float_le0_zero (x : float) : float_le0 x = false -> float_bool x = true.
Proof. destruct x as [s | s | | s m e]; cbn; congruence. Qed.

Lemma accepted_inv (content_type : option str) (frame_samples : option Z)
    (seconds_per_frame : option float) (settings : Settings) :
  Request.accepted content_type frame_samples seconds_per_frame settings = true ->
  (forall n, frame_samples = Some n -> 0 < n)
  /\ (forall x, seconds_per_frame = Some x -> float_bool x = true).
Proof.
  unfold Request.accepted. intros H.
  apply andb_prop in H. destruct H as [H H4].
  apply andb_prop in H. destruct H as [_ H3].
  apply negb_true_iff in H3, H4. split.
  - intros n ->. apply Z.leb_gt. assumption.
  - intros x ->. apply float_le0_zero. assumption.
Qed.

End Overrides.

(** X13: the overrides of a request that is answered.  Whenever the route
    hands back a response, an interval given with the request is the
    interval of the response, and without one it is the configured interval;
    a sample count [n] given with the request makes the requested count at
    least [min(n, total_frames, ceiling)], and exactly the total frame count
    when [n] is at least that and the ceiling allows it. *)
Theorem overrides_honoured {Path Capture Frame Buffer Upload : Type}
    (VideoCapture : Path -> Capture) (isOpened : Capture -> bool)
    (cap_get : Capture -> CapProp -> float)
    (cap_set : Capture -> CapProp -> Z -> Capture)
    (cap_read : Capture -> option Frame * Capture)
    (imencode : str -> Frame -> bool * Buffer) (b64encode : Buffer -> str)
    (create : str -> list Message -> Z -> result ChatCompletion)
    (content_type : Upload -> option str) (save_upload_to_temp : Upload -> Path)
    (file : Upload) (instruction : option str) (frame_samples : option Z)
    (seconds_per_frame : option float) (settings : Settings)
    (body : VideoAnalysisResponse) :
  analyze_video VideoCapture isOpened cap_get cap_set cap_read imencode b64encode
    create content_type save_upload_to_temp file instruction frame_samples
    seconds_per_frame settings = Response body ->
  (forall x, seconds_per_frame = Some x -> sampling_interval_sec body = Some x)
  /\ (seconds_per_frame = None ->
      sampling_interval_sec body = Some (Config.seconds_per_frame settings))
  /\ exists requested total,
      requested_frame_samples body = Some requested
      /\ total_frames body = Some total
      /\ (forall n,
             frame_samples = Some n ->
             0 < n
             /\ Z.min (Z.min n total) (max_frame_samples settings) <= requested
             /\ (total <= n -> total <= max_frame_samples settings ->
                 requested = total)).
Proof.
  intros H.
  destruct (Request.accepted (content_type file) frame_samples seconds_per_frame settings)
    eqn:Hp.
  2:{ destruct (Route.route_rejected VideoCapture isOpened cap_get cap_set cap_read
                  imencode b64encode create content_type save_upload_to_temp file
                  instruction frame_samples seconds_per_frame settings Hp)
        as (detail & E).
      rewrite E in H. discriminate. }
  rewrite (Route.route_accepted _ _ _ _ _ _ _ _ _ _ _ _ _ _ _ Hp) in H.
  destruct (analyze _ _ _ _ _ _ _ _ _ _ _ _ _) as [[msg | msg | msg | msg] | r] eqn:Hrun;
    try discriminate.
  injection H as ->.
  destruct (Overrides.accepted_inv _ _ _ _ Hp) as (Hn & Hx).
  destruct (Answer.analyze_response _ _ _ _ _ _ _ _ _ _ _ _ _ _ Hrun)
    as (metadata & target & interval & frames & completion
        & _ & Hplan & _ & _ & Hpos & _ & ->).
  cbn [sampling_interval_sec requested_frame_samples total_frames].
  rewrite Planner.choose_unfold in Hplan. cbv zeta in Hplan.
  destruct (time_based _ _ metadata) as [e | t]; cbn [bind ret] in Hplan; [discriminate | ].
  injection Hplan as <- <-.
  split; [ | split].
  - intros x ->. unfold float_or. rewrite (Hx x eq_refl). reflexivity.
  - intros ->. reflexivity.
  - eexists. eexists. split; [reflexivity | split; [reflexivity | ]].
    intros n ->. specialize (Hn n eq_refl). split; [assumption | ].
    unfold clamp, int_or.
    replace (n =? 0) with false by (symmetry; apply Z.eqb_neq; lia).
    replace (frame_count metadata >? 0) with true by (symmetry; apply Z.gtb_lt; lia).
    lia.
Qed.

(** The six-frame clip, asked for with twelve frames, one every half
    second. *)
Lemma overrides_honoured_witness :
  exists body,
    Demo.analyze_video (Some (lit "video/mp4"), Demo.clip) None (Some 12)
      (Some (SFdiv prec emax (Demo.of_Z 1) (Demo.of_Z 2))) Demo.settings
    = Response body
    /\ sampling_interval_sec body = Some (SFdiv prec emax (Demo.of_Z 1) (Demo.of_Z 2))
    /\ requested_frame_samples body = Some 6.
Proof.
  eexists. split; [vm_compute; reflexivity | ].
  destruct (overrides_honoured Demo.VideoCapture Demo.isOpened Demo.cap_get
              Demo.cap_set Demo.cap_read Demo.imencode Demo.b64encode Demo.create
              Demo.content_type Demo.save_upload_to_temp
              (Some (lit "video/mp4"), Demo.clip) None (Some 12)
              (Some (SFdiv prec emax (Demo.of_Z 1) (Demo.of_Z 2))) Demo.settings _
              ltac:(vm_compute; reflexivity))
    as (Hx & _ & requested & total & Hr & Ht & Hn).
  split; [apply Hx; reflexivity | ].
  destruct (Hn 12 eq_refl) as (_ & _ & Heq).
  cbn [total_frames] in Ht. injection Ht as Ht. subst total.
  rewrite Hr. f_equal. apply Heq; apply Z.leb_le; vm_compute; reflexivity.
Defined.

(** X14: the request that a response answers.  Whenever the analyzer
    returns, the inference call was made with the configured model and token
    limit and with two messages, the system prompt and a user turn; the user
    turn starts with the resolved instruction as text and goes on with one
    image per extracted frame, in order, each a JPEG data URL; and the
    summary is the content of the first choice of the completion, or empty. *)
Theorem inference_request {Path Capture Frame Buffer : Type}
    (VideoCapture : Path -> Capture) (isOpened : Capture -> bool)
    (cap_get : Capture -> CapProp -> float)
    (cap_set : Capture -> CapProp -> Z -> Capture)
    (cap_read : Capture -> option Frame * Capture)
    (imencode : str -> Frame -> bool * Buffer) (b64encode : Buffer -> str)
    (create : str -> list Message -> Z -> result ChatCompletion)
    (settings : Settings) (video_path : Path) (instruction : option str)
    (frame_samples : option Z) (seconds_per_frame : option float)
    (r : VideoAnalysisResponse) :
  analyze VideoCapture isOpened cap_get cap_set cap_read imencode b64encode create
    settings video_path instruction frame_samples seconds_per_frame = inr r ->
  exists requested frames parts completion,
    requested_frame_samples r = Some requested
    /\ sample_video_frames VideoCapture isOpened cap_get cap_set cap_read imencode
         b64encode video_path requested None = inr frames
    /\ create (openai_model settings)
         [ {| role := lit "system"; content := Plain system_prompt |};
           {| role := lit "user"; content := Parts parts |} ]
         (max_tokens settings) = inr completion
    /\ hd_error parts = Some (TextPart (resolve_instruction instruction))
    /\ List.length parts = S (List.length frames)
    /\ Observe.image_urls parts = map data_url frames
    /\ Z.of_nat (List.length (Observe.image_urls parts)) = frames_used r
    /\ Forall (fun url => startswith url Cases.jpeg_prefix = true)
         (Observe.image_urls parts)
    /\ summary r = str_or_empty (first_content completion).
Proof.
  intros H.
  destruct (Answer.analyze_response _ _ _ _ _ _ _ _ _ _ _ _ _ _ H)
    as (metadata & target & interval & frames & completion
        & _ & _ & Hframes & _ & _ & Hc & ->).
  cbn [requested_frame_samples frames_used summary].
  exists target, frames, (_build_user_content (resolve_instruction instruction) frames),
    completion.
  destruct (Frames.sample_video_frames_inv _ _ _ _ _ _ _ _ _ _ _ Hframes)
    as (_ & _ & _ & _ & _ & _ & Hall).
  rewrite Answer.length_image_urls, length_map.
  split; [reflexivity | split; [assumption | split; [exact Hc | ]]].
  split; [reflexivity | ].
  split; [unfold _build_user_content; cbn [List.length]; rewrite length_map; reflexivity | ].
  split; [reflexivity | split; [reflexivity | split; [ | reflexivity]]].
  apply Forall_forall. intros url Hurl. apply in_map_iff in Hurl.
  destruct Hurl as (f & <- & Hf). rewrite Forall_forall in Hall. apply (Hall f Hf).
Qed.

(** On the six-frame clip: a text part and four images. *)
Lemma inference_request_witness :
  exists r parts,
    Demo.analyze Demo.settings Demo.clip None None None = inr r
    /\ List.length parts = 5%nat
    /\ Observe.image_urls parts = map data_url Demo.clip_frames.
Proof.
  eexists.
  destruct (inference_request Demo.VideoCapture Demo.isOpened Demo.cap_get
              Demo.cap_set Demo.cap_read Demo.imencode Demo.b64encode Demo.create
              Demo.settings Demo.clip None None None _ ltac:(vm_compute; reflexivity))
    as (requested & frames & parts & completion & Hr & Hframes & _ & _ & Hlen & Hurls & _).
  exists parts. split; [reflexivity | ].
  cbn [requested_frame_samples] in Hr. injection Hr as <-.
  assert (frames = Demo.clip_frames) as ->.
  { assert (inr frames = inr Demo.clip_frames :> result (list FrameSample)) as E
        by (rewrite <- Hframes; vm_compute; reflexivity).
    injection E as ->. reflexivity. }
  split; [exact Hlen | exact Hurls].
Defined.

(** ** The selection against [floor(i * total_frames / samples)] *)

Module NearFloor.

Import Value Rounding ListFacts Spacing.

Local Open Scope Q_scope.

(** Three roundings at most move an integer below [2^48] by less than one. *)
Lemma three_roundings (P : Q) :
  0 <= P -> P <= 281474976710656 ->
  P * ((1 + eps) * (1 + eps) * (1 + eps)) < P + 1.
Proof.
  intros H0 H1.
  assert (P * ((1 + eps) * (1 + eps) * (1 + eps) - 1)
          <= 281474976710656 * ((1 + eps) * (1 + eps) * (1 + eps) - 1)) as H
    by (apply Qmult_le_compat_r; [assumption | unfold eps; lra]).
  unfold eps in *. lra.
Qed.

Local Open Scope Z_scope.

(** Below [2^48] for [total_frames * samples], the index picked for [i] is
    [floor(i * total_frames / samples)] or one less. *)
Lemma pick_near_floor (T S i : Z) (step : float) (v : Z) :
  0 < S -> S < T -> T * S <= 2 ^ 48 ->
  int_truediv T S = inr step -> 0 <= i < S ->
  pick step i = inr v ->
  (i * T) / S - 1 <= v <= (i * T) / S.
Proof.
  intros HS HST HTS Hstep Hi Hv.
  assert (2 ^ 48 < 2 ^ 50) as Hp1 by reflexivity.
  assert (2 ^ 50 < 2 ^ 900) as Hp2 by reflexivity.
  assert (T <= 2 ^ 48) as HT48 by nia.
  assert (S <= 2 ^ 48) as HS48 by nia.
  assert (Zdigits2 T <= 900) as HdT by (apply Zdigits2_le; lia).
  destruct (int_truediv_spec T S HS HST) as (mq & eq & Eq & _ & Hq1 & _); [lia | ].
  rewrite Eq in Hstep. injection Hstep as <-.
  pose proof (int_truediv_below T S mq eq HS HST ltac:(lia) Eq) as Hq2.
  destruct (pick_two_sided T S i mq eq v HS HST ltac:(lia) ltac:(lia) Eq Hi Hv)
    as [HA HB].
  destruct (sample_index_bound T S i _ HS HST ltac:(lia) ltac:(lia) Eq Hi)
    as (v' & Ev & Hv0 & HvT).
  rewrite Hv in Ev. injection Ev as <-.
  pose proof (F2Q_nonneg (Zpos mq) eq ltac:(lia)) as Hnnq.
  set (Fq := F2Q (Zpos mq) eq) in *.
  pose proof (inject_Z_nonneg i ltac:(lia)) as Hiq.
  pose proof (inject_Z_nonneg S ltac:(lia)) as HSq.
  pose proof (inject_Z_nonneg v ltac:(lia)) as Hvq.
  assert (0 <= (1 + eps) * (1 + eps))%Q as Hu2 by (unfold eps; lra).
  assert (0 <= 1 + eps)%Q as Hu by (unfold eps; lra).
  assert (v * S <= i * T /\ i * T <= (v + 1) * S) as [Hup Hlow].
  { split.
    - (* upper *)
      assert (inject_Z (v * S) < inject_Z (i * T) + 1)%Q as H.
      { apply Qle_lt_trans
          with (inject_Z (i * T) * ((1 + eps) * (1 + eps) * (1 + eps)))%Q.
        - rewrite !inject_Z_mult.
          apply Qle_trans with (inject_Z i * Fq * ((1 + eps) * (1 + eps)) * inject_Z S)%Q;
            [apply Qmult_le_compat_r; assumption | ].
          setoid_replace (inject_Z i * Fq * ((1 + eps) * (1 + eps)) * inject_Z S)%Q
            with (Fq * inject_Z S * (inject_Z i * ((1 + eps) * (1 + eps))))%Q by ring.
          setoid_replace (inject_Z i * inject_Z T * ((1 + eps) * (1 + eps) * (1 + eps)))%Q
            with (inject_Z T * (1 + eps) * (inject_Z i * ((1 + eps) * (1 + eps))))%Q
            by ring.
          apply Qmult_le_compat_r; [assumption | ].
          apply Qmult_le_0_compat; assumption.
        - apply three_roundings.
          + apply inject_Z_nonneg. nia.
          + change 281474976710656%Q with (inject_Z (2 ^ 48)).
            rewrite <- Zle_Qle. nia. }
      setoid_replace (inject_Z (i * T) + 1)%Q with (inject_Z (i * T + 1)) in H
        by (rewrite inject_Z_plus; reflexivity).
      rewrite <- Zlt_Qlt in H. lia.
    - (* lower *)
      assert (inject_Z (i * T) < inject_Z ((v + 1) * S) + 1)%Q as H.
      { apply Qle_lt_trans
          with (inject_Z ((v + 1) * S) * ((1 + eps) * (1 + eps) * (1 + eps)))%Q.
        - rewrite !inject_Z_mult, inject_Z_plus. change (inject_Z 1) with 1%Q.
          apply Qle_trans with (Fq * inject_Z S * (1 + eps) * inject_Z i)%Q.
          { setoid_replace (inject_Z i * inject_Z T)%Q with (inject_Z T * inject_Z i)%Q
              by ring.
            apply Qmult_le_compat_r; assumption. }
          setoid_replace (Fq * inject_Z S * (1 + eps) * inject_Z i)%Q
            with (inject_Z i * Fq * (inject_Z S * (1 + eps)))%Q by ring.
          setoid_replace ((inject_Z v + 1) * inject_Z S
                          * ((1 + eps) * (1 + eps) * (1 + eps)))%Q
            with ((inject_Z v + 1) * ((1 + eps) * (1 + eps))
                  * (inject_Z S * (1 + eps)))%Q by ring.
          apply Qmult_le_compat_r; [assumption | ].
          apply Qmult_le_0_compat; assumption.
        - apply three_roundings.
          + apply inject_Z_nonneg. nia.
          + change 281474976710656%Q with (inject_Z (2 ^ 48)).
            rewrite <- Zle_Qle. nia. }
      setoid_replace (inject_Z ((v + 1) * S) + 1)%Q with (inject_Z ((v + 1) * S + 1)) in H
        by (rewrite inject_Z_plus; reflexivity).
      rewrite <- Zlt_Qlt in H. lia. }
  split.
  - assert (i * T / S <= v + 1); [ | lia].
    apply Z.div_le_upper_bound; lia.
  - apply Z.div_le_lower_bound; lia.
Qed.

(** Consecutive floors of the multiples of [T / S] differ by [floor(T / S)]
    or one more. *)
Lemma floor_step (x T S : Z) :
  0 < S -> T / S <= (x + T) / S - x / S <= T / S + 1.
Proof.
  intros HS.
  pose proof (Z.div_mod x S ltac:(lia)) as Hx.
  pose proof (Z.mod_pos_bound x S HS) as Hrx.
  pose proof (Z.div_mod T S ltac:(lia)) as HT.
  pose proof (Z.mod_pos_bound T S HS) as HrT.
  pose proof (Z.div_mod (x + T) S ltac:(lia)) as Hs.
  pose proof (Z.mod_pos_bound (x + T) S HS) as Hrs.
  set (k := (x + T) / S - x / S - T / S).
  assert (S * k = x mod S + T mod S - (x + T) mod S) as Hk by (unfold k; lia).
  assert (0 <= k <= 1) by nia.
  unfold k in *. lia.
Qed.

(** Below [2^48] for [total_frames * samples] the selector returns the
    index picked for [i] at position [i], for every [i]. *)
Lemma positions (T S : Z) :
  0 < S -> S < T -> T * S <= 2 ^ 48 ->
  exists step l,
    int_truediv T S = inr step
    /\ _frame_indices T S = inr l
    /\ Z.of_nat (List.length l) = S
    /\ (forall i,
           0 <= i < S ->
           exists v, nth_error l (Z.to_nat i) = Some v /\ pick step i = inr v).
Proof.
  intros HS HST HTS.
  assert (2 ^ 48 < 2 ^ 50) as Hp1 by reflexivity.
  assert (2 ^ 50 < 2 ^ 900) as Hp2 by reflexivity.
  assert (T <= 2 ^ 48) as HT48 by nia.
  assert (S <= 2 ^ 24) as HS24.
  { destruct (Z_le_gt_dec S (2 ^ 24)) as [ | Hgt]; [assumption | exfalso].
    assert (2 ^ 24 * 2 ^ 24 = 2 ^ 48) as Hsq by reflexivity. nia. }
  assert (2 ^ 24 < 2 ^ 50) as Hp3 by reflexivity.
  destruct (int_truediv_spec T S) as (mq & eq & Eq & _);
    [lia | lia | apply Zdigits2_le; lia | ].
  destruct (mapM_inr (pick (S754_finite false mq eq)) (fun v => 0 <= v < T) (range S))
    as (ys & Eys & _ & Hlen).
  { intros i Hi. apply In_range in Hi.
    apply (sample_index_bound T S i); try lia. assumption. }
  rewrite length_range in Hlen.
  exists (S754_finite false mq eq), ys.
  split; [assumption | split; [ | split; [lia | ]]].
  - apply (SelectorShape.comprehension_kept _ _ (S754_finite false mq eq));
      try assumption; lia.
  - intros i Hi.
    destruct (SelectorShape.mapM_nth _ _ _ _ _ Eys (SelectorShape.nth_range S i Hi))
      as (v & Ev & Hnth).
    exists v. split; assumption.
Qed.

End NearFloor.

(** X15: how far the selection is from the exact spacing.  For
    [0 < samples < total_frames] with [total_frames * samples <= 2^48], the
    selector returns one index per sample, and the index at position [i] is
    [floor(i * total_frames / samples)] or one less: rounding the step and
    the product can lose one frame and never gains one. *)
Theorem frame_indices_near_floor (total_frames samples : Z) :
  0 < samples -> samples < total_frames -> total_frames * samples <= 2 ^ 48 ->
  exists l,
    _frame_indices total_frames samples = inr l
    /\ Z.of_nat (List.length l) = samples
    /\ (forall i,
           0 <= i < samples ->
           exists v,
             nth_error l (Z.to_nat i) = Some v
             /\ i * total_frames / samples - 1 <= v <= i * total_frames / samples).
Proof.
  intros HS HST HTS.
  destruct (NearFloor.positions total_frames samples HS HST HTS)
    as (step & l & Estep & El & Hlen & Hpos).
  exists l. split; [assumption | split; [assumption | ]].
  intros i Hi. destruct (Hpos i Hi) as (v & Hnth & Ev).
  exists v. split; [assumption | ].
  apply (NearFloor.pick_near_floor total_frames samples i step); assumption.
Qed.

(** Thirty frames and twenty-two samples: position 11 holds 14, one less
    than [floor(11 * 30 / 22) = 15]. *)
Lemma frame_indices_near_floor_witness :
  exists l v,
    _frame_indices 30 22 = inr l
    /\ nth_error l 11 = Some v
    /\ 14 <= v <= 15.
Proof.
  destruct (frame_indices_near_floor 30 22) as (l & El & _ & Hnth);
    [lia | lia | apply Z.leb_le; vm_compute; reflexivity | ].
  destruct (Hnth 11 ltac:(lia)) as (v & Ev & Hv).
  exists l, v. split; [exact El | split; [exact Ev | exact Hv]].
Defined.

(** X16: the selection is evenly spaced.  For [0 < samples < total_frames]
    with [total_frames * samples <= 2^48], two consecutive indices of the
    output differ by at least [floor(total_frames / samples) - 1] and at
    most [floor(total_frames / samples) + 2]. *)
Theorem frame_indices_evenly_spaced (total_frames samples : Z) :
  0 < samples -> samples < total_frames -> total_frames * samples <= 2 ^ 48 ->
  exists l,
    _frame_indices total_frames samples = inr l
    /\ (forall i a b,
           0 <= i -> i + 1 < samples ->
           nth_error l (Z.to_nat i) = Some a ->
           nth_error l (Z.to_nat (i + 1)) = Some b ->
           total_frames / samples - 1 <= b - a <= total_frames / samples + 2).
Proof.
  intros HS HST HTS.
  destruct (NearFloor.positions total_frames samples HS HST HTS)
    as (step & l & Estep & El & Hlen & Hpos).
  exists l. split; [assumption | ].
  intros i a b Hi Hi' Ha Hb.
  destruct (Hpos i ltac:(lia)) as (va & Hna & Eva).
  destruct (Hpos (i + 1) ltac:(lia)) as (vb & Hnb & Evb).
  rewrite Ha in Hna. injection Hna as <-. rewrite Hb in Hnb. injection Hnb as <-.
  pose proof (NearFloor.pick_near_floor total_frames samples i step a HS HST HTS Estep
                ltac:(lia) Eva) as Hfa.
  pose proof (NearFloor.pick_near_floor total_frames samples (i + 1) step b HS HST HTS
                Estep ltac:(lia) Evb) as Hfb.
  pose proof (NearFloor.floor_step (i * total_frames) total_frames samples HS) as Hstep.
  replace ((i + 1) * total_frames) with (i * total_frames + total_frames) in Hfb by ring.
  lia.
Qed.

(** Thirty frames and twenty-two samples: the indices at positions 10 and
    11 are at most three apart. *)
Lemma frame_indices_evenly_spaced_witness :
  exists l a b,
    _frame_indices 30 22 = inr l
    /\ nth_error l 10 = Some a
    /\ nth_error l 11 = Some b
    /\ 0 <= b - a <= 3.
Proof.
  destruct (frame_indices_evenly_spaced 30 22) as (l & El & Hgap);
    [lia | lia | apply Z.leb_le; vm_compute; reflexivity | ].
  assert (inr l = inr [0; 1; 2; 4; 5; 6; 8; 9; 10; 12; 13; 14; 16; 17; 19; 20; 21; 23;
                       24; 25; 27; 28] :> result (list Z)) as E
      by (rewrite <- El; vm_compute; reflexivity).
  injection E as ->.
  eexists. exists 13, 14. split; [exact El | ].
  split; [reflexivity | split; [reflexivity | ]].
  exact (Hgap 10 13 14 ltac:(lia) ltac:(lia) eq_refl eq_refl).
Defined.

(** X17: asking for more frames never plans fewer.  If the planner returns
    for an override [n > 0] of the sample count, it returns for every larger
    override too, with the same interval and a target that is at least as
    large. *)
Theorem planner_monotone (settings : Settings) (metadata : VideoMetadata)
    (n n' : Z) (interval_override : option float) (target : Z) (interval : float) :
  0 < n -> n <= n' ->
  _choose_sample_count settings metadata (Some n) interval_override
  = inr (target, interval) ->
  exists target',
    _choose_sample_count settings metadata (Some n') interval_override
    = inr (target', interval)
    /\ target <= target'.
Proof.
  intros Hn Hnn' H.
  rewrite Planner.choose_unfold in *. cbv zeta in *. unfold int_or in *.
  replace (n =? 0) with false in H by (symmetry; apply Z.eqb_neq; lia).
  replace (n' =? 0) with false by (symmetry; apply Z.eqb_neq; lia).
  rewrite (Z.max_l n 1) in H by lia. rewrite (Z.max_l n' 1) by lia.
  unfold time_based in *.
  destruct (duration_sec metadata) as [d | ].
  - destruct (float_bool d).
    + destruct (float_truediv d _) as [e | q]; cbn [bind] in *; [discriminate | ].
      destruct (int_of_float q) as [e | k]; cbn [bind ret] in *; [discriminate | ].
      injection H as <- <-. eexists. split; [reflexivity | ].
      apply Budget.clamp_monotone. lia.
    + cbn [bind ret] in *. injection H as <- <-. eexists. split; [reflexivity | ].
      apply Budget.clamp_monotone. lia.
  - cbn [bind ret] in *. injection H as <- <-. eexists. split; [reflexivity | ].
    apply Budget.clamp_monotone. lia.
Qed.

(** The six-frame clip with overrides of 2 and of 4 frames. *)
Lemma planner_monotone_witness :
  exists target',
    _choose_sample_count Demo.settings Demo.clip_metadata (Some 4) None
    = inr (target', Demo.of_Z 2)
    /\ 2 <= target'.
Proof.
  apply (planner_monotone Demo.settings Demo.clip_metadata 2 4 None 2 (Demo.of_Z 2));
    [lia | lia | vm_compute; reflexivity].
Defined.
